(** * go-claude-agent-sdk: the control protocol of the query handler

    A shallow embedding of the Go sources (query_handler.go, the subprocess
    transport, mcp.go, permission.go, parser.go, client.go, claude.go) and
    the properties of the specification that are stated about them.

    Conventions of the embedding.
    - Go's [any] / decoded JSON is the inductive [value]; a
      [map[string]any] is a [gmap string value].  Indexing a Go map at a
      missing key gives nil: that is [index].
    - A goroutine that blocks in a [select] is resumed by the scheduler; the
      case the [select] takes is an explicit argument of the model.
    - A buffered channel is the queue of the values sent on it together with
      a closed flag.
    - [context.Context] arguments are dropped from pure helpers; where a
      function selects on [ctx.Done()], the outcome of that select is an
      argument. *)

From Stdlib Require Import ZArith Floats.
From stdpp Require Import gmap strings list fin_maps pretty.

Set Warnings "-register-all".
Open Scope string_scope.
Open Scope list_scope.

(** ** Values held by [map[string]any] *)

Inductive value :=
| VNil
| VBool (b : bool)
| VInt (z : Z)
| VFloat (f : float)
| VStr (s : string)
| VList (l : list value)
| VMap (m : gmap string value).

(** [m[k]]: nil when the key is absent. *)
Definition index (m : gmap string value) (k : string) : value :=
  default VNil (m !! k).

(** [v.(string)] with the [ok] result discarded: the zero value on failure. *)
Definition assertString (v : value) : string :=
  match v with VStr s => s | _ => "" end.

(** [v.(string)] keeping the [ok] result. *)
Definition assertStringOk (v : value) : option string :=
  match v with VStr s => Some s | _ => None end.

(** [v.(map[string]any)]: [None] is the nil map. *)
Definition assertMap (v : value) : option (gmap string value) :=
  match v with VMap m => Some m | _ => None end.

(** [v.([]any)]. *)
Definition assertList (v : value) : option (list value) :=
  match v with VList l => Some l | _ => None end.

(** [v.(bool)]. *)
Definition assertBool (v : value) : option bool :=
  match v with VBool b => Some b | _ => None end.

(** The string ["\n"]. *)
Definition newline : string := String (Ascii.ascii_of_nat 10) EmptyString.

(** ** Errors

    One constructor per place where the package builds an error value, so
    that the origin of an error that travels through a pending request can
    be told apart from its text. *)

Inductive ctxError := Canceled | DeadlineExceeded.

Inductive error :=
| ErrResponse (errMsg : string)                 (* readMessages: fmt.Errorf("%s", errMsg) *)
| ErrTimeout (subtype : string)                 (* sendControlRequest *)
| ErrHandlerClosed                              (* close *)
| ErrContextCancelled                           (* readMessages, nil ctx.Err() *)
| ErrContext (c : ctxError)                     (* ctx.Err() *)
| ErrCallbackMissing                            (* handleCanUseTool *)
| ErrUnexpectedPermissionResult (ty : string)   (* handleCanUseTool *)
| ErrNoHookCallback (callbackID : string)       (* handleHookCallback *)
| ErrMcpMissing                                 (* handleMcpMessage *)
| ErrUnsupportedSubtype (subtype : string)      (* handleControlRequest *)
| ErrSDK (msg : string)                         (* &SDKError{Message: msg} *)
| ErrCLIConnection (msg : string) (cause : option error)
| ErrOther (msg : string).                      (* made outside the package *)

Definition ctxErrorText (c : ctxError) : string :=
  match c with
  | Canceled => "context canceled"
  | DeadlineExceeded => "context deadline exceeded"
  end.

(** [err.Error()]. *)
Fixpoint Error (e : error) : string :=
  match e with
  | ErrResponse m => m
  | ErrTimeout s => "control request timeout: " +:+ s
  | ErrHandlerClosed => "query handler closed"
  | ErrContextCancelled => "query handler context cancelled"
  | ErrContext c => ctxErrorText c
  | ErrCallbackMissing => "canUseTool callback is not provided"
  | ErrUnexpectedPermissionResult ty => "unexpected permission result type: " +:+ ty
  | ErrNoHookCallback id => "no hook callback found for ID: " +:+ id
  | ErrMcpMissing => "missing server_name or message for MCP request"
  | ErrUnsupportedSubtype s => "unsupported control request subtype: " +:+ s
  | ErrSDK m => m
  | ErrCLIConnection m None => m
  | ErrCLIConnection m (Some c) => m +:+ ": " +:+ Error c
  | ErrOther m => m
  end.

(** ** mcp.go: the in-process tool server *)

Module Mcp.

Record MCPContent := {
  content_Type : string;
  content_Text : string;
  content_Data : string;
  content_MimeType : string;
}.

Record MCPToolResult := {
  Content : list MCPContent;
  IsError : bool;
}.

(** [MCPToolHandler]: the host's function; it returns a result or an error. *)
Definition MCPToolHandler : Type :=
  gmap string value -> MCPToolResult + error.

(** [InputSchema] may be nil; [Annotations] is a nullable pointer, kept as
    the value it is stored as. *)
Record SdkMcpTool := {
  tool_Name : string;
  tool_Description : string;
  tool_InputSchema : option (gmap string value);
  tool_Handler : MCPToolHandler;
  tool_Annotations : option value;
}.

Record McpServer := {
  Name : string;
  Version : string;
  Tools : list SdkMcpTool;
  toolMap : gmap string SdkMcpTool;
}.

Definition HandleInitialize (s : McpServer) (id : value) : gmap string value :=
  {[ "jsonrpc" := VStr "2.0";
     "id" := id;
     "result" := VMap {[
        "protocolVersion" := VStr "2024-11-05";
        "capabilities" := VMap {[ "tools" := VMap ∅ ]};
        "serverInfo" := VMap {[ "name" := VStr (Name s);
                                "version" := VStr (Version s) ]} ]} ]}.

Definition toolData (t : SdkMcpTool) : gmap string value :=
  let schema :=
    match tool_InputSchema t with
    | Some sch => sch
    | None => {[ "type" := VStr "object"; "properties" := VMap ∅ ]}
    end in
  let d : gmap string value :=
    {[ "name" := VStr (tool_Name t);
       "description" := VStr (tool_Description t);
       "inputSchema" := VMap schema ]} in
  match tool_Annotations t with
  | Some a => <["annotations" := a]> d
  | None => d
  end.

Definition HandleListTools (s : McpServer) (id : value) : gmap string value :=
  let tools := (fun t => VMap (toolData t)) <$> Tools s in
  {[ "jsonrpc" := VStr "2.0";
     "id" := id;
     "result" := VMap {[ "tools" := VList tools ]} ]}.

Definition contentItem (item : MCPContent) : gmap string value :=
  let c : gmap string value := {[ "type" := VStr (content_Type item) ]} in
  if decide (content_Type item = "text") then
    <["text" := VStr (content_Text item)]> c
  else if decide (content_Type item = "image") then
    <["mimeType" := VStr (content_MimeType item)]>
      (<["data" := VStr (content_Data item)]> c)
  else c.

Definition HandleCallTool (s : McpServer) (id : value) (name : string)
    (arguments : gmap string value) : gmap string value :=
  match toolMap s !! name with
  | None =>
      {[ "jsonrpc" := VStr "2.0";
         "id" := id;
         "error" := VMap {[ "code" := VInt (-32601);
                            "message" := VStr ("Tool '" +:+ name +:+ "' not found") ]} ]}
  | Some tool =>
      match tool_Handler tool arguments with
      | inr err =>
          {[ "jsonrpc" := VStr "2.0";
             "id" := id;
             "error" := VMap {[ "code" := VInt (-32603);
                                "message" := VStr (Error err) ]} ]}
      | inl result =>
          let content := (fun item => VMap (contentItem item)) <$> Content result in
          let responseData : gmap string value := {[ "content" := VList content ]} in
          let responseData :=
            if IsError result then <["is_error" := VBool true]> responseData
            else responseData in
          {[ "jsonrpc" := VStr "2.0";
             "id" := id;
             "result" := VMap responseData ]}
      end
  end.

Definition HandleRequest (s : McpServer) (message : gmap string value)
  : gmap string value :=
  let method := assertString (index message "method") in
  let id := index message "id" in
  let params := default ∅ (assertMap (index message "params")) in
  if decide (method = "initialize") then HandleInitialize s id
  else if decide (method = "tools/list") then HandleListTools s id
  else if decide (method = "tools/call") then
    let name := assertString (index params "name") in
    let args := default ∅ (assertMap (index params "arguments")) in
    HandleCallTool s id name args
  else if decide (method = "notifications/initialized") then
    {[ "jsonrpc" := VStr "2.0"; "result" := VMap ∅ ]}
  else
    {[ "jsonrpc" := VStr "2.0";
       "id" := id;
       "error" := VMap {[ "code" := VInt (-32601);
                          "message" := VStr ("Method '" +:+ method +:+ "' not found") ]} ]}.

(** [CreateSdkMcpServer]: later tools of the same name win in [toolMap]. *)
Definition CreateSdkMcpServer (name version : string) (tools : list SdkMcpTool)
  : McpServer :=
  {| Name := name; Version := version; Tools := tools;
     toolMap := foldl (fun m t => <[tool_Name t := t]> m) ∅ tools |}.

(** The envelope shape the specification gives to every response. *)
Definition envelope (resp : gmap string value) : Prop :=
  resp !! "jsonrpc" = Some (VStr "2.0") ∧
  (is_Some (resp !! "result") ↔ ¬ is_Some (resp !! "error")).


End Mcp.

(** ** permission.go *)

Module Permission.

Record PermissionRuleValue := {
  ToolName : string;
  RuleContent : string;
}.

Record PermissionUpdate := {
  pu_Type : string;
  pu_Rules : list PermissionRuleValue;
  pu_Behavior : string;
  pu_Mode : string;
  pu_Directories : list string;
  pu_Destination : string;
}.

Definition ruleDict (rule : PermissionRuleValue) : value :=
  VMap {[ "toolName" := VStr (ToolName rule);
          "ruleContent" := VStr (RuleContent rule) ]}.

(** [PermissionUpdate.ToDict]. *)
Definition ToDict (p : PermissionUpdate) : gmap string value :=
  let result : gmap string value := {[ "type" := VStr (pu_Type p) ]} in
  let result :=
    if decide (pu_Destination p = "") then result
    else <["destination" := VStr (pu_Destination p)]> result in
  if decide (pu_Type p ∈ ["addRules"; "replaceRules"; "removeRules"]) then
    let result :=
      match pu_Rules p with
      | [] => result
      | rules => <["rules" := VList (ruleDict <$> rules)]> result
      end in
    if decide (pu_Behavior p = "") then result
    else <["behavior" := VStr (pu_Behavior p)]> result
  else if decide (pu_Type p = "setMode") then
    if decide (pu_Mode p = "") then result
    else <["mode" := VStr (pu_Mode p)]> result
  else if decide (pu_Type p ∈ ["addDirectories"; "removeDirectories"]) then
    match pu_Directories p with
    | [] => result
    | dirs => <["directories" := VList (VStr <$> dirs)]> result
    end
  else result.

Record ToolPermissionContext := {
  Suggestions : list PermissionUpdate;
}.

(** [UpdatedInput] and [UpdatedPermissions] are compared with nil by the
    handler: [None] is nil, [Some] a non-nil (possibly empty) map or slice. *)
Record PermissionResultAllow := {
  UpdatedInput : option (gmap string value);
  UpdatedPermissions : option (list PermissionUpdate);
}.

Record PermissionResultDeny := {
  Message : string;
  Interrupt : bool;
}.

(** The sealed interface [PermissionResult]: its two implementations, or the
    nil interface value. *)
Inductive PermissionResult :=
| ResultAllow (r : PermissionResultAllow)
| ResultDeny (r : PermissionResultDeny)
| ResultNil.

(** [CanUseToolFunc]: the host's callback returns a result or an error. *)
Definition CanUseToolFunc : Type :=
  string -> gmap string value -> ToolPermissionContext -> PermissionResult + error.

(** [parsePermissionUpdate] (query_handler.go). *)
Definition parseRule (raw : value) : option PermissionRuleValue :=
  rm ← assertMap raw;
  Some {| ToolName := assertString (index rm "toolName");
          RuleContent := assertString (index rm "ruleContent") |}.

Definition parsePermissionUpdate (m : gmap string value) : PermissionUpdate :=
  {| pu_Type := assertString (index m "type");
     pu_Behavior := assertString (index m "behavior");
     pu_Mode := assertString (index m "mode");
     pu_Destination := assertString (index m "destination");
     pu_Directories :=
       match assertList (index m "directories") with
       | Some v => omap assertStringOk v
       | None => []
       end;
     pu_Rules :=
       match assertList (index m "rules") with
       | Some v => omap parseRule v
       | None => []
       end |}.

End Permission.

(** ** Hook types and their conversions *)

Module Hooks.

Record HookInput := {
  SessionID : string;
  TranscriptPath : string;
  Cwd : string;
  PermissionMode : string;
  HookEventName : string;
  ToolName : string;
  ToolInput : option (gmap string value);
  ToolUseID : string;
  ToolResponse : value;
  ErrorMsg : string;
  IsInterrupt : option bool;
  Prompt : string;
  StopHookActive : bool;
  AgentID : string;
  AgentTranscriptPath : string;
  AgentType : string;
  Trigger : string;
  CustomInstructions : string;
  NotificationMessage : string;
  Title : string;
  NotificationType : string;
  PermissionSuggestions : option (list value);
}.

(** The zero [HookInput]. *)
Definition emptyHookInput : HookInput :=
  {| SessionID := ""; TranscriptPath := ""; Cwd := ""; PermissionMode := "";
     HookEventName := ""; ToolName := ""; ToolInput := None; ToolUseID := "";
     ToolResponse := VNil; ErrorMsg := ""; IsInterrupt := None; Prompt := "";
     StopHookActive := false; AgentID := ""; AgentTranscriptPath := "";
     AgentType := ""; Trigger := ""; CustomInstructions := "";
     NotificationMessage := ""; Title := ""; NotificationType := "";
     PermissionSuggestions := None |}.

Definition parseHookInput (m : gmap string value) : HookInput :=
  {| SessionID := assertString (index m "session_id");
     TranscriptPath := assertString (index m "transcript_path");
     Cwd := assertString (index m "cwd");
     PermissionMode := assertString (index m "permission_mode");
     HookEventName := assertString (index m "hook_event_name");
     ToolName := assertString (index m "tool_name");
     ToolInput := assertMap (index m "tool_input");
     ToolUseID := assertString (index m "tool_use_id");
     ToolResponse := index m "tool_response";
     ErrorMsg := assertString (index m "error");
     IsInterrupt := assertBool (index m "is_interrupt");
     Prompt := assertString (index m "prompt");
     StopHookActive := default false (assertBool (index m "stop_hook_active"));
     AgentID := assertString (index m "agent_id");
     AgentTranscriptPath := assertString (index m "agent_transcript_path");
     AgentType := assertString (index m "agent_type");
     Trigger := assertString (index m "trigger");
     CustomInstructions := assertString (index m "custom_instructions");
     NotificationMessage := assertString (index m "message");
     Title := assertString (index m "title");
     NotificationType := assertString (index m "notification_type");
     PermissionSuggestions := assertList (index m "permission_suggestions") |}.

Record HookSpecificOutput := {
  hso_HookEventName : string;
  hso_PermissionDecision : string;
  hso_PermissionDecisionReason : string;
  hso_UpdatedInput : option (gmap string value);
  hso_UpdatedMCPToolOutput : value;
  hso_AdditionalContext : string;
  hso_Decision : option (gmap string value);
}.

Record HookJSONOutput := {
  Async : option bool;
  AsyncTimeout : option Z;
  Continue : option bool;
  SuppressOutput : option bool;
  StopReason : string;
  Decision : string;
  SystemMessage : string;
  Reason : string;
  HookSpecificOutput_ : option HookSpecificOutput;
}.

(** [HookCallback]: input, tool-use id; the (nullable) output or an error. *)
Definition HookCallback : Type :=
  HookInput -> string -> option HookJSONOutput + error.

(** [if cond { result[k] = v }] for an optional field. *)
Definition setOpt (k : string) (v : option value) (m : gmap string value)
  : gmap string value :=
  match v with Some x => <[k := x]> m | None => m end.

(** [if s != "" { result[k] = s }]. *)
Definition setStr (k s : string) (m : gmap string value) : gmap string value :=
  if decide (s = "") then m else <[k := VStr s]> m.

Definition convertHookSpecific (h : HookSpecificOutput) : gmap string value :=
  let hso : gmap string value := {[ "hookEventName" := VStr (hso_HookEventName h) ]} in
  let hso := setStr "permissionDecision" (hso_PermissionDecision h) hso in
  let hso := setStr "permissionDecisionReason" (hso_PermissionDecisionReason h) hso in
  let hso := setOpt "updatedInput" (VMap <$> hso_UpdatedInput h) hso in
  let hso :=
    match hso_UpdatedMCPToolOutput h with
    | VNil => hso
    | v => <["updatedMCPToolOutput" := v]> hso
    end in
  let hso := setStr "additionalContext" (hso_AdditionalContext h) hso in
  setOpt "decision" (VMap <$> hso_Decision h) hso.

Definition convertHookOutputForCLI (output : HookJSONOutput) : gmap string value :=
  let result : gmap string value := ∅ in
  let result := setOpt "async" (VBool <$> Async output) result in
  let result := setOpt "asyncTimeout" (VInt <$> AsyncTimeout output) result in
  let result := setOpt "continue" (VBool <$> Continue output) result in
  let result := setOpt "suppressOutput" (VBool <$> SuppressOutput output) result in
  let result := setStr "stopReason" (StopReason output) result in
  let result := setStr "decision" (Decision output) result in
  let result := setStr "systemMessage" (SystemMessage output) result in
  let result := setStr "reason" (Reason output) result in
  setOpt "hookSpecificOutput"
    ((fun h => VMap (convertHookSpecific h)) <$> HookSpecificOutput_ output) result.

(** [hookMatcherConfig]. *)
Record hookMatcherConfig := {
  Matcher : string;
  Hooks : list HookCallback;
  Timeout : option float;
}.

End Hooks.
(** ** The transport *)

Module Transport.

(** The interface the query handler holds.  [Messages()] and [Errors()] are
    channels: what the handler receives from them is given by the events of
    its reader (below), not by a method. *)
Class Transport (T : Type) := {
  Write : string -> T -> T * option error;
  LastError : T -> option error;
  Close : T -> T * option error;
  EndInput : T -> T * option error;
  IsReady : T -> bool;
}.

(** The write end of the child's stdin: what the operating system will
    answer to a write and to a close. *)
Record pipe := {
  writeErr : option error;
  closeErr : option error;
}.

Inductive procState := ProcRunning | ProcReaped.

(** [subprocessTransport], the fields its methods below touch.  [cancel] is
    [None] for a nil func, [Some b] for a cancel func, [b] telling whether
    it was called.  Two ghost fields record effects outside the struct:
    [childInput] the data written to the pipe, [stdinCloses] the number of
    calls of [stdin.Close()]. *)
Record subprocessTransport := {
  stdin : option pipe;
  ready : bool;
  cancel : option bool;
  process : option procState;
  exitErr : option error;
  childInput : list string;
  stdinCloses : nat;
}.

Definition sp_LastError (t : subprocessTransport) : option error := exitErr t.

Definition sp_Write (data : string) (t : subprocessTransport)
  : subprocessTransport * option error :=
  match ready t, stdin t with
  | true, Some p =>
      match sp_LastError t with
      | Some exit =>
          (t, Some (ErrCLIConnection
                      "Cannot write to process that exited with error" (Some exit)))
      | None =>
          match writeErr p with
          | Some e =>
              ({| stdin := stdin t; ready := false; cancel := cancel t;
                  process := process t; exitErr := exitErr t;
                  childInput := childInput t; stdinCloses := stdinCloses t |},
               Some (ErrCLIConnection "Failed to write to process stdin" (Some e)))
          | None =>
              ({| stdin := stdin t; ready := ready t; cancel := cancel t;
                  process := process t; exitErr := exitErr t;
                  childInput := childInput t ++ [data];
                  stdinCloses := stdinCloses t |}, None)
          end
      end
  | _, _ => (t, Some (ErrCLIConnection "Transport is not ready for writing" None))
  end.

Definition sp_EndInput (t : subprocessTransport)
  : subprocessTransport * option error :=
  match stdin t with
  | Some p =>
      ({| stdin := None; ready := ready t; cancel := cancel t;
          process := process t; exitErr := exitErr t;
          childInput := childInput t; stdinCloses := S (stdinCloses t) |},
       closeErr p)
  | None => (t, None)
  end.

Definition sp_IsReady (t : subprocessTransport) : bool := ready t.

Definition sp_Close (t : subprocessTransport)
  : subprocessTransport * option error :=
  ({| stdin := None;
      ready := false;
      cancel := (fun _ => true) <$> cancel t;
      process := (fun _ => ProcReaped) <$> process t;
      exitErr := exitErr t;
      childInput := childInput t;
      stdinCloses :=
        match stdin t with
        | Some _ => S (stdinCloses t)
        | None => stdinCloses t
        end |}, None).

#[export] Instance subprocess_Transport : Transport subprocessTransport := {
  Write := sp_Write;
  LastError := sp_LastError;
  Close := sp_Close;
  EndInput := sp_EndInput;
  IsReady := sp_IsReady;
}.

(** The transport right after a successful [Connect]. *)
Definition connected (p : pipe) : subprocessTransport :=
  {| stdin := Some p; ready := true; cancel := Some false;
     process := Some ProcRunning; exitErr := None;
     childInput := []; stdinCloses := 0 |}.

(** [mockTransport], the double the package's tests drive the handler with. *)
Record mockTransport := {
  written : list string;
  mockClosed : bool;
  lastErr : option error;
}.

#[export] Instance mock_Transport : Transport mockTransport := {
  Write data m :=
    ({| written := written m ++ [data]; mockClosed := mockClosed m;
        lastErr := lastErr m |}, None);
  LastError m := lastErr m;
  Close m :=
    ({| written := written m; mockClosed := true; lastErr := lastErr m |}, None);
  EndInput m := (m, None);
  IsReady _ := true;
}.

Definition newMockTransport : mockTransport :=
  {| written := []; mockClosed := false; lastErr := None |}.

(** A transport that also records the calls made on it, in order. *)
Inductive call :=
| CallWrite (data : string)
| CallEndInput
| CallClose.

Record logged (T : Type) := {
  inner : T;
  calls : list call;
}.
Arguments inner {T} _.
Arguments calls {T} _.

#[export] Instance logged_Transport {T : Type} `{!Transport T}
  : Transport (logged T) := {
  Write data l :=
    let r := Write data (inner l) in
    ({| inner := r.1; calls := calls l ++ [CallWrite data] |}, r.2);
  LastError l := LastError (inner l);
  Close l :=
    let r := Close (inner l) in
    ({| inner := r.1; calls := calls l ++ [CallClose] |}, r.2);
  EndInput l :=
    let r := EndInput (inner l) in
    ({| inner := r.1; calls := calls l ++ [CallEndInput] |}, r.2);
  IsReady l := IsReady (inner l);
}.

Definition log {T : Type} (t : T) : logged T := {| inner := t; calls := [] |}.

End Transport.
(** ** query_handler.go: the query handler *)

Module Handler.
Import Transport.
Import Permission.
Import Hooks.

(** [queryOptions].  A nil map and an empty map are both [∅]: the handler
    only takes [len] of these maps and ranges over them. *)
Record queryOptions := {
  opt_CanUseTool : option CanUseToolFunc;
  opt_Hooks : gmap string (list hookMatcherConfig);
  opt_SdkMcpServers : gmap string Mcp.McpServer;
  opt_InitializeTimeout : float;
  opt_Agents : gmap string (gmap string value);
}.

(** [pendingRequest]; [done] tells whether the channel [done] is closed.
    The map [pendingRequests] holds pointers: the sender and the reader
    share the record stored under the request id. *)
Record pendingRequest := {
  done : bool;
  result : option (gmap string value);
  err : option error;
}.

Section handler.
Context {T : Type} `{!Transport T}.

(** [json.Marshal] and [strconv.ParseFloat] ([None] when it returns an
    error) belong to Go's library. *)
Variable Marshal : value -> string.
Variable ParseFloat : string -> option float.

(** [queryHandler].  [msgChan] is the sequence of objects sent on the
    channel so far; [cancel] is [None] until [start], then [Some b] with [b]
    telling whether the reader's context is cancelled by it;
    [readerRunning] is the wait group's counter; [firstResult] tells
    whether [firstResultChan] is closed. *)
Record queryHandler := {
  transport : T;
  canUseTool : option CanUseToolFunc;
  hooks : gmap string (list hookMatcherConfig);
  sdkMcpServers : gmap string Mcp.McpServer;
  agents : gmap string (gmap string value);
  pendingRequests : gmap string pendingRequest;
  hookCallbacks : gmap string HookCallback;
  nextCallbackID : Z;
  requestCounter : Z;
  msgChan : list (gmap string value);
  msgChanClosed : bool;
  cancel : option bool;
  readerRunning : bool;
  closed : bool;
  firstResult : bool;
  streamCloseTimeout : float;
  initializeTimeout : float;
  initResult : option (gmap string value);
  readErr : option error;
}.

(** Field updates: [q.f = v]. *)
Definition set_transport (v : T) (q : queryHandler) : queryHandler :=
  {| transport := v; canUseTool := canUseTool q; hooks := hooks q;
  sdkMcpServers := sdkMcpServers q; agents := agents q; pendingRequests :=
  pendingRequests q; hookCallbacks := hookCallbacks q; nextCallbackID :=
  nextCallbackID q; requestCounter := requestCounter q; msgChan := msgChan q;
  msgChanClosed := msgChanClosed q; cancel := cancel q; readerRunning :=
  readerRunning q; closed := closed q; firstResult := firstResult q;
  streamCloseTimeout := streamCloseTimeout q; initializeTimeout :=
  initializeTimeout q; initResult := initResult q; readErr := readErr q |}.

Definition set_pendingRequests (v : gmap string pendingRequest) (q : queryHandler) : queryHandler :=
  {| transport := transport q; canUseTool := canUseTool q; hooks := hooks q;
  sdkMcpServers := sdkMcpServers q; agents := agents q; pendingRequests := v;
  hookCallbacks := hookCallbacks q; nextCallbackID := nextCallbackID q;
  requestCounter := requestCounter q; msgChan := msgChan q; msgChanClosed :=
  msgChanClosed q; cancel := cancel q; readerRunning := readerRunning q;
  closed := closed q; firstResult := firstResult q; streamCloseTimeout :=
  streamCloseTimeout q; initializeTimeout := initializeTimeout q; initResult
  := initResult q; readErr := readErr q |}.

Definition set_hookCallbacks (v : gmap string HookCallback) (q : queryHandler) : queryHandler :=
  {| transport := transport q; canUseTool := canUseTool q; hooks := hooks q;
  sdkMcpServers := sdkMcpServers q; agents := agents q; pendingRequests :=
  pendingRequests q; hookCallbacks := v; nextCallbackID := nextCallbackID q;
  requestCounter := requestCounter q; msgChan := msgChan q; msgChanClosed :=
  msgChanClosed q; cancel := cancel q; readerRunning := readerRunning q;
  closed := closed q; firstResult := firstResult q; streamCloseTimeout :=
  streamCloseTimeout q; initializeTimeout := initializeTimeout q; initResult
  := initResult q; readErr := readErr q |}.

Definition set_nextCallbackID (v : Z) (q : queryHandler) : queryHandler :=
  {| transport := transport q; canUseTool := canUseTool q; hooks := hooks q;
  sdkMcpServers := sdkMcpServers q; agents := agents q; pendingRequests :=
  pendingRequests q; hookCallbacks := hookCallbacks q; nextCallbackID := v;
  requestCounter := requestCounter q; msgChan := msgChan q; msgChanClosed :=
  msgChanClosed q; cancel := cancel q; readerRunning := readerRunning q;
  closed := closed q; firstResult := firstResult q; streamCloseTimeout :=
  streamCloseTimeout q; initializeTimeout := initializeTimeout q; initResult
  := initResult q; readErr := readErr q |}.

Definition set_requestCounter (v : Z) (q : queryHandler) : queryHandler :=
  {| transport := transport q; canUseTool := canUseTool q; hooks := hooks q;
  sdkMcpServers := sdkMcpServers q; agents := agents q; pendingRequests :=
  pendingRequests q; hookCallbacks := hookCallbacks q; nextCallbackID :=
  nextCallbackID q; requestCounter := v; msgChan := msgChan q; msgChanClosed
  := msgChanClosed q; cancel := cancel q; readerRunning := readerRunning q;
  closed := closed q; firstResult := firstResult q; streamCloseTimeout :=
  streamCloseTimeout q; initializeTimeout := initializeTimeout q; initResult
  := initResult q; readErr := readErr q |}.

Definition set_msgChan (v : list (gmap string value)) (q : queryHandler) : queryHandler :=
  {| transport := transport q; canUseTool := canUseTool q; hooks := hooks q;
  sdkMcpServers := sdkMcpServers q; agents := agents q; pendingRequests :=
  pendingRequests q; hookCallbacks := hookCallbacks q; nextCallbackID :=
  nextCallbackID q; requestCounter := requestCounter q; msgChan := v;
  msgChanClosed := msgChanClosed q; cancel := cancel q; readerRunning :=
  readerRunning q; closed := closed q; firstResult := firstResult q;
  streamCloseTimeout := streamCloseTimeout q; initializeTimeout :=
  initializeTimeout q; initResult := initResult q; readErr := readErr q |}.

Definition set_msgChanClosed (v : bool) (q : queryHandler) : queryHandler :=
  {| transport := transport q; canUseTool := canUseTool q; hooks := hooks q;
  sdkMcpServers := sdkMcpServers q; agents := agents q; pendingRequests :=
  pendingRequests q; hookCallbacks := hookCallbacks q; nextCallbackID :=
  nextCallbackID q; requestCounter := requestCounter q; msgChan := msgChan q;
  msgChanClosed := v; cancel := cancel q; readerRunning := readerRunning q;
  closed := closed q; firstResult := firstResult q; streamCloseTimeout :=
  streamCloseTimeout q; initializeTimeout := initializeTimeout q; initResult
  := initResult q; readErr := readErr q |}.

Definition set_cancel (v : option bool) (q : queryHandler) : queryHandler :=
  {| transport := transport q; canUseTool := canUseTool q; hooks := hooks q;
  sdkMcpServers := sdkMcpServers q; agents := agents q; pendingRequests :=
  pendingRequests q; hookCallbacks := hookCallbacks q; nextCallbackID :=
  nextCallbackID q; requestCounter := requestCounter q; msgChan := msgChan q;
  msgChanClosed := msgChanClosed q; cancel := v; readerRunning :=
  readerRunning q; closed := closed q; firstResult := firstResult q;
  streamCloseTimeout := streamCloseTimeout q; initializeTimeout :=
  initializeTimeout q; initResult := initResult q; readErr := readErr q |}.

Definition set_readerRunning (v : bool) (q : queryHandler) : queryHandler :=
  {| transport := transport q; canUseTool := canUseTool q; hooks := hooks q;
  sdkMcpServers := sdkMcpServers q; agents := agents q; pendingRequests :=
  pendingRequests q; hookCallbacks := hookCallbacks q; nextCallbackID :=
  nextCallbackID q; requestCounter := requestCounter q; msgChan := msgChan q;
  msgChanClosed := msgChanClosed q; cancel := cancel q; readerRunning := v;
  closed := closed q; firstResult := firstResult q; streamCloseTimeout :=
  streamCloseTimeout q; initializeTimeout := initializeTimeout q; initResult
  := initResult q; readErr := readErr q |}.

Definition set_closed (v : bool) (q : queryHandler) : queryHandler :=
  {| transport := transport q; canUseTool := canUseTool q; hooks := hooks q;
  sdkMcpServers := sdkMcpServers q; agents := agents q; pendingRequests :=
  pendingRequests q; hookCallbacks := hookCallbacks q; nextCallbackID :=
  nextCallbackID q; requestCounter := requestCounter q; msgChan := msgChan q;
  msgChanClosed := msgChanClosed q; cancel := cancel q; readerRunning :=
  readerRunning q; closed := v; firstResult := firstResult q;
  streamCloseTimeout := streamCloseTimeout q; initializeTimeout :=
  initializeTimeout q; initResult := initResult q; readErr := readErr q |}.

Definition set_firstResult (v : bool) (q : queryHandler) : queryHandler :=
  {| transport := transport q; canUseTool := canUseTool q; hooks := hooks q;
  sdkMcpServers := sdkMcpServers q; agents := agents q; pendingRequests :=
  pendingRequests q; hookCallbacks := hookCallbacks q; nextCallbackID :=
  nextCallbackID q; requestCounter := requestCounter q; msgChan := msgChan q;
  msgChanClosed := msgChanClosed q; cancel := cancel q; readerRunning :=
  readerRunning q; closed := closed q; firstResult := v; streamCloseTimeout :=
  streamCloseTimeout q; initializeTimeout := initializeTimeout q; initResult
  := initResult q; readErr := readErr q |}.

Definition set_initResult (v : option (gmap string value)) (q : queryHandler) : queryHandler :=
  {| transport := transport q; canUseTool := canUseTool q; hooks := hooks q;
  sdkMcpServers := sdkMcpServers q; agents := agents q; pendingRequests :=
  pendingRequests q; hookCallbacks := hookCallbacks q; nextCallbackID :=
  nextCallbackID q; requestCounter := requestCounter q; msgChan := msgChan q;
  msgChanClosed := msgChanClosed q; cancel := cancel q; readerRunning :=
  readerRunning q; closed := closed q; firstResult := firstResult q;
  streamCloseTimeout := streamCloseTimeout q; initializeTimeout :=
  initializeTimeout q; initResult := v; readErr := readErr q |}.

Definition set_readErr (v : option error) (q : queryHandler) : queryHandler :=
  {| transport := transport q; canUseTool := canUseTool q; hooks := hooks q;
  sdkMcpServers := sdkMcpServers q; agents := agents q; pendingRequests :=
  pendingRequests q; hookCallbacks := hookCallbacks q; nextCallbackID :=
  nextCallbackID q; requestCounter := requestCounter q; msgChan := msgChan q;
  msgChanClosed := msgChanClosed q; cancel := cancel q; readerRunning :=
  readerRunning q; closed := closed q; firstResult := firstResult q;
  streamCloseTimeout := streamCloseTimeout q; initializeTimeout :=
  initializeTimeout q; initResult := initResult q; readErr := v |}.

(** [os.Getenv] on the process environment [env]. *)
Definition Getenv (env : gmap string string) (k : string) : string :=
  default "" (env !! k).

Definition newQueryHandler (env : gmap string string) (tr : T)
    (opts : queryOptions) : queryHandler :=
  let timeout :=
    if (opt_InitializeTimeout opts <=? 0)%float then 60%float
    else opt_InitializeTimeout opts in
  let envVal := Getenv env "CLAUDE_CODE_STREAM_CLOSE_TIMEOUT" in
  let streamCloseTimeout :=
    if decide (envVal = "") then 60%float
    else match ParseFloat envVal with
         | Some ms => (ms / 1000)%float
         | None => 60%float
         end in
  {| transport := tr;
     canUseTool := opt_CanUseTool opts;
     hooks := opt_Hooks opts;
     sdkMcpServers := opt_SdkMcpServers opts;
     agents := opt_Agents opts;
     pendingRequests := ∅;
     hookCallbacks := ∅;
     nextCallbackID := 0;
     requestCounter := 0;
     msgChan := [];
     msgChanClosed := false;
     cancel := None;
     readerRunning := false;
     closed := false;
     firstResult := false;
     streamCloseTimeout := streamCloseTimeout;
     initializeTimeout := timeout;
     initResult := None;
     readErr := None |}.

(** [start]: derives the reader's context and launches [readMessages]. *)
Definition start (q : queryHandler) : queryHandler :=
  set_readerRunning true (set_cancel (Some false) q).

(** [q.err()]. *)
Definition err_ (q : queryHandler) : option error := readErr q.

Definition setReadError (e : option error) (q : queryHandler) : queryHandler :=
  match e with
  | None => q
  | Some _ =>
      match readErr q with
      | None => set_readErr e q
      | Some _ => q
      end
  end.

(** What [failPendingRequests] does to one record ([safeClose] closes
    [done] and swallows the panic of a second close). *)
Definition failPending (e : error) (p : pendingRequest) : pendingRequest :=
  {| done := true;
     result := result p;
     err := match err p with None => Some e | Some e0 => Some e0 end |}.

Definition failPendingRequests (e : option error) (q : queryHandler)
  : queryHandler :=
  match e with
  | None => q
  | Some e => set_pendingRequests (failPending e <$> pendingRequests q) q
  end.

(** How a [select] between a send on [msgChan] and [<-ctx.Done()] ends. *)
Inductive selectSend := SendDelivered | SendCtxDone.

Definition errorMessage (e : error) : gmap string value :=
  {[ "type" := VStr "error"; "error" := VStr (Error e) ]}.

Definition pushErrorMessage (s : selectSend) (e : option error)
    (q : queryHandler) : queryHandler :=
  match e with
  | None => q
  | Some e =>
      match s with
      | SendDelivered => set_msgChan (msgChan q ++ [errorMessage e]) q
      | SendCtxDone => q
      end
  end.

(** *** The reader goroutine

    One iteration of the loop of [readMessages] is one event: the case its
    [select] takes together with the value received, and, for the cases that
    send on [msgChan] under a second [select], how that send ends. *)

Inductive readerEvent :=
| EvCtxDone (cause : option ctxError)          (* <-ctx.Done(); ctx.Err() *)
| EvErrClosed                                  (* errChan is closed *)
| EvErr (e : option error) (s : selectSend)    (* a value from errChan *)
| EvMsgClosed (s : selectSend)                 (* Messages() is closed *)
| EvMsg (msg : gmap string value) (s : selectSend).

Inductive readerStatus := Continue | Return.

(** The result of one iteration: the handler, whether the loop goes on, and
    the control request handed to a new dispatcher goroutine, if any. *)
Record iteration := {
  it_handler : queryHandler;
  it_status : readerStatus;
  it_spawn : option (gmap string value);
}.

Definition terminal (s : selectSend) (e : option error) (q : queryHandler)
  : queryHandler :=
  pushErrorMessage s e (failPendingRequests e (setReadError e q)).

(** [case "control_response"]. *)
Definition completePending (response : gmap string value) (p : pendingRequest)
  : pendingRequest :=
  if decide (assertString (index response "subtype") = "error") then
    {| done := true; result := result p;
       err := Some (ErrResponse (assertString (index response "error"))) |}
  else
    {| done := true; result := Some response; err := err p |}.

Definition onControlResponse (msg : gmap string value) (q : queryHandler)
  : queryHandler :=
  match assertMap (index msg "response") with
  | None => q
  | Some response =>
      let requestID := assertString (index response "request_id") in
      if decide (requestID = "") then q
      else match pendingRequests q !! requestID with
           | Some pending =>
               set_pendingRequests
                 (<[requestID := completePending response pending]>
                    (pendingRequests q)) q
           | None => q
           end
  end.

Definition readerIteration (ev : readerEvent) (q : queryHandler) : iteration :=
  match ev with
  | EvCtxDone cause =>
      if closed q then
        {| it_handler := q; it_status := Return; it_spawn := None |}
      else
        let e := match cause with
                 | Some c => ErrContext c
                 | None => ErrContextCancelled
                 end in
        (* pushErrorMessage(context.Background(), err): only the send can fire *)
        {| it_handler := terminal SendDelivered (Some e) q;
           it_status := Return; it_spawn := None |}
  | EvErrClosed =>
      {| it_handler := q; it_status := Continue; it_spawn := None |}
  | EvErr None _ =>
      {| it_handler := q; it_status := Continue; it_spawn := None |}
  | EvErr (Some e) s =>
      {| it_handler := terminal s (Some e) q;
         it_status := Return; it_spawn := None |}
  | EvMsgClosed s =>
      {| it_handler :=
           match LastError (transport q) with
           | Some e => terminal s (Some e) q
           | None => q
           end;
         it_status := Return; it_spawn := None |}
  | EvMsg msg s =>
      if closed q then
        {| it_handler := q; it_status := Return; it_spawn := None |}
      else
        let msgType := assertString (index msg "type") in
        if decide (msgType = "control_response") then
          {| it_handler := onControlResponse msg q;
             it_status := Continue; it_spawn := None |}
        else if decide (msgType = "control_request") then
          {| it_handler := q; it_status := Continue; it_spawn := Some msg |}
        else if decide (msgType = "control_cancel_request") then
          {| it_handler := q; it_status := Continue; it_spawn := None |}
        else
          let q := if decide (msgType = "result") then set_firstResult true q
                   else q in
          match s with
          | SendDelivered =>
              {| it_handler := set_msgChan (msgChan q ++ [msg]) q;
                 it_status := Continue; it_spawn := None |}
          | SendCtxDone =>
              {| it_handler := q; it_status := Return; it_spawn := None |}
          end
  end.

(** The deferred calls of [readMessages]: [close(q.msgChan)], [q.wg.Done()]. *)
Definition readerExit (q : queryHandler) : queryHandler :=
  set_readerRunning false (set_msgChanClosed true q).

(** [readMessages] over the events of its iterations.  When the events run
    out the goroutine is blocked in its [select].  The second component
    lists the control requests handed to dispatcher goroutines. *)
Fixpoint readMessages (evs : list readerEvent) (q : queryHandler)
  : queryHandler * list (gmap string value) :=
  match evs with
  | [] => (q, [])
  | ev :: evs' =>
      let it := readerIteration ev q in
      match it_status it with
      | Return => (readerExit (it_handler it), option_list (it_spawn it))
      | Continue =>
          let r := readMessages evs' (it_handler it) in
          (r.1, (option_list (it_spawn it) ++ r.2)%list)
      end
  end.

(** The reader as seen by the other goroutines: it takes steps only while
    it runs. *)
Definition reader (evs : list readerEvent) (q : queryHandler) : queryHandler :=
  if readerRunning q then (readMessages evs q).1 else q.

(** *** Inbound control requests *)

(** The [ToolPermissionContext] built from [permission_suggestions]. *)
Definition permissionContext (request : gmap string value)
  : ToolPermissionContext :=
  let suggestions :=
    match assertList (index request "permission_suggestions") with
    | Some rawSuggestions =>
        omap (fun raw => parsePermissionUpdate <$> assertMap raw) rawSuggestions
    | None => []
    end in
  {| Suggestions := suggestions |}.

Definition handleCanUseTool (request : gmap string value) (q : queryHandler)
  : gmap string value + error :=
  match canUseTool q with
  | None => inr ErrCallbackMissing
  | Some callback =>
      let toolName := assertString (index request "tool_name") in
      let input := default ∅ (assertMap (index request "input")) in
      let permCtx := permissionContext request in
      match callback toolName input permCtx with
      | inr e => inr e
      | inl (ResultAllow r) =>
          let resp : gmap string value := {[ "behavior" := VStr "allow" ]} in
          let resp :=
            match UpdatedInput r with
            | Some updated => <["updatedInput" := VMap updated]> resp
            | None => <["updatedInput" := VMap input]> resp
            end in
          let resp :=
            match UpdatedPermissions r with
            | Some ps =>
                <["updatedPermissions" := VList ((fun p => VMap (ToDict p)) <$> ps)]> resp
            | None => resp
            end in
          inl resp
      | inl (ResultDeny r) =>
          let resp : gmap string value :=
            {[ "behavior" := VStr "deny"; "message" := VStr (Message r) ]} in
          inl (if Interrupt r then <["interrupt" := VBool true]> resp else resp)
      | inl ResultNil => inr (ErrUnexpectedPermissionResult "<nil>")
      end
  end.

Definition handleHookCallback (request : gmap string value) (q : queryHandler)
  : gmap string value + error :=
  let callbackID := assertString (index request "callback_id") in
  match hookCallbacks q !! callbackID with
  | None => inr (ErrNoHookCallback callbackID)
  | Some callback =>
      let hookInput :=
        match assertMap (index request "input") with
        | Some rawInput => parseHookInput rawInput
        | None => emptyHookInput
        end in
      let toolUseID := assertString (index request "tool_use_id") in
      match callback hookInput toolUseID with
      | inr e => inr e
      | inl None => inl ∅
      | inl (Some output) => inl (convertHookOutputForCLI output)
      end
  end.

Definition handleMcpMessage (request : gmap string value) (q : queryHandler)
  : gmap string value + error :=
  let serverName := assertString (index request "server_name") in
  match assertMap (index request "message") with
  | None => inr ErrMcpMissing
  | Some message =>
      if decide (serverName = "") then inr ErrMcpMissing
      else match sdkMcpServers q !! serverName with
           | None =>
               inl {[ "mcp_response" := VMap {[
                        "jsonrpc" := VStr "2.0";
                        "id" := index message "id";
                        "error" := VMap {[
                           "code" := VInt (-32601);
                           "message" := VStr ("Server '" +:+ serverName +:+ "' not found") ]} ]} ]}
           | Some server =>
               inl {[ "mcp_response" := VMap (Mcp.HandleRequest server message) ]}
           end
  end.

(** The [control_response] envelope written for a dispatched request. *)
Definition controlResponse (requestID : string) (r : gmap string value + error)
  : gmap string value :=
  match r with
  | inr e =>
      {[ "type" := VStr "control_response";
         "response" := VMap {[ "subtype" := VStr "error";
                               "request_id" := VStr requestID;
                               "error" := VStr (Error e) ]} ]}
  | inl responseData =>
      {[ "type" := VStr "control_response";
         "response" := VMap {[ "subtype" := VStr "success";
                               "request_id" := VStr requestID;
                               "response" := VMap responseData ]} ]}
  end.

(** [q.writeMu.Lock(); q.transport.Write(string(data) + "\n"); Unlock()]:
    the error of the write is also returned. *)
Definition writeLine (v : gmap string value) (q : queryHandler)
  : queryHandler * option error :=
  let r := Write (Marshal (VMap v) +:+ newline) (transport q) in
  (set_transport r.1 q, r.2).

Definition dispatch (subtype : string) (request : gmap string value)
    (q : queryHandler) : gmap string value + error :=
  if decide (subtype = "can_use_tool") then handleCanUseTool request q
  else if decide (subtype = "hook_callback") then handleHookCallback request q
  else if decide (subtype = "mcp_message") then handleMcpMessage request q
  else inr (ErrUnsupportedSubtype subtype).

Definition handleControlRequest (msg : gmap string value) (q : queryHandler)
  : queryHandler :=
  let requestID := assertString (index msg "request_id") in
  match assertMap (index msg "request") with
  | None => q
  | Some request =>
      if decide (requestID = "") then q
      else
        let subtype := assertString (index request "subtype") in
        let r := dispatch subtype request q in
        (writeLine (controlResponse requestID r) q).1
  end.

(** *** [close] *)

(** [close].  Its [q.wg.Wait()] returns when the reader has returned: [evs]
    are the iterations the reader still makes, and since the context is
    cancelled by then its [select] can always end them with
    [<-ctx.Done()]. *)
Definition close (evs : list readerEvent) (q : queryHandler) : queryHandler :=
  let q := set_closed true q in
  let q := failPendingRequests (Some ErrHandlerClosed) q in
  let q := set_cancel ((fun _ => true) <$> cancel q) q in
  let q := reader (evs ++ [EvCtxDone (Some Canceled)]) q in
  set_transport (Close (transport q)).1 q.

(** *** Outbound control requests *)

(** [fmt.Sprintf("req_%d_%s", counter, hex.EncodeToString(randBytes))];
    [randHex] is the hex text of the four random bytes. *)
Definition requestID (counter : Z) (randHex : string) : string :=
  "req_" +:+ pretty counter +:+ "_" +:+ randHex.

(** What a sender blocked in the final [select] of [sendControlRequest]
    holds: the id its pending record is stored under, the duration its timer
    was armed with, and the request (for the text of the timeout error). *)
Record waiter := {
  w_requestID : string;
  w_timeout : float;
  w_request : gmap string value;
}.

(** The case that final [select] takes. *)
Inductive wake :=
| WakeDone                      (* <-pending.done *)
| WakeTimer                     (* <-timer.C *)
| WakeCtx (cause : ctxError).   (* <-ctx.Done() *)

(** The return statements of [sendControlRequest], in source order. *)
Inductive returned :=
| RetTerminal (e : error)              (* q.err() != nil *)
| RetWrite (e : error)                 (* the write failed *)
| RetPending (e : error)               (* pending.err != nil *)
| RetResponse (resp : gmap string value)
| RetTimeout (e : error)
| RetCtx (e : error).

(** The Go result [(map[string]any, error)] of a return statement. *)
Definition goResult (r : returned) : gmap string value + error :=
  match r with
  | RetResponse resp => inl resp
  | RetTerminal e | RetWrite e | RetPending e | RetTimeout e | RetCtx e => inr e
  end.

(** The deferred [q.pendingRequests.Delete(requestID)]. *)
Definition deletePending (rid : string) (q : queryHandler) : queryHandler :=
  set_pendingRequests (delete rid (pendingRequests q)) q.

(** [sendControlRequest] up to its final [select]: either it has returned,
    or it blocks as a [waiter]. *)
Definition sendControlRequest_begin (randHex : string)
    (request : gmap string value) (timeout : float) (q : queryHandler)
  : queryHandler * (returned + waiter) :=
  match err_ q with
  | Some e => (q, inl (RetTerminal e))
  | None =>
      let counter := (requestCounter q + 1)%Z in
      let q := set_requestCounter counter q in
      let rid := requestID counter randHex in
      let pending := {| done := false; result := None; err := None |} in
      let q := set_pendingRequests (<[rid := pending]> (pendingRequests q)) q in
      let controlRequest : gmap string value :=
        {[ "type" := VStr "control_request";
           "request_id" := VStr rid;
           "request" := VMap request ]} in
      let r := writeLine controlRequest q in
      match r.2 with
      | Some e => (deletePending rid r.1, inl (RetWrite e))
      | None =>
          (r.1, inr {| w_requestID := rid; w_timeout := timeout;
                       w_request := request |})
      end
  end.

(** The final [select] and the return after it.  [None]: the select cannot
    take the case [w] in [q] (the channel [done] is not closed). *)
Definition sendControlRequest_end (w : wake) (wt : waiter) (q : queryHandler)
  : option (queryHandler * returned) :=
  let rid := w_requestID wt in
  match w with
  | WakeDone =>
      pending ← pendingRequests q !! rid;
      if done pending then
        Some (deletePending rid q,
              match err pending with
              | Some e => RetPending e
              | None =>
                  RetResponse
                    (default ∅ (assertMap
                       (index (default ∅ (result pending)) "response")))
              end)
      else None
  | WakeTimer =>
      Some (deletePending rid q,
            RetTimeout (ErrTimeout (assertString (index (w_request wt) "subtype"))))
  | WakeCtx cause =>
      Some (deletePending rid q, RetCtx (ErrContext cause))
  end.

(** What the other goroutines do while a sender is blocked. *)
Inductive action :=
| ARead (evs : list readerEvent)        (* iterations of the reader *)
| ADispatch (msg : gmap string value)   (* a dispatcher goroutine runs *)
| AClose (evs : list readerEvent).      (* close is called *)

Definition perform (a : action) (q : queryHandler) : queryHandler :=
  match a with
  | ARead evs => reader evs q
  | ADispatch msg => handleControlRequest msg q
  | AClose evs => close evs q
  end.

Definition performAll (acts : list action) (q : queryHandler) : queryHandler :=
  foldl (fun q a => perform a q) q acts.

(** One whole call of [sendControlRequest] under a schedule: the random
    bytes drawn, what the other goroutines do while the call is blocked, and
    the case its [select] takes. *)
Definition sendControlRequest (randHex : string) (acts : list action)
    (w : wake) (request : gmap string value) (timeout : float)
    (q : queryHandler) : option (queryHandler * returned) :=
  match sendControlRequest_begin randHex request timeout q with
  | (q1, inl r) => Some (q1, r)
  | (q1, inr wt) => sendControlRequest_end w wt (performAll acts q1)
  end.

(** *** [initialize] and the typed helpers *)

(** The inner loop over [matcher.Hooks]: one callback id per callback. *)
Definition registerCallback (st : queryHandler * list string) (callback : HookCallback)
  : queryHandler * list string :=
  let q := st.1 in
  let callbackID := "hook_" +:+ pretty (nextCallbackID q) in
  let q := set_hookCallbacks (<[callbackID := callback]> (hookCallbacks q))
             (set_nextCallbackID (nextCallbackID q + 1)%Z q) in
  (q, (st.2 ++ [callbackID])).

Definition matcherConfig (st : queryHandler * list value) (matcher : hookMatcherConfig)
  : queryHandler * list value :=
  let r := foldl registerCallback (st.1, []) (Hooks matcher) in
  let mc : gmap string value :=
    {[ "matcher" := VStr (Matcher matcher);
       "hookCallbackIds" := VList (VStr <$> r.2) ]} in
  let mc := match Timeout matcher with
            | Some t => <["timeout" := VFloat t]> mc
            | None => mc
            end in
  (r.1, (st.2 ++ [VMap mc])).

(** The loop over [q.hooks].  Go ranges over a map in an unspecified order;
    the model takes the order of [map_to_list]. *)
Definition hooksConfig (q : queryHandler) : queryHandler * gmap string value :=
  foldl (fun (st : queryHandler * gmap string value) (ev : string * list hookMatcherConfig) =>
           match ev.2 with
           | [] => st
           | matchers =>
               let r := foldl matcherConfig (st.1, []) matchers in
               (r.1, <[ev.1 := VList r.2]> st.2)
           end)
        (q, ∅) (map_to_list (hooks q)).

(** Everything of a handler but its hook-callback registry, which is all
    that [hooksConfig] writes. *)
Definition outside_registry (q : queryHandler) : queryHandler :=
  set_hookCallbacks ∅ (set_nextCallbackID 0 q).

Definition initializeRequest (q : queryHandler) : queryHandler * gmap string value :=
  let r := hooksConfig q in
  let request : gmap string value :=
    {[ "subtype" := VStr "initialize"; "hooks" := VMap r.2 ]} in
  (r.1, if decide (agents q = ∅) then request
        else <["agents" := VMap (VMap <$> agents q)]> request).

(** [initialize] up to the final [select] of its control request. *)
Definition initialize_begin (randHex : string) (q : queryHandler)
  : queryHandler * (returned + waiter) :=
  let r := initializeRequest q in
  sendControlRequest_begin randHex r.2 (initializeTimeout r.1) r.1.

(** [initialize] after [sendControlRequest] has returned. *)
Definition initialize_end (r : returned) (q : queryHandler) : queryHandler :=
  match goResult r with
  | inl resp => set_initResult (Some resp) q
  | inr _ => q
  end.

(** The typed helpers: each is [sendControlRequest] on this request with
    this timeout. *)
Definition interruptRequest : gmap string value * float :=
  ({[ "subtype" := VStr "interrupt" ]}, 60%float).

Definition setPermissionModeRequest (mode : string) : gmap string value * float :=
  ({[ "subtype" := VStr "set_permission_mode"; "mode" := VStr mode ]}, 60%float).

Definition setModelOptionalRequest (model : value) : gmap string value * float :=
  ({[ "subtype" := VStr "set_model"; "model" := model ]}, 60%float).

Definition rewindFilesRequest (userMessageID : string) : gmap string value * float :=
  ({[ "subtype" := VStr "rewind_files"; "user_message_id" := VStr userMessageID ]},
   60%float).

Definition getMcpStatusRequest : gmap string value * float :=
  ({[ "subtype" := VStr "mcp_status" ]}, 60%float).

(** *** [streamInput] *)

(** The case the outer [select] of [streamInput] takes. *)
Inductive streamEvent :=
| SEvCtxDone                              (* <-ctx.Done() *)
| SEvInput (msg : gmap string value)      (* a message from the input channel *)
| SEvInputClosed.                         (* the input channel is closed *)

(** Where the goroutine is after an iteration: in the loop, blocked in the
    inner [select] with a timer of the given duration, or returned. *)
Inductive streamState :=
| Forwarding
| AwaitingFirstResult (timer : float)
| Finished.

(** The case the inner [select] takes. *)
Inductive streamWake :=
| SWFirstResult          (* <-q.firstResultChan *)
| SWTimer                (* <-time.After(streamCloseTimeout) *)
| SWCtxDone.             (* <-ctx.Done() *)

(** [_ = q.transport.EndInput()]. *)
Definition endInput (q : queryHandler) : queryHandler :=
  set_transport (EndInput (transport q)).1 q.

Definition streamInput_iteration (ev : streamEvent) (q : queryHandler)
  : queryHandler * streamState :=
  match ev with
  | SEvCtxDone => (q, Finished)
  | SEvInputClosed =>
      let hasHooks := bool_decide (hooks q ≠ ∅) in
      if bool_decide (sdkMcpServers q ≠ ∅) || hasHooks then
        (q, AwaitingFirstResult (streamCloseTimeout q))
      else (endInput q, Finished)
  | SEvInput msg =>
      if closed q then (q, Finished)
      else ((writeLine msg q).1, Forwarding)
  end.

(** The inner [select] and what follows it.  [None]: the select cannot take
    the case [w] in [q] (the latch has not fired). *)
Definition streamInput_wake (w : streamWake) (q : queryHandler)
  : option queryHandler :=
  match w with
  | SWFirstResult => if firstResult q then Some (endInput q) else None
  | SWTimer | SWCtxDone => Some (endInput q)
  end.

Fixpoint streamInput_loop (evs : list streamEvent) (q : queryHandler)
  : queryHandler * streamState :=
  match evs with
  | [] => (q, Forwarding)
  | ev :: evs' =>
      let r := streamInput_iteration ev q in
      match r.2 with
      | Forwarding => streamInput_loop evs' r.1
      | _ => r
      end
  end.

(** [streamInput] under a schedule: the iterations of its loop, what the
    other goroutines do while it is blocked in the inner select, and the
    case that select takes.  The state is [Forwarding] when the events ran
    out with the goroutine still in its loop. *)
Definition streamInput (evs : list streamEvent) (acts : list action)
    (w : streamWake) (q : queryHandler) : option (queryHandler * streamState) :=
  match streamInput_loop evs q with
  | (q1, AwaitingFirstResult _) =>
      q2 ← streamInput_wake w (performAll acts q1); Some (q2, Finished)
  | r => Some r
  end.

End handler.
End Handler.

(** ** client.go and claude.go: the two facades, up to [initialize] *)

Module Facade.
Import Transport.
Import Permission.
Import Handler.

(** [McpServerConfig]: the SDK kind carries the in-process server; the
    stdio, SSE and HTTP kinds are only passed on to the command line. *)
Inductive McpServerConfig :=
| McpSdkServerConfig (name : string) (instance : Mcp.McpServer)
| McpExternalServerConfig (cfg : value).

Record AgentDefinition := {
  Description : string;
  Prompt : string;
  agent_Tools : list string;
  Model : string;
}.

Record HookMatcher := {
  hm_Matcher : string;
  hm_Hooks : list Hooks.HookCallback;
  hm_Timeout : option float;
}.

(** [AgentOptions]: the fields read before the handler is initialized (the
    others only shape the command line of the child). *)
Record AgentOptions := {
  o_CanUseTool : option CanUseToolFunc;
  o_PermissionPromptToolName : string;
  o_McpServers : gmap string McpServerConfig;
  o_Hooks : gmap string (list HookMatcher);
  o_Agents : gmap string AgentDefinition;
}.

Definition set_PermissionPromptToolName (v : string) (o : AgentOptions)
  : AgentOptions :=
  {| o_CanUseTool := o_CanUseTool o; o_PermissionPromptToolName := v;
     o_McpServers := o_McpServers o; o_Hooks := o_Hooks o;
     o_Agents := o_Agents o |}.

Section facade.
Variable Marshal : value -> string.
Variable ParseFloat : string -> option float.

(** [convertHooks] (a nil result and an empty map are both [∅]). *)
Definition convertHooks (hooks : gmap string (list HookMatcher))
  : gmap string (list Hooks.hookMatcherConfig) :=
  (fun matchers : list HookMatcher =>
     (fun m => {| Hooks.Matcher := hm_Matcher m;
                  Hooks.Hooks := hm_Hooks m;
                  Hooks.Timeout := hm_Timeout m |}) <$> matchers) <$> hooks.

(** "Extract SDK MCP servers". *)
Definition extractSdkMcpServers (servers : gmap string McpServerConfig)
  : gmap string Mcp.McpServer :=
  omap (fun config => match config with
                      | McpSdkServerConfig _ instance => Some instance
                      | McpExternalServerConfig _ => None
                      end) servers.

(** "Convert agents". *)
Definition convertAgent (agent : AgentDefinition) : gmap string value :=
  let a : gmap string value :=
    {[ "description" := VStr (Description agent);
       "prompt" := VStr (Prompt agent) ]} in
  let a := match agent_Tools agent with
           | [] => a
           | tools => <["tools" := VList (VStr <$> tools)]> a
           end in
  if decide (Model agent = "") then a else <["model" := VStr (Model agent)]> a.

Definition convertAgents (agents : gmap string AgentDefinition)
  : gmap string (gmap string value) :=
  convertAgent <$> agents.

(** [resolveInitializeTimeout] (client.go). *)
Definition resolveInitializeTimeout (env : gmap string string) : float :=
  let minTimeoutSeconds := 60%float in
  let raw := Getenv env "CLAUDE_CODE_STREAM_CLOSE_TIMEOUT" in
  if decide (raw = "") then minTimeoutSeconds
  else match ParseFloat raw with
       | None => minTimeoutSeconds
       | Some ms =>
           let timeoutSeconds := (ms / 1000)%float in
           if (timeoutSeconds <? minTimeoutSeconds)%float then minTimeoutSeconds
           else timeoutSeconds
       end.

(** What a facade has done when it returns or blocks in [initialize]:
    the process environment, the options [subprocessTransport.Connect] was
    called with ([None] when it was not called, so that no child was
    launched), and either the error handed to the caller or the handler
    with the state of its [initialize] request. *)
Record setup := {
  s_env : gmap string string;
  s_connect : option AgentOptions;
  s_result : error + (queryHandler (T := subprocessTransport)
                      * (returned + waiter));
}.

(** The part shared by both facades, from [newSubprocessTransport] on.
    [spawn] is what [t.Connect(ctx)] returns: an error, or nil with the
    child's stdin pipe open. *)
Definition launch (spawn : error + pipe) (randHex : string)
    (env : gmap string string) (options : AgentOptions)
    (initializeTimeout : float) : setup :=
  match spawn with
  | inl e => {| s_env := env; s_connect := Some options; s_result := inl e |}
  | inr p =>
      let q := newQueryHandler ParseFloat env (connected p)
                 {| opt_CanUseTool := o_CanUseTool options;
                    opt_Hooks := convertHooks (o_Hooks options);
                    opt_SdkMcpServers := extractSdkMcpServers (o_McpServers options);
                    opt_InitializeTimeout := initializeTimeout;
                    opt_Agents := convertAgents (o_Agents options) |} in
      let q := start q in
      let r := initialize_begin Marshal randHex q in
      {| s_env := env; s_connect := Some options;
         s_result := match r.2 with
                     | inl ret =>
                         match goResult ret with
                         | inr e => inl e
                         | inl _ => inr r
                         end
                     | inr _ => inr r
                     end |}
  end.

(** [ClaudeClient.Connect], up to the point where [initialize] returns or
    blocks. *)
Definition Connect (spawn : error + pipe) (randHex : string)
    (env : gmap string string) (options : AgentOptions) : setup :=
  let env := <["CLAUDE_CODE_ENTRYPOINT" := "sdk-go-client"]> env in
  match o_CanUseTool options with
  | Some _ =>
      if decide (o_PermissionPromptToolName options = "") then
        launch spawn randHex env (set_PermissionPromptToolName "stdio" options)
          (resolveInitializeTimeout env)
      else
        {| s_env := env; s_connect := None;
           s_result := inl (ErrSDK
             "can_use_tool callback cannot be used with permission_prompt_tool_name") |}
  | None => launch spawn randHex env options (resolveInitializeTimeout env)
  end.

(** The goroutine of [runQuery], up to the point where [initialize] returns
    or blocks; [prompt] is nil for [QueryStream].  An error in [s_result]
    is the error sent on [errChan]. *)
Definition runQuery (spawn : error + pipe) (randHex : string)
    (env : gmap string string) (prompt : option string)
    (options : AgentOptions) : setup :=
  let env := <["CLAUDE_CODE_ENTRYPOINT" := "sdk-go"]> env in
  match o_CanUseTool options with
  | Some _ =>
      match prompt with
      | Some _ =>
          {| s_env := env; s_connect := None;
             s_result := inl (ErrSDK
               "can_use_tool callback requires streaming input; use QueryStream instead of Query") |}
      | None =>
          if decide (o_PermissionPromptToolName options = "") then
            launch spawn randHex env
              (set_PermissionPromptToolName "stdio" options) 60%float
          else
            {| s_env := env; s_connect := None;
               s_result := inl (ErrSDK
                 "can_use_tool callback cannot be used with permission_prompt_tool_name") |}
      end
  | None => launch spawn randHex env options 60%float
  end.

End facade.

End Facade.

(** ** parser.go, message.go, content.go: typed messages *)

Module Parser.

(** The sealed interface [ContentBlock]. *)
Inductive ContentBlock :=
| TextBlock (Text : string)
| ThinkingBlock (Thinking Signature : string)
| ToolUseBlock (ID Name : string) (Input : option (gmap string value))
| ToolResultBlock (ToolUseID : string) (Content : value) (IsError : option bool).

(** [UserMessage.Content]: a string or a list of blocks. *)
Inductive UserContent :=
| ContentText (s : string)
| ContentBlocks (blocks : list ContentBlock).

Record ResultMessage := {
  rm_Subtype : string;
  rm_DurationMS : Z;
  rm_DurationAPIMS : Z;
  rm_IsError : bool;
  rm_NumTurns : Z;
  rm_SessionID : string;
  rm_TotalCostUSD : option float;
  rm_Usage : option (gmap string value);
  rm_Result : string;
  rm_StructuredOutput : value;
}.

(** The sealed interface [Message]. *)
Inductive Message :=
| UserMessage (Content : UserContent) (UUID ParentToolUseID : string)
    (ToolUseResult : option (gmap string value))
| AssistantMessage (Content : list ContentBlock)
    (Model ParentToolUseID Error_ : string)
| SystemMessage (Subtype : string) (Data : gmap string value)
| ResultMsg (r : ResultMessage)
| StreamEvent (UUID SessionID : string) (Event : gmap string value)
    (ParentToolUseID : string)
| RateLimitEvent (Data : gmap string value).

Definition messageType (m : Message) : string :=
  match m with
  | UserMessage _ _ _ _ => "user"
  | AssistantMessage _ _ _ _ => "assistant"
  | SystemMessage _ _ => "system"
  | ResultMsg _ => "result"
  | StreamEvent _ _ _ _ => "stream_event"
  | RateLimitEvent _ => "rate_limit_event"
  end.

(** [&MessageParseError{SDKError: SDKError{Message: ...}, Data: data}]. *)
Record MessageParseError := {
  pe_Message : string;
  pe_Data : gmap string value;
}.

Definition parseContentBlock (block : gmap string value) : option ContentBlock :=
  let blockType := assertString (index block "type") in
  if decide (blockType = "text") then
    Some (TextBlock (assertString (index block "text")))
  else if decide (blockType = "thinking") then
    Some (ThinkingBlock (assertString (index block "thinking"))
            (assertString (index block "signature")))
  else if decide (blockType = "tool_use") then
    Some (ToolUseBlock (assertString (index block "id"))
            (assertString (index block "name"))
            (assertMap (index block "input")))
  else if decide (blockType = "tool_result") then
    Some (ToolResultBlock (assertString (index block "tool_use_id"))
            (index block "content")
            (assertBool (index block "is_error")))
  else None.

(** The loop shared by the user and the assistant parser: items that are
    not objects, and blocks of an unknown type, are skipped. *)
Definition parseBlocks (contentList : list value) : list ContentBlock :=
  omap (fun item => block ← assertMap item; parseContentBlock block) contentList.

Definition parseUserMessage (data : gmap string value)
  : Message + MessageParseError :=
  match assertMap (index data "message") with
  | None =>
      inr {| pe_Message := "Missing 'message' field in user message";
             pe_Data := data |}
  | Some msg =>
      match msg !! "content" with
      | None =>
          inr {| pe_Message := "Missing required field in user message: content";
                 pe_Data := data |}
      | Some content =>
          let parentToolUseID := assertString (index data "parent_tool_use_id") in
          let uuid := assertString (index data "uuid") in
          let toolUseResult := assertMap (index data "tool_use_result") in
          match assertList content with
          | Some contentList =>
              inl (UserMessage (ContentBlocks (parseBlocks contentList))
                     uuid parentToolUseID toolUseResult)
          | None =>
              inl (UserMessage (ContentText (assertString content))
                     uuid parentToolUseID toolUseResult)
          end
      end
  end.

Definition parseAssistantMessage (data : gmap string value)
  : Message + MessageParseError :=
  match assertMap (index data "message") with
  | None =>
      inr {| pe_Message := "Missing 'message' field in assistant message";
             pe_Data := data |}
  | Some msg =>
      match assertList (index msg "content") with
      | None =>
          inr {| pe_Message := "Missing 'content' field in assistant message";
                 pe_Data := data |}
      | Some contentList =>
          let model := assertString (index msg "model") in
          if decide (model = "") then
            inr {| pe_Message := "Missing required field in assistant message: model";
                   pe_Data := data |}
          else
            inl (AssistantMessage (parseBlocks contentList) model
                   (assertString (index data "parent_tool_use_id"))
                   (assertString (index data "error")))
      end
  end.

Definition parseSystemMessage (data : gmap string value)
  : Message + MessageParseError :=
  match assertStringOk (index data "subtype") with
  | None =>
      inr {| pe_Message := "Missing 'subtype' field in system message";
             pe_Data := data |}
  | Some subtype => inl (SystemMessage subtype data)
  end.

Section parser.
(** Go's conversion [int(n)] of a [float64]. *)
Variable floatToInt : float -> Z.

(** [getIntFromAny]: a decoded JSON number is a [float64]. *)
Definition getIntFromAny (v : value) : Z :=
  match v with
  | VFloat n => floatToInt n
  | VInt n => n
  | _ => 0%Z
  end.

Definition missingResultField (field : string) (data : gmap string value)
  : MessageParseError :=
  {| pe_Message := "Missing required field in result message: " +:+ field;
     pe_Data := data |}.

Definition parseResultMessage (data : gmap string value)
  : Message + MessageParseError :=
  let subtype := assertString (index data "subtype") in
  if decide (subtype = "") then inr (missingResultField "subtype" data)
  else match data !! "duration_ms" with
  | None => inr (missingResultField "duration_ms" data)
  | Some durationRaw =>
  match data !! "duration_api_ms" with
  | None => inr (missingResultField "duration_api_ms" data)
  | Some durationAPIRaw =>
  match assertBool (index data "is_error") with
  | None => inr (missingResultField "is_error" data)
  | Some isError =>
  match data !! "num_turns" with
  | None => inr (missingResultField "num_turns" data)
  | Some numTurnsRaw =>
  let sessionID := assertString (index data "session_id") in
  if decide (sessionID = "") then inr (missingResultField "session_id" data)
  else
    inl (ResultMsg
      {| rm_Subtype := subtype;
         rm_DurationMS := getIntFromAny durationRaw;
         rm_DurationAPIMS := getIntFromAny durationAPIRaw;
         rm_IsError := isError;
         rm_NumTurns := getIntFromAny numTurnsRaw;
         rm_SessionID := sessionID;
         rm_TotalCostUSD :=
           match index data "total_cost_usd" with
           | VFloat cost => Some cost
           | _ => None
           end;
         rm_Usage := assertMap (index data "usage");
         rm_Result := assertString (index data "result");
         rm_StructuredOutput := index data "structured_output" |})
  end end end end.

Definition parseStreamEvent (data : gmap string value)
  : Message + MessageParseError :=
  let uuid := assertString (index data "uuid") in
  let sessionID := assertString (index data "session_id") in
  let event := assertMap (index data "event") in
  let parentToolUseID := assertString (index data "parent_tool_use_id") in
  match event with
  | Some ev =>
      if decide (uuid = "") then
        inr {| pe_Message := "Missing required field in stream_event message";
               pe_Data := data |}
      else if decide (sessionID = "") then
        inr {| pe_Message := "Missing required field in stream_event message";
               pe_Data := data |}
      else inl (StreamEvent uuid sessionID ev parentToolUseID)
  | None =>
      inr {| pe_Message := "Missing required field in stream_event message";
             pe_Data := data |}
  end.

Definition parseRateLimitEvent (data : gmap string value)
  : Message + MessageParseError :=
  inl (RateLimitEvent data).

Definition parseMessage (data : gmap string value)
  : Message + MessageParseError :=
  let msgType := assertString (index data "type") in
  if decide (msgType = "") then
    inr {| pe_Message := "Message missing 'type' field"; pe_Data := data |}
  else if decide (msgType = "user") then parseUserMessage data
  else if decide (msgType = "assistant") then parseAssistantMessage data
  else if decide (msgType = "system") then parseSystemMessage data
  else if decide (msgType = "result") then parseResultMessage data
  else if decide (msgType = "stream_event") then parseStreamEvent data
  else if decide (msgType = "rate_limit_event") then parseRateLimitEvent data
  else
    inr {| pe_Message := "Unknown message type: " +:+ msgType; pe_Data := data |}.

End parser.
End Parser.

(** ** client.go and claude.go: the loops that forward typed messages *)

Module Receive.
Import Parser.

(** What travels on the error channel of a receive loop: a parse error, or
    another error of the package. *)
Inductive streamError :=
| ParseFailed (e : MessageParseError)
| Failed (e : error).

(** How the [select] that forwards a parsed message ends: the send on the
    caller's channel goes through, or [ctx.Done()] fires first and
    [ctx.Err()] is the given error. *)
Inductive delivery := Delivered | CtxDone (cause : ctxError).

(** Where the goroutine is once the messages given to it are used up:
    returned, or blocked in [range] on a channel that is still open. *)
Inductive ending := Returned | Blocked.

Record received := {
  messages : list Message;
  failure : option streamError;
  end_ : ending;
}.

Definition isResult (m : Message) : bool :=
  match m with ResultMsg _ => true | _ => false end.

Section receive.
Variable floatToInt : float -> Z.

(** The three loops differ in the error made from an [error] envelope and
    in whether they return after a [ResultMessage]. *)
Record loopKind := {
  envelopeError : string -> error;
  untilResult : bool;
}.

(** The body of [for rawMsg := range q.receiveMessages()], over the
    messages the channel yields, each with the outcome of its forwarding
    [select].  The last component tells whether the loop was left by a
    [return] or [break] ([true]) or ran out of messages ([false]). *)
Fixpoint forward (k : loopKind) (arrivals : list (gmap string value * delivery))
  : list Message * option streamError * bool :=
  match arrivals with
  | [] => ([], None, false)
  | (rawMsg, d) :: rest =>
      if decide (assertString (index rawMsg "type") = "error") then
        ([], Some (Failed (envelopeError k (assertString (index rawMsg "error")))),
         true)
      else
        match parseMessage floatToInt rawMsg with
        | inr e => ([], Some (ParseFailed e), true)
        | inl msg =>
            match d with
            | CtxDone cause => ([], Some (Failed (ErrContext cause)), true)
            | Delivered =>
                if untilResult k && isResult msg then ([msg], None, true)
                else
                  let r := forward k rest in
                  (msg :: r.1.1, r.1.2, r.2)
            end
        end
  end.

(** A loop and what follows it: when the channel is closed and drained,
    the handler's terminal error, if any, is reported. *)
Definition receiveLoop (k : loopKind)
    (arrivals : list (gmap string value * delivery))
    (chanClosed : bool) (qerr : option error) : received :=
  let r := forward k arrivals in
  if r.2 then {| messages := r.1.1; failure := r.1.2; end_ := Returned |}
  else if chanClosed then
    {| messages := r.1.1; failure := Failed <$> qerr; end_ := Returned |}
  else {| messages := r.1.1; failure := None; end_ := Blocked |}.

Definition clientEnvelopeError (errText : string) : error :=
  ErrSDK (if decide (errText = "") then "unknown stream error" else errText).

(** [ClaudeClient.ReceiveMessagesWithErrors] and
    [ClaudeClient.ReceiveResponseWithErrors]: [query] is [c.query], given
    by what its message channel yields, whether the channel is closed after
    that, and what [c.query.err()] returns then. *)
Definition notConnected : error :=
  ErrCLIConnection "Not connected. Call Connect() first." None.

Definition ReceiveMessagesWithErrors
    (query : option (list (gmap string value * delivery) * bool * option error))
  : received :=
  match query with
  | None => {| messages := []; failure := Some (Failed notConnected);
               end_ := Returned |}
  | Some (arrivals, chanClosed, qerr) =>
      receiveLoop {| envelopeError := clientEnvelopeError; untilResult := false |}
        arrivals chanClosed qerr
  end.

Definition ReceiveResponseWithErrors
    (query : option (list (gmap string value * delivery) * bool * option error))
  : received :=
  match query with
  | None => {| messages := []; failure := Some (Failed notConnected);
               end_ := Returned |}
  | Some (arrivals, chanClosed, qerr) =>
      receiveLoop {| envelopeError := clientEnvelopeError; untilResult := true |}
        arrivals chanClosed qerr
  end.

(** "Read and forward messages", the last part of the goroutine of
    [runQuery]. *)
Definition queryEnvelopeError (errText : string) : error :=
  ErrOther (if decide (errText = "") then "unknown transport error" else errText).

Definition forwardMessages (arrivals : list (gmap string value * delivery))
    (chanClosed : bool) (qerr : option error) : received :=
  receiveLoop {| envelopeError := queryEnvelopeError; untilResult := false |}
    arrivals chanClosed qerr.

(** What a handler offers to a loop that reads its channel from the start
    and is never held up by its consumer. *)
Definition offered {T : Type} `{!Transport.Transport T}
    (q : Handler.queryHandler (T := T))
  : list (gmap string value * delivery) * bool * option error :=
  ((fun msg => (msg, Delivered)) <$> Handler.msgChan q,
   Handler.msgChanClosed q, Handler.err_ q).

End receive.
End Receive.

(** * Statements of the specification, and the inputs used to test them *)

Module Spec.
Import Transport.
Import Permission.
Import Handler.
Import Facade.

(** A marshaller and a float parser to run the model on concrete inputs:
    the marshaller keeps only the type of the envelope, the parser knows
    the few texts the examples use. *)
Definition marshalType (v : value) : string :=
  match v with
  | VMap m => assertString (index m "type")
  | _ => ""
  end.

Definition parseFloatTable (s : string) : option float :=
  if decide (s = "30000") then Some 30000%float
  else if decide (s = "120000") then Some 120000%float
  else if decide (s = "NaN") then Some nan
  else None.

Definition goodPipe : pipe := {| writeErr := None; closeErr := None |}.

(** *** Tool server *)



Definition initializedWithId : gmap string value :=
  {[ "jsonrpc" := VStr "2.0";
     "method" := VStr "notifications/initialized";
     "id" := VInt 7 ]}.

(** *** Inbound control requests *)

(** A [control_request] envelope "whose request field is not a JSON object
    or whose request_id is missing or not a non-empty string". *)
Definition malformed_request (msg : gmap string value) : Prop :=
  (∀ request, msg !! "request" ≠ Some (VMap request)) ∨
  (∀ id, msg !! "request_id" = Some (VStr id) → id = "").

(** A handler on a mock transport whose calls are recorded. *)
Definition handler0 (opts : queryOptions) : queryHandler (T := logged mockTransport) :=
  start (newQueryHandler parseFloatTable ∅ (log newMockTransport) opts).

Definition emptyOptions : queryOptions :=
  {| opt_CanUseTool := None; opt_Hooks := ∅; opt_SdkMcpServers := ∅;
     opt_InitializeTimeout := 60%float; opt_Agents := ∅ |}.

Definition requestWithoutBody : gmap string value :=
  {[ "type" := VStr "control_request"; "request_id" := VStr "p1" ]}.

Definition requestUnknownSubtype : gmap string value :=
  {[ "type" := VStr "control_request"; "request_id" := VStr "p1";
     "request" := VMap {[ "subtype" := VStr "frobnicate" ]} ]}.

(** The permission callback of the specification's scenarios: deny [Bash],
    with interrupt; allow anything else and rewrite its input. *)
Definition denyBash : CanUseToolFunc :=
  fun toolName input permCtx =>
    if decide (toolName = "Bash") then
      inl (ResultDeny {| Message := "rm commands are not allowed";
                         Interrupt := true |})
    else
      inl (ResultAllow {| UpdatedInput := Some {[ "command" := VStr "echo hello" ]};
                          UpdatedPermissions := None |}).

Definition withDenyBash : queryOptions :=
  {| opt_CanUseTool := Some denyBash; opt_Hooks := ∅; opt_SdkMcpServers := ∅;
     opt_InitializeTimeout := 60%float; opt_Agents := ∅ |}.

Definition canUseBash : gmap string value :=
  {[ "subtype" := VStr "can_use_tool"; "tool_name" := VStr "Bash";
     "input" := VMap {[ "command" := VStr "rm -rf /" ]} ]}.

Definition canUseRead : gmap string value :=
  {[ "subtype" := VStr "can_use_tool"; "tool_name" := VStr "Read";
     "input" := VMap {[ "command" := VStr "ls" ]} ]}.

(** *** The reader *)

(** An envelope whose ["type"] is not one of the three control types. *)
Definition is_conversation (msg : gmap string value) : bool :=
  match msg !! "type" with
  | Some (VStr t) =>
      negb (bool_decide (t ∈ ["control_request"; "control_response";
                              "control_cancel_request"]))
  | _ => true
  end.

(** The object an iteration of the reader received from [Messages()]. *)
Definition arrival (ev : readerEvent) : option (gmap string value) :=
  match ev with
  | EvMsg msg _ => Some msg
  | _ => None
  end.

(** An iteration with no terminal event: an object arrives and its delivery
    (if it is delivered) is not cut short by a cancellation, or the error
    channel yields nil or closes. *)
Definition undisturbed (ev : readerEvent) : Prop :=
  match ev with
  | EvMsg _ SendDelivered | EvErrClosed | EvErr None _ => True
  | _ => False
  end.

(** The transport error an iteration observes: a non-nil error from
    [Errors()], or [Messages()] closed with a stored last error. *)
Definition observed_error {T : Type} `{!Transport T}
    (ev : readerEvent) (q : queryHandler (T := T)) : option error :=
  match ev with
  | EvErr (Some e) _ => Some e
  | EvMsgClosed _ => LastError (transport q)
  | _ => None
  end.

(** How the send of the synthetic error message ended in that iteration. *)
Definition error_send (ev : readerEvent) : selectSend :=
  match ev with
  | EvErr _ s | EvMsgClosed s | EvMsg _ s => s
  | _ => SendDelivered
  end.

(** C3 as the specification states it, for the iteration [ev] that observes
    the error [e] in the handler [q]. *)
Definition terminal_as_specified {T : Type} `{!Transport T}
    (Marshal : value -> string) (ev : readerEvent) (e : error)
    (q : queryHandler (T := T)) : Prop :=
  let q' := (readMessages [ev] q).1 in
  readErr q' = Some e ∧
  (∀ rid p, pendingRequests q !! rid = Some p → done p = false →
     ∃ p', pendingRequests q' !! rid = Some p' ∧ done p' = true ∧ err p' = Some e) ∧
  msgChan q' = msgChan q ++ [errorMessage e] ∧
  msgChanClosed q' = true ∧
  ∀ randHex request timeout,
    sendControlRequest_begin Marshal randHex request timeout q'
      = (q', inl (RetTerminal e)).

Definition boom : error := ErrOther "transport boom".

Definition assistantMsg : gmap string value :=
  {[ "type" := VStr "assistant"; "message" := VMap {[ "model" := VStr "m" ]} ]}.

Definition strayResponse : gmap string value :=
  {[ "type" := VStr "control_response";
     "response" := VMap {[ "subtype" := VStr "success";
                           "request_id" := VStr "req_9_deadbeef" ]} ]}.

Definition resultMsg : gmap string value :=
  {[ "type" := VStr "result"; "subtype" := VStr "success" ]}.

Definition arrivals : list readerEvent :=
  [EvMsg assistantMsg SendDelivered; EvMsg strayResponse SendDelivered;
   EvErrClosed; EvMsg requestWithoutBody SendDelivered;
   EvMsg resultMsg SendDelivered].

(** *** Outbound control requests *)

(** The outcomes the specification lists for a control request, and the one
    it leaves out: the write of the request failing. *)
Inductive outcome :=
| CompletedSuccess
| CompletedError
| TimedOut
| Cancelled
| HandlerTerminal
| WriteFailed.

(** The outcome a return of [sendControlRequest] is.  An error found in the
    pending record is the agent's error string when the reader built it from
    a [control_response], and the handler's terminal error otherwise. *)
Definition outcome_of (r : returned) : outcome :=
  match r with
  | RetResponse _ => CompletedSuccess
  | RetPending (ErrResponse _) => CompletedError
  | RetPending _ => HandlerTerminal
  | RetTerminal _ => HandlerTerminal
  | RetTimeout _ => TimedOut
  | RetCtx _ => Cancelled
  | RetWrite _ => WriteFailed
  end.

Definition specified_outcomes : list outcome :=
  [CompletedSuccess; CompletedError; TimedOut; Cancelled; HandlerTerminal].

(** C1 as the specification states it, for one run of a call. *)
Definition outcome_as_specified {T : Type} `{!Transport T}
    (run : option (queryHandler (T := T) * returned)) (rid : string) : Prop :=
  ∃ q' r, run = Some (q', r) ∧
          outcome_of r ∈ specified_outcomes ∧
          pendingRequests q' !! rid = None.

(** The pending records only advance: a record stays in the map and a
    closed [done] stays closed. *)
Definition advances (m m' : gmap string pendingRequest) : Prop :=
  ∀ rid p, m !! rid = Some p →
    ∃ p', m' !! rid = Some p' ∧ (done p = true → done p' = true).

(** A client handler on a live subprocess, then closed. *)
Definition liveHandler : queryHandler (T := subprocessTransport) :=
  start (newQueryHandler parseFloatTable ∅ (connected goodPipe) emptyOptions).

Definition closedHandler : queryHandler (T := subprocessTransport) :=
  close [] liveHandler.

(** The closed handler after a request was tried on it: only the request
    counter has moved. *)
Definition closedHandlerAfterInterrupt : queryHandler (T := subprocessTransport) :=
  set_requestCounter 1 closedHandler.

(** [interrupt] called on the closed handler. *)
Definition interruptAfterClose
  : option (queryHandler (T := subprocessTransport) * returned) :=
  sendControlRequest marshalType "0a1b2c3d" [] WakeTimer
    interruptRequest.1 interruptRequest.2 closedHandler.

(** *** Close *)

(** Every pending record has been failed or completed with an error. *)
Definition all_failed (m : gmap string pendingRequest) : Prop :=
  ∀ rid p, m !! rid = Some p → done p = true ∧ is_Some (err p).

(** What [close] has established when it has joined the reader. *)
Definition shut {T : Type} `{!Transport T} (q : queryHandler (T := T)) : Prop :=
  closed q = true ∧ all_failed (pendingRequests q).

(** A live handler with a request in flight. *)
Definition busyHandler : queryHandler (T := subprocessTransport) :=
  (sendControlRequest_begin marshalType "0a1b2c3d"
     interruptRequest.1 interruptRequest.2 liveHandler).1.

(** *** End of input *)

Definition withHook : queryOptions :=
  {| opt_CanUseTool := None;
     opt_Hooks := {[ "PreToolUse" :=
                      [ {| Hooks.Matcher := "Bash";
                           Hooks.Hooks := [fun _ _ => inl None];
                           Hooks.Timeout := None |} ] ]};
     opt_SdkMcpServers := ∅;
     opt_InitializeTimeout := 60%float; opt_Agents := ∅ |}.

(** *** The facades *)

(** C10 as the specification states it for the one-shot facade: with a
    callback and a non-empty [PermissionPromptToolName], the error sent is
    the "cannot be used with" one and nothing was launched. *)
Definition one_shot_rejects (s : setup) : Prop :=
  s_result s = inl (ErrSDK
    "can_use_tool callback cannot be used with permission_prompt_tool_name") ∧
  s_connect s = None.

Definition withCallbackAndPromptTool : AgentOptions :=
  {| o_CanUseTool := Some denyBash; o_PermissionPromptToolName := "mcp__tool";
     o_McpServers := ∅; o_Hooks := ∅; o_Agents := ∅ |}.

Definition withCallbackOnly : AgentOptions :=
  {| o_CanUseTool := Some denyBash; o_PermissionPromptToolName := "";
     o_McpServers := ∅; o_Hooks := ∅; o_Agents := ∅ |}.

(** *** Initialize timeout *)

(** "For every value of the variable that parses as a float f
    (milliseconds), the resulting timeout is max(60, f/1000) seconds, and
    for an absent or unparsable value it is exactly 60 seconds": [t] is
    the maximum of 60 and [f/1000] when it is one of the two and neither
    is above it, so that it is never below the floor. *)
Definition timeout_as_specified (ParseFloat : string -> option float)
    (env : gmap string string) (t : float) : Prop :=
  match env !! "CLAUDE_CODE_STREAM_CLOSE_TIMEOUT" with
  | None => t = 60%float
  | Some raw =>
      match ParseFloat raw with
      | Some f =>
          (60 <=? t)%float = true ∧ (f / 1000 <=? t)%float = true ∧
          (t = 60%float ∨ t = (f / 1000)%float)
      | None => t = 60%float
      end
  end.

Definition noOptions : AgentOptions :=
  {| o_CanUseTool := None; o_PermissionPromptToolName := "";
     o_McpServers := ∅; o_Hooks := ∅; o_Agents := ∅ |}.


Definition env120s : gmap string string :=
  {[ "CLAUDE_CODE_STREAM_CLOSE_TIMEOUT" := "120000" ]}.

(** The text [NaN], which [strconv.ParseFloat] accepts. *)
Definition envNaN : gmap string string :=
  {[ "CLAUDE_CODE_STREAM_CLOSE_TIMEOUT" := "NaN" ]}.

(** [Connect] with a two-minute value in the environment. *)
Definition connect120 : setup :=
  Connect marshalType parseFloatTable (inr goodPipe) "0a1b2c3d" env120s noOptions.


(** [Connect] with [NaN] in the environment. *)
Definition connectNaN : setup :=
  Connect marshalType parseFloatTable (inr goodPipe) "0a1b2c3d" envNaN noOptions.

End Spec.

(** * Further statements about the code *)

Module Extra.
Import Transport.
Import Permission.
Import Handler.
Import Facade.
Import Spec.

(** The only goroutine that sends on [msgChan] is the reader, and it closes
    the channel when it returns: a closed channel means a reader that has
    returned. *)
Definition channel_discipline {T : Type} `{!Transport T}
    (q : queryHandler (T := T)) : Prop :=
  msgChanClosed q = true → readerRunning q = false.

(** An envelope of type [control_request]. *)
Definition is_control_request (msg : gmap string value) : bool :=
  match msg !! "type" with
  | Some (VStr t) => bool_decide (t = "control_request")
  | _ => false
  end.

(** An envelope of type [result]. *)
Definition is_result (msg : gmap string value) : bool :=
  match msg !! "type" with
  | Some (VStr t) => bool_decide (t = "result")
  | _ => false
  end.

(** The [control_response] envelope the agent sends for the request [rid]. *)
Definition responseFor (rid : string) (response : gmap string value)
  : gmap string value :=
  {[ "type" := VStr "control_response";
     "response" := VMap (<["request_id" := VStr rid]> response) ]}.

(** A [control_response] that completes no pending request of [q]: it has
    no response object, or no non-empty string id, or an id under which
    nothing is pending. *)
Definition unmatched {T : Type} `{!Transport T} (q : queryHandler (T := T))
    (msg : gmap string value) : Prop :=
  match msg !! "response" with
  | Some (VMap response) =>
      match response !! "request_id" with
      | Some (VStr rid) => rid = "" ∨ pendingRequests q !! rid = None
      | _ => True
      end
  | _ => True
  end.


Definition successBody : gmap string value :=
  {[ "subtype" := VStr "success";
     "response" := VMap {[ "commands" := VList [] ]} ]}.

(** A handler whose reader has observed a transport error. *)
Definition erroredHandler : queryHandler (T := logged mockTransport) :=
  reader [EvErr (Some boom) SendDelivered] (handler0 emptyOptions).

Definition laterActions : list action :=
  [ARead [EvCtxDone (Some Canceled)];
   ADispatch requestUnknownSubtype;
   AClose [EvErr (Some ErrHandlerClosed) SendDelivered]].

(** An [mcp_message] request body for the server named [calc]. *)
Definition mcpRequest : gmap string value :=
  {[ "subtype" := VStr "mcp_message";
     "server_name" := VStr "calc";
     "message" := VMap initializedWithId ]}.

(** The id [initialize] gives to the callback numbered [k]. *)
Definition hookID (k : Z) : string := "hook_" +:+ pretty k.

(** The number of callbacks in a hook configuration. *)
Definition callbackCount (hooks : gmap string (list Hooks.hookMatcherConfig)) : nat :=
  sum_list_with
    (λ ev : string * list Hooks.hookMatcherConfig,
       sum_list_with (λ m, length (Hooks.Hooks m)) ev.2)
    (map_to_list hooks).

(** [q'] is [q] with [n] more callbacks registered: the counter has
    advanced by [n], every number in between has its id registered, and
    what was registered still is. *)
Definition registers {T : Type} `{!Transport T} (n : nat)
    (q q' : queryHandler (T := T)) : Prop :=
  nextCallbackID q' = (nextCallbackID q + Z.of_nat n)%Z ∧
  (∀ k, (nextCallbackID q ≤ k < nextCallbackID q')%Z →
        is_Some (hookCallbacks q' !! hookID k)) ∧
  (∀ id, is_Some (hookCallbacks q !! id) → is_Some (hookCallbacks q' !! id)).

(** The line [streamInput] writes for an input message. *)
Definition inputLine (Marshal : value → string) (msg : gmap string value) : call :=
  CallWrite (Marshal (VMap msg) +:+ newline).

(** What happens at a handler over time: a step of another goroutine, or a
    call of [sendControlRequest] that gets as far as its final [select]
    (or returns before it). *)
Inductive step :=
| StepAction (a : action)
| StepSend (randHex : string) (request : gmap string value) (timeout : float).

Definition runStep {T : Type} `{!Transport T} (Marshal : value → string)
    (s : step) (q : queryHandler (T := T)) : queryHandler (T := T) :=
  match s with
  | StepAction a => perform Marshal a q
  | StepSend randHex request timeout =>
      (sendControlRequest_begin Marshal randHex request timeout q).1
  end.

Definition runSteps {T : Type} `{!Transport T} (Marshal : value → string)
    (steps : list step) (q : queryHandler (T := T)) : queryHandler (T := T) :=
  foldl (fun q s => runStep Marshal s q) q steps.

(** Two [interrupt] requests on one handler that draw the same random
    bytes, with a dispatcher and another request in between. *)
Definition firstSend
  : queryHandler (T := logged mockTransport) * (returned + waiter) :=
  sendControlRequest_begin marshalType "0a1b2c3d"
    interruptRequest.1 interruptRequest.2 (handler0 emptyOptions).

Definition between : list step :=
  [StepAction (ADispatch requestUnknownSubtype);
   StepSend "0a1b2c3d" getMcpStatusRequest.1 getMcpStatusRequest.2].

Definition secondSend
  : queryHandler (T := logged mockTransport) * (returned + waiter) :=
  sendControlRequest_begin marshalType "0a1b2c3d"
    interruptRequest.1 interruptRequest.2
    (runSteps marshalType between firstSend.1).

(** The calls a handler and its facade make on a transport, as a program. *)
Definition callOn {T : Type} `{!Transport T} (c : call) (t : T) : T * option error :=
  match c with
  | CallWrite data => Write data t
  | CallEndInput => EndInput t
  | CallClose => Close t
  end.

Definition callsOn {T : Type} `{!Transport T} (cs : list call) (t : T) : T :=
  foldl (fun t c => (callOn c t).1) t cs.



(** No write gets through: stdin is closed, or the transport is not ready. *)
Definition sealed (t : subprocessTransport) : Prop :=
  stdin t = None ∨ ready t = false.

(** [q'] is [q] after more registrations: the counter has not gone back,
    and the ids below the counter of [q] hold what they held. *)
Definition grows {T : Type} `{!Transport T} (q q' : queryHandler (T := T)) : Prop :=
  (nextCallbackID q ≤ nextCallbackID q')%Z ∧
  ∀ k, (k < nextCallbackID q)%Z →
       hookCallbacks q' !! hookID k = hookCallbacks q !! hookID k.

(** The ids [ids] are registered for the callbacks [cbs], under numbers
    below the counter. *)
Definition bound {T : Type} `{!Transport T} (q : queryHandler (T := T))
    (ids : list string) (cbs : list Hooks.HookCallback) : Prop :=
  Forall2 (λ id cb, ∃ k, id = hookID k ∧ (k < nextCallbackID q)%Z ∧
                         hookCallbacks q !! id = Some cb) ids cbs.

(** The matcher entry [v] of an [initialize] request announces the
    callbacks of [matcher] under ids registered for them. *)
Definition announced {T : Type} `{!Transport T} (q : queryHandler (T := T))
    (matcher : Hooks.hookMatcherConfig) (v : value) : Prop :=
  ∃ mc ids, v = VMap mc ∧
    mc !! "matcher" = Some (VStr (Hooks.Matcher matcher)) ∧
    mc !! "hookCallbackIds" = Some (VList (VStr <$> ids)) ∧
    mc !! "timeout" = VFloat <$> Hooks.Timeout matcher ∧
    bound q ids (Hooks.Hooks matcher).

(** The body of the loop of [hooksConfig] over the hook events. *)
Definition eventConfig {T : Type} `{!Transport T}
    (st : queryHandler (T := T) * gmap string value)
    (ev : string * list Hooks.hookMatcherConfig)
  : queryHandler (T := T) * gmap string value :=
  match ev.2 with
  | [] => st
  | matchers =>
      let r := foldl matcherConfig (st.1, []) matchers in
      (r.1, <[ev.1 := VList r.2]> st.2)
  end.

(** The matcher of [withHook]. *)
Definition bashMatcher : Hooks.hookMatcherConfig :=
  {| Hooks.Matcher := "Bash";
     Hooks.Hooks := [fun _ _ => inl None];
     Hooks.Timeout := None |}.

(** A raw message that a receive loop forwards: it is no [error] envelope
    and it parses. *)
Definition parses (floatToInt : float → Z) (msg : gmap string value) : Prop :=
  assertString (index msg "type") ≠ "error" ∧
  ∃ m, Parser.parseMessage floatToInt msg = inl m.

(** The error a caller of the client's receive loops gets for a transport
    error [e] of the handler. *)
Definition surfaced (s : selectSend) (e : error) : Receive.streamError :=
  Receive.Failed
    match s with
    | SendDelivered =>
        ErrSDK (if decide (Error e = "") then "unknown stream error" else Error e)
    | SendCtxDone => e
    end.

Definition systemRaw : gmap string value :=
  {[ "type" := VStr "system"; "subtype" := VStr "init" ]}.

Definition resultRaw : gmap string value :=
  {[ "type" := VStr "result"; "subtype" := VStr "success";
     "duration_ms" := VFloat 12; "duration_api_ms" := VFloat 7;
     "is_error" := VBool false; "num_turns" := VFloat 1;
     "session_id" := VStr "s1" ]}.

(** A conversion for the examples (the numbers are not looked at). *)
Definition toZero (f : float) : Z := 0.

(** [ReceiveResponse] on a channel that yields a system message, a result
    and another system message. *)
Definition responseRun : Receive.received :=
  Receive.ReceiveResponseWithErrors toZero
    (Some ([(systemRaw, Receive.Delivered); (resultRaw, Receive.Delivered);
            (systemRaw, Receive.Delivered)], false, None)).

(** A handler whose channel holds a system message, with the reader
    running. *)
Definition handlerWithMessage : queryHandler (T := logged mockTransport) :=
  reader [EvMsg systemRaw SendDelivered] (handler0 emptyOptions).

End Extra.

(** * Properties *)

Import Spec.
Import Transport.

(** ** The tool server (mcp.go) *)

Section McpProperties.
Import Mcp.

Lemma envelope_result (resp : gmap string value) r :
  resp !! "jsonrpc" = Some (VStr "2.0") →
  resp !! "result" = Some r → resp !! "error" = None → envelope resp.
Proof.
  intros Hj Hr He. split; [done|]. rewrite Hr, He. split.
  - intros _ H. by apply is_Some_None in H.
  - eauto.
Qed.

Lemma envelope_error (resp : gmap string value) e :
  resp !! "jsonrpc" = Some (VStr "2.0") →
  resp !! "result" = None → resp !! "error" = Some e → envelope resp.
Proof.
  intros Hj Hr He. split; [done|]. rewrite Hr, He. split.
  - intros H. by apply is_Some_None in H.
  - intros H. destruct H. eauto.
Qed.

Lemma HandleCallTool_shape s id name args :
  envelope (HandleCallTool s id name args) ∧
  HandleCallTool s id name args !! "id" = Some id.
Proof.
  unfold HandleCallTool.
  destruct (toolMap s !! name) as [tool|].
  - destruct (tool_Handler tool args) as [result|err]; split;
      try (eapply envelope_result; by simplify_map_eq);
      try (eapply envelope_error; by simplify_map_eq);
      by simplify_map_eq.
  - split; [eapply envelope_error|]; by simplify_map_eq.
Qed.
End McpProperties.



(** ** The initialize timeout (client.go, query_handler.go) *)

Section Float64.
Local Open Scope float_scope.






Lemma Prim2SF_60 : Prim2SF 60 = S754_finite false 8444249301319680 (-47).
Proof. by vm_compute. Qed.





Lemma le0_lt60 x : (x <=? 0) = true → (x <? 60) = true.
Proof.
  rewrite leb_spec, ltb_spec, Prim2SF_60.
  assert (Hz : Prim2SF 0 = S754_zero false) by (by vm_compute).
  rewrite Hz.
  destruct (Prim2SF x) as [s| s| |s m e]; try discriminate; try reflexivity;
    destruct s; try discriminate; try reflexivity.
Qed.

(** A clamped timeout passes the [timeout <= 0] test of [newQueryHandler]
    unchanged. *)
Lemma clamp_positive x :
  ((if x <? 60 then 60 else x) <=? 0) = false.
Proof.
  destruct (x <? 60) eqn:Hlt; [by vm_compute|].
  destruct (x <=? 0) eqn:Hle; [|done].
  apply le0_lt60 in Hle. congruence.
Qed.
End Float64.

Lemma foldl_preserve {A B : Type} (P : A → Prop) (f : A → B → A) (l : list B) (a : A) :
  P a → (∀ a b, P a → P (f a b)) → P (foldl f a l).
Proof.
  intros Ha Hf. revert a Ha. induction l as [|b l IH]; intros a Ha; simpl; auto.
Qed.

Section InitializeTimeout.
Import Transport Handler Facade.
Context {T : Type} `{!Transport T}.
Variable Marshal : value → string.
Variable ParseFloat : string → option float.

Lemma matcherConfig_outside_registry
    (st : queryHandler (T := T) * list value) matcher :
  outside_registry (matcherConfig st matcher).1 = outside_registry st.1.
Proof.
  unfold matcherConfig. simpl.
  apply (foldl_preserve (fun st' => outside_registry st'.1 = outside_registry st.1));
    [done|].
  intros st2 callback Hst2. unfold registerCallback. simpl.
  rewrite <- Hst2. reflexivity.
Qed.

Lemma matchers_outside_registry matchers
    (st : queryHandler (T := T) * list value) :
  outside_registry (foldl matcherConfig st matchers).1 = outside_registry st.1.
Proof.
  apply (foldl_preserve (fun st' => outside_registry st'.1 = outside_registry st.1));
    [done|].
  intros st1 matcher Hst1. by rewrite matcherConfig_outside_registry.
Qed.

Lemma hooksConfig_outside_registry (q : queryHandler (T := T)) :
  outside_registry (hooksConfig q).1 = outside_registry q.
Proof.
  unfold hooksConfig.
  apply (foldl_preserve (fun st => outside_registry st.1 = outside_registry q));
    [done|].
  intros st [ev matchers] Hst. destruct matchers as [|m ms]; [done|].
  cbn [fst snd]. by rewrite matchers_outside_registry.
Qed.

Lemma initializeRequest_timeout (q : queryHandler (T := T)) :
  initializeTimeout (initializeRequest q).1 = initializeTimeout q.
Proof.
  unfold initializeRequest. simpl.
  change (initializeTimeout (hooksConfig q).1)
    with (initializeTimeout (outside_registry (hooksConfig q).1)).
  by rewrite hooksConfig_outside_registry.
Qed.

(** A request that blocks holds the timeout it was called with. *)
Lemma sendControlRequest_begin_timeout randHex request timeout
    (q q' : queryHandler (T := T)) wt :
  sendControlRequest_begin Marshal randHex request timeout q = (q', inr wt) →
  w_timeout wt = timeout ∧ initializeTimeout q' = initializeTimeout q.
Proof.
  unfold sendControlRequest_begin.
  destruct (err_ q); [discriminate|].
  destruct (writeLine _ _ _).2 eqn:Hw; [discriminate|].
  intros [= <- <-]. done.
Qed.

Lemma sendControlRequest_begin_returned randHex request timeout
    (q q' : queryHandler (T := T)) ret :
  sendControlRequest_begin Marshal randHex request timeout q = (q', inl ret) →
  ∃ e, goResult ret = inr e.
Proof.
  unfold sendControlRequest_begin.
  destruct (err_ q); [intros [= <- <-]; eauto|].
  destruct (writeLine _ _ _).2 eqn:Hw; [|discriminate].
  intros [= <- <-]. eauto.
Qed.
End InitializeTimeout.

Section ResolveTimeout.
Import Transport Handler Facade.
Local Open Scope float_scope.
Variable Marshal : value → string.
Variable ParseFloat : string → option float.

Lemma resolveInitializeTimeout_positive env :
  (resolveInitializeTimeout ParseFloat env <=? 0) = false.
Proof.
  unfold resolveInitializeTimeout. case_decide; [by vm_compute|].
  destruct (ParseFloat (Getenv _ _)); [apply clamp_positive|by vm_compute].
Qed.

Lemma resolveInitializeTimeout_entrypoint entrypoint env :
  resolveInitializeTimeout ParseFloat (<["CLAUDE_CODE_ENTRYPOINT" := entrypoint]> env)
  = resolveInitializeTimeout ParseFloat env.
Proof.
  unfold resolveInitializeTimeout, Getenv. by rewrite lookup_insert_ne.
Qed.

(** A handler launched with a positive timeout keeps it, and its
    [initialize] request waits with it. *)
Lemma launch_timeout spawn randHex env options t q st :
  (t <=? 0) = false →
  s_result (launch Marshal ParseFloat spawn randHex env options t) = inr (q, st) →
  initializeTimeout q = t ∧ ∃ wt, st = inr wt ∧ w_timeout wt = t.
Proof.
  intros Ht. unfold launch. destruct spawn as [e|p]; [discriminate|]. simpl.
  unfold initialize_begin.
  destruct (sendControlRequest_begin _ _ _ _ _) as [q1 [ret|wt]] eqn:Hb; simpl.
  - destruct (sendControlRequest_begin_returned _ _ _ _ _ _ _ Hb) as [e ->].
    discriminate.
  - intros [= <- <-].
    destruct (sendControlRequest_begin_timeout _ _ _ _ _ _ _ Hb) as [Hw Hq].
    rewrite initializeRequest_timeout in Hw, Hq. simpl in Hw, Hq.
    rewrite Ht in Hw, Hq. eauto.
Qed.

Lemma Connect_timeout spawn randHex env options q st :
  s_result (Connect Marshal ParseFloat spawn randHex env options) = inr (q, st) →
  initializeTimeout q = resolveInitializeTimeout ParseFloat env ∧
  ∃ wt, st = inr wt ∧ w_timeout wt = resolveInitializeTimeout ParseFloat env.
Proof.
  unfold Connect. rewrite resolveInitializeTimeout_entrypoint. intros Hc.
  destruct (o_CanUseTool options).
  - case_decide; [|discriminate].
    by apply launch_timeout in Hc; [|apply resolveInitializeTimeout_positive].
  - by apply launch_timeout in Hc; [|apply resolveInitializeTimeout_positive].
Qed.
End ResolveTimeout.

(** C7 fails on the code: the text [NaN] parses as a float, and with
    [CLAUDE_CODE_STREAM_CLOSE_TIMEOUT=NaN] the timeout resolved by the
    client is NaN, which is not at least 60 and so is not the maximum of 60
    and [f/1000]; [Connect] then reaches its [initialize] request with that
    NaN as the handler's [initializeTimeout] and as the duration the
    request's timer is armed with. *)
Theorem initialize_timeout_nan_not_clamped :
  Facade.resolveInitializeTimeout parseFloatTable envNaN = nan ∧
  (60 <=? Facade.resolveInitializeTimeout parseFloatTable envNaN)%float = false ∧
  ¬ timeout_as_specified parseFloatTable envNaN
      (Facade.resolveInitializeTimeout parseFloatTable envNaN) ∧
  match Facade.s_result connectNaN with
  | inr (q, inr wt) =>
      Handler.initializeTimeout q = nan ∧ Handler.w_timeout wt = nan
  | _ => False
  end.
Proof.
  assert (Hr : Facade.resolveInitializeTimeout parseFloatTable envNaN = nan)
    by (by vm_compute).
  split; [exact Hr|]. rewrite Hr. split; [by vm_compute|]. split.
  - intros H. vm_compute in H. destruct H as [H _]. discriminate H.
  - destruct (Facade.s_result connectNaN) as [e|[q st]] eqn:H.
    + vm_compute in H. discriminate H.
    + apply Connect_timeout in H as (Hq & wt & -> & Hw).
      rewrite Hr in Hq, Hw. done.
Qed.

(** ** Inbound control requests (query_handler.go) *)

Section Dispatch.
Import Transport Permission Handler.
Context {T : Type} `{!Transport T}.
Variable Marshal : value → string.

Lemma malformed_request_inv (msg : gmap string value) :
  malformed_request msg →
  assertMap (index msg "request") = None ∨
  assertString (index msg "request_id") = "".
Proof.
  unfold index. intros [H|H].
  - left. destruct (msg !! "request") as [[]|] eqn:E; try done.
    by destruct (H m).
  - right. destruct (msg !! "request_id") as [[]|] eqn:E; try done.
    simpl. eauto.
Qed.

(** A well-formed request is answered with exactly one line, the envelope
    of what its dispatcher returned. *)
Lemma handleControlRequest_answers (msg request : gmap string value) (id : string)
    (q : queryHandler (T := logged T)) :
  msg !! "request" = Some (VMap request) →
  msg !! "request_id" = Some (VStr id) → id ≠ "" →
  calls (transport (handleControlRequest Marshal msg q)) =
    calls (transport q) ++
      [CallWrite (Marshal (VMap (controlResponse id
         (dispatch (assertString (index request "subtype")) request q))) +:+ newline)].
Proof.
  intros Hr Hi Hne. unfold handleControlRequest, index.
  rewrite Hr, Hi. simpl. by case_decide.
Qed.

(** An unknown subtype is answered with an error response. *)
Lemma unknown_subtype_answered (msg request : gmap string value) (id : string)
    (q : queryHandler (T := logged T)) :
  msg !! "request" = Some (VMap request) →
  msg !! "request_id" = Some (VStr id) → id ≠ "" →
  assertString (index request "subtype")
    ∉ ["can_use_tool"; "hook_callback"; "mcp_message"] →
  calls (transport (handleControlRequest Marshal msg q)) =
    calls (transport q) ++
      [CallWrite (Marshal (VMap
         {[ "type" := VStr "control_response";
            "response" := VMap
              {[ "subtype" := VStr "error";
                 "request_id" := VStr id;
                 "error" := VStr ("unsupported control request subtype: "
                                  +:+ assertString (index request "subtype")) ]} ]})
         +:+ newline)].
Proof.
  intros Hr Hi Hne Hsub. rewrite (handleControlRequest_answers _ request id) by done.
  unfold dispatch. repeat case_decide; try done; exfalso; apply Hsub; set_solver.
Qed.
End Dispatch.

(** C9: a [control_request] envelope whose ["request"] is not an object, or
    whose ["request_id"] is missing, not a string or empty, is dropped by
    the dispatcher: the handler and its transport are left as they were, and
    in particular no call at all (no [Write]) is made on the transport. *)
Theorem malformed_control_request_not_answered
    {T : Type} `{!Transport.Transport T} (Marshal : value → string)
    (msg : gmap string value)
    (q : Handler.queryHandler (T := Transport.logged T)) :
  malformed_request msg →
  Handler.handleControlRequest Marshal msg q = q ∧
  Transport.calls (Handler.transport (Handler.handleControlRequest Marshal msg q))
    = Transport.calls (Handler.transport q).
Proof.
  intros Hm. assert (Handler.handleControlRequest Marshal msg q = q) as ->; [|done].
  unfold Handler.handleControlRequest.
  destruct (malformed_request_inv msg Hm) as [-> | ->]; [done|].
  by destruct (assertMap _).
Qed.

Lemma malformed_control_request_not_answered_witness :
  malformed_request requestWithoutBody ∧
  Transport.calls (Handler.transport
    (Handler.handleControlRequest marshalType requestWithoutBody
       (handler0 emptyOptions))) = [].
Proof.
  assert (Hm : malformed_request requestWithoutBody).
  { left. intros request. by vm_compute. }
  split; [exact Hm|].
  destruct (malformed_control_request_not_answered marshalType
              requestWithoutBody (handler0 emptyOptions) Hm) as [_ ->].
  reflexivity.
Defined.

(** The contrast of C9 on a concrete request: an unknown subtype gets one
    error response. *)
Example unknown_subtype_example :
  Transport.calls (Handler.transport
    (Handler.handleControlRequest marshalType requestUnknownSubtype
       (handler0 emptyOptions))) = [Transport.CallWrite ("control_response" +:+ newline)].
Proof. by vm_compute. Qed.

(** C4: with a permission callback registered, an allow result is answered
    with a body that maps ["updatedInput"] to the callback's replacement
    input when it gave one and otherwise to the request's own ["input"] map
    (the empty map when the request carries none), and that has
    ["updatedPermissions"] exactly when the callback supplied permission
    updates (then the list of their dictionaries); a deny result is
    answered with [{behavior: "deny", message}] plus ["interrupt": true]
    exactly when the callback asked for an interrupt. *)
Theorem can_use_tool_response
    {T : Type} `{!Transport T} (request : gmap string value)
    (q : Handler.queryHandler (T := T)) (callback : Permission.CanUseToolFunc) :
  Handler.canUseTool q = Some callback →
  let original :=
    match request !! "input" with Some (VMap m) => m | _ => ∅ end in
  match callback (assertString (index request "tool_name")) original
          (Handler.permissionContext request) with
  | inl (Permission.ResultAllow r) =>
      ∃ resp, Handler.handleCanUseTool request q = inl resp ∧
        delete "updatedPermissions" resp =
          {[ "behavior" := VStr "allow";
             "updatedInput" :=
               VMap (match Permission.UpdatedInput r with
                     | Some replacement => replacement
                     | None => original
                     end) ]} ∧
        resp !! "updatedPermissions" =
          (fun ps => VList ((fun p => VMap (Permission.ToDict p)) <$> ps))
            <$> Permission.UpdatedPermissions r
  | inl (Permission.ResultDeny r) =>
      ∃ resp, Handler.handleCanUseTool request q = inl resp ∧
        delete "interrupt" resp =
          {[ "behavior" := VStr "deny";
             "message" := VStr (Permission.Message r) ]} ∧
        resp !! "interrupt" =
          if Permission.Interrupt r then Some (VBool true) else None
  | _ => True
  end.
Proof.
  intros Hcb original. unfold Handler.handleCanUseTool. rewrite Hcb.
  assert (Ho : default ∅ (assertMap (index request "input")) = original).
  { unfold original, index. by destruct (request !! "input") as [[]|]. }
  rewrite Ho.
  destruct (callback _ _ _) as [[r|r|]|e]; try done.
  - destruct r as [[u|] [ps|]]; simpl; eexists; (split; [done|]);
      (split; [|by simplify_map_eq]);
      first [ by rewrite delete_insert_eq, delete_id by by simplify_map_eq
            | by rewrite delete_id by by simplify_map_eq ].
  - destruct r as [m [|]]; simpl; eexists; (split; [done|]);
      (split; [|by simplify_map_eq]);
      first [ by rewrite delete_insert_eq, delete_id by by simplify_map_eq
            | by rewrite delete_id by by simplify_map_eq ].
Qed.

Lemma can_use_tool_response_witness :
  Handler.canUseTool (handler0 withDenyBash) = Some denyBash ∧
  ∃ resp, Handler.handleCanUseTool canUseBash (handler0 withDenyBash) = inl resp ∧
    delete "interrupt" resp =
      {[ "behavior" := VStr "deny";
         "message" := VStr "rm commands are not allowed" ]} ∧
    resp !! "interrupt" = Some (VBool true).
Proof.
  split; [reflexivity|].
  exact (can_use_tool_response canUseBash (handler0 withDenyBash) denyBash eq_refl).
Defined.

(** ** The reader (query_handler.go, readMessages) *)

Section Reader.
Import Handler.
Context {T : Type} `{!Transport T}.
Variable Marshal : value → string.

Lemma onControlResponse_stream msg (q : queryHandler (T := T)) :
  msgChan (onControlResponse msg q) = msgChan q ∧
  closed (onControlResponse msg q) = closed q ∧
  readErr (onControlResponse msg q) = readErr q.
Proof.
  unfold onControlResponse. destruct (assertMap _); [|done].
  case_decide; [done|]. by destruct (pendingRequests q !! _).
Qed.

Lemma is_conversation_type (msg : gmap string value) :
  is_conversation msg =
    negb (bool_decide (assertString (index msg "type")
            ∈ ["control_request"; "control_response"; "control_cancel_request"])).
Proof.
  unfold is_conversation, index.
  destruct (msg !! "type") as [[]|]; simpl; try done;
    symmetry; apply negb_true_iff, bool_decide_eq_false; set_solver.
Qed.

(** One undisturbed iteration: the loop goes on, the handler stays open and
    the object is appended to the channel exactly when it is a conversation
    message. *)
Lemma readerIteration_undisturbed ev (q : queryHandler (T := T)) :
  undisturbed ev → closed q = false →
  it_status (readerIteration ev q) = Continue ∧
  closed (it_handler (readerIteration ev q)) = false ∧
  msgChan (it_handler (readerIteration ev q)) =
    msgChan q ++ List.filter is_conversation (option_list (arrival ev)).
Proof.
  intros Hev Hc. destruct ev as [c| |[e|] s|s|msg [|]]; try done; simpl.
  - by rewrite app_nil_r.
  - by rewrite app_nil_r.
  - rewrite Hc, is_conversation_type.
    destruct (onControlResponse_stream msg q) as (Hm & Hcl & _).
    generalize (assertString (index msg "type")). intros t.
    destruct (bool_decide_reflect
                (t ∈ ["control_request"; "control_response";
                      "control_cancel_request"])) as [Ht|Ht];
      repeat case_decide; subst; simpl;
      rewrite ?Hm, ?Hcl, ?app_nil_r; try done; exfalso;
      repeat match goal with
             | H : _ ∈ _ |- _ => apply elem_of_cons in H as [H|H]; try done
             | H : _ ∈ [] |- _ => by apply elem_of_nil in H
             | H : ¬ _ ∈ _ |- _ => apply H; repeat constructor
             end.
Qed.
End Reader.

(** C2: while nothing terminal happens (the handler is not closed, every
    delivery goes through, the error channel yields no error), the objects
    the reader has put on its message channel are, in order, exactly the
    arrived objects whose ["type"] is none of [control_request],
    [control_response], [control_cancel_request]; the channel stays open. *)
Theorem conversation_messages_in_order
    {T : Type} `{!Transport T} (evs : list Handler.readerEvent)
    (q : Handler.queryHandler (T := T)) :
  Forall undisturbed evs → Handler.closed q = false →
  Handler.msgChan (Handler.readMessages evs q).1 =
    Handler.msgChan q ++ List.filter is_conversation (omap arrival evs) ∧
  Handler.msgChanClosed (Handler.readMessages evs q).1 = Handler.msgChanClosed q.
Proof.
  intros Hevs. revert q. induction Hevs as [|ev evs Hev _ IH]; intros q Hc; simpl.
  - by rewrite app_nil_r.
  - destruct (readerIteration_undisturbed ev q Hev Hc) as (-> & Hc' & Hm).
    simpl. destruct (IH _ Hc') as [-> ->]. rewrite Hm, <- app_assoc. split.
    + f_equal. destruct ev as [| | | |msg s]; simpl; try done.
      by destruct (is_conversation msg).
    + destruct ev as [c| |[e|] s|s|msg [|]]; try done; simpl.
      rewrite Hc. repeat case_decide; simpl; try done.
      unfold Handler.onControlResponse. destruct (assertMap _); [|done].
      case_decide; [done|]. by destruct (Handler.pendingRequests q !! _).
Qed.

Lemma conversation_messages_in_order_witness :
  Forall undisturbed arrivals ∧
  Handler.closed (handler0 emptyOptions) = false ∧
  Handler.msgChan (Handler.readMessages arrivals (handler0 emptyOptions)).1
    = [assistantMsg; resultMsg].
Proof.
  assert (H1 : Forall undisturbed arrivals) by (repeat constructor).
  split; [exact H1|]. split; [reflexivity|].
  destruct (conversation_messages_in_order arrivals (handler0 emptyOptions)
              H1 eq_refl) as [-> _].
  by vm_compute.
Defined.

(** C3, as stated, fails: when the reader's context is cancelled before the
    synthetic error message is enqueued, [pushErrorMessage] gives up and the
    channel closes without that message. *)
Lemma transport_error_message_can_be_lost :
  observed_error (Handler.EvErr (Some boom) Handler.SendCtxDone)
    (handler0 emptyOptions) = Some boom ∧
  Handler.msgChan
    (Handler.readMessages [Handler.EvErr (Some boom) Handler.SendCtxDone]
       (handler0 emptyOptions)).1 = [] ∧
  ¬ terminal_as_specified marshalType
      (Handler.EvErr (Some boom) Handler.SendCtxDone) boom (handler0 emptyOptions).
Proof.
  split; [reflexivity|]. split; [by vm_compute|].
  intros (_ & _ & H & _). vm_compute in H. discriminate H.
Qed.

Section Terminal.
Import Handler.
Context {T : Type} `{!Transport T}.
Variable Marshal : value → string.

Lemma terminal_spec s e (q : queryHandler (T := T)) :
  readErr q = None →
  readErr (terminal s (Some e) q) = Some e ∧
  pendingRequests (terminal s (Some e) q) = failPending e <$> pendingRequests q ∧
  msgChan (terminal s (Some e) q) =
    msgChan q ++ match s with
                 | SendDelivered => [errorMessage e]
                 | SendCtxDone => []
                 end.
Proof.
  intros Hr. unfold terminal, setReadError. rewrite Hr.
  destruct s; simpl; by rewrite ?app_nil_r.
Qed.

(** The terminal error is written once: nothing the reader does later
    replaces it. *)
Lemma readMessages_readErr evs e (q : queryHandler (T := T)) :
  readErr q = Some e → readErr (readMessages evs q).1 = Some e.
Proof.
  revert q. induction evs as [|ev evs IH]; intros q Hq; [done|].
  simpl. assert (Hit : readErr (it_handler (readerIteration ev q)) = Some e).
  { destruct ev as [c| |[e'|] s|s|msg s]; simpl.
    - destruct (closed q); [done|]. unfold terminal, setReadError. by rewrite Hq.
    - done.
    - unfold terminal, setReadError. rewrite Hq. by destruct s.
    - done.
    - destruct (LastError (transport q)); [|done].
      unfold terminal, setReadError. rewrite Hq. by destruct s.
    - destruct (closed q); [done|].
      destruct (onControlResponse_stream msg q) as (_ & _ & Hr).
      repeat case_decide; simpl; rewrite ?Hr; try done; by destruct s. }
  destruct (it_status _); simpl; [by apply IH|done].
Qed.
End Terminal.

(** C3, amended: when an iteration of the reader observes a transport error
    [e] (a non-nil error from [Errors()], or [Messages()] closed with a
    stored last error) while no terminal error is stored, it stores [e],
    closes the [done] channel of every pending request and sets its error
    to [e] unless it already had one, sends the synthetic message
    [{type: "error", error: e.Error()}] if that send goes through before
    the reader's context is cancelled (and no message otherwise), then
    returns, closing the message channel; afterwards every control request
    returns [e] at once, without touching the handler. *)
Theorem transport_error_is_terminal
    {T : Type} `{!Transport T} (Marshal : value → string)
    (ev : Handler.readerEvent) (rest : list Handler.readerEvent) (e : error)
    (q : Handler.queryHandler (T := T)) :
  observed_error ev q = Some e → Handler.readErr q = None →
  let q' := (Handler.readMessages (ev :: rest) q).1 in
  Handler.readErr q' = Some e ∧
  (∀ rid p, Handler.pendingRequests q !! rid = Some p →
     ∃ p', Handler.pendingRequests q' !! rid = Some p' ∧
           Handler.done p' = true ∧
           Handler.err p' = Some (default e (Handler.err p))) ∧
  Handler.msgChan q' =
    Handler.msgChan q ++
      match error_send ev with
      | Handler.SendDelivered => [Handler.errorMessage e]
      | Handler.SendCtxDone => []
      end ∧
  Handler.msgChanClosed q' = true ∧
  Handler.readerRunning q' = false ∧
  ∀ randHex request timeout,
    Handler.sendControlRequest_begin Marshal randHex request timeout q'
      = (q', inl (Handler.RetTerminal e)).
Proof.
  intros Hobs Hr q'.
  assert (Hq' : q' = Handler.readerExit
                       (Handler.terminal (error_send ev) (Some e) q)).
  { unfold q'. destruct ev as [c| |[e'|] s|s|msg s]; simpl in *; try done.
    - by injection Hobs as ->.
    - by rewrite Hobs. }
  clearbody q'. subst q'.
  destruct (terminal_spec (error_send ev) e q Hr) as (He & Hp & Hm).
  split; [exact He|]. split.
  { intros rid p Hrid.
    change (Handler.pendingRequests (Handler.readerExit ?x))
      with (Handler.pendingRequests x).
    rewrite Hp, lookup_fmap, Hrid. simpl.
    eexists. split; [done|]. split; [done|]. simpl. by destruct (Handler.err p). }
  split; [exact Hm|]. split; [done|]. split; [done|].
  intros randHex request timeout. unfold Handler.sendControlRequest_begin.
  unfold Handler.err_.
  change (Handler.readErr (Handler.readerExit ?x)) with (Handler.readErr x).
  by rewrite He.
Qed.

Lemma transport_error_is_terminal_witness :
  let q' := (Handler.readMessages
               [Handler.EvErr (Some boom) Handler.SendDelivered]
               (handler0 emptyOptions)).1 in
  Handler.readErr q' = Some boom ∧
  Handler.msgChan q' = [Handler.errorMessage boom] ∧
  Handler.msgChanClosed q' = true.
Proof.
  destruct (transport_error_is_terminal marshalType
              (Handler.EvErr (Some boom) Handler.SendDelivered) []
              boom (handler0 emptyOptions) eq_refl eq_refl)
    as (H1 & _ & H2 & H3 & _).
  split; [exact H1|]. split; [exact H2|exact H3].
Defined.

(** ** Outbound control requests (query_handler.go, sendControlRequest) *)

Section Pending.
Import Handler.
Context {T : Type} `{!Transport T}.
Variable Marshal : value → string.

Lemma advances_refl m : advances m m.
Proof. intros rid p Hp. eauto. Qed.

Lemma advances_trans m1 m2 m3 : advances m1 m2 → advances m2 m3 → advances m1 m3.
Proof.
  intros H12 H23 rid p Hp. destruct (H12 rid p Hp) as (p2 & Hp2 & Hd2).
  destruct (H23 rid p2 Hp2) as (p3 & Hp3 & Hd3). eauto.
Qed.

Lemma advances_failPending e m : advances m (failPending e <$> m).
Proof.
  intros rid p Hp. rewrite lookup_fmap, Hp. simpl. eauto.
Qed.

Lemma terminal_advances s e (q : queryHandler (T := T)) :
  advances (pendingRequests q) (pendingRequests (terminal s e q)).
Proof.
  destruct e as [e|]; [|apply advances_refl]. unfold terminal.
  assert (pendingRequests (pushErrorMessage s (Some e)
            (failPendingRequests (Some e) (setReadError (Some e) q)))
          = failPending e <$> pendingRequests q) as ->.
  { unfold setReadError. destruct (readErr q), s; reflexivity. }
  apply advances_failPending.
Qed.

Lemma onControlResponse_advances msg (q : queryHandler (T := T)) :
  advances (pendingRequests q) (pendingRequests (onControlResponse msg q)).
Proof.
  unfold onControlResponse. destruct (assertMap _) as [response|];
    [|apply advances_refl].
  case_decide; [apply advances_refl|].
  destruct (pendingRequests q !! _) as [pending|] eqn:Hp; [|apply advances_refl].
  intros rid p Hrid. simpl.
  destruct (decide (assertString (index response "request_id") = rid)) as [<-|Hne].
  - rewrite lookup_insert_eq. eexists. split; [done|].
    intros _. unfold completePending. by case_decide.
  - rewrite lookup_insert_ne by done. eauto.
Qed.

Local Opaque terminal onControlResponse.

Lemma readerIteration_advances ev (q : queryHandler (T := T)) :
  advances (pendingRequests q) (pendingRequests (it_handler (readerIteration ev q))).
Proof.
  destruct ev as [c| |[e|] s|s|msg s]; simpl; try apply advances_refl.
  - destruct (closed q); [apply advances_refl|apply terminal_advances].
  - apply terminal_advances.
  - destruct (LastError _); [apply terminal_advances|apply advances_refl].
  - destruct (closed q); [apply advances_refl|].
    repeat case_decide; simpl; try apply advances_refl;
      try apply onControlResponse_advances; destruct s; apply advances_refl.
Qed.

Lemma readMessages_advances evs (q : queryHandler (T := T)) :
  advances (pendingRequests q) (pendingRequests (readMessages evs q).1).
Proof.
  revert q. induction evs as [|ev evs IH]; intros q; [apply advances_refl|].
  simpl. pose proof (readerIteration_advances ev q) as Hit.
  destruct (it_status _); simpl; [|exact Hit].
  eapply advances_trans; [exact Hit|apply IH].
Qed.

Lemma reader_advances evs (q : queryHandler (T := T)) :
  advances (pendingRequests q) (pendingRequests (reader evs q)).
Proof.
  unfold reader. destruct (readerRunning q);
    [apply readMessages_advances|apply advances_refl].
Qed.

Lemma handleControlRequest_pending msg (q : queryHandler (T := T)) :
  pendingRequests (handleControlRequest Marshal msg q) = pendingRequests q.
Proof.
  unfold handleControlRequest. destruct (assertMap _); [|done].
  by case_decide.
Qed.

Lemma close_advances evs (q : queryHandler (T := T)) :
  advances (pendingRequests q) (pendingRequests (close evs q)).
Proof.
  unfold close.
  change (pendingRequests (set_transport ?t ?x)) with (pendingRequests x).
  eapply advances_trans; [|apply reader_advances].
  apply advances_failPending.
Qed.

Lemma perform_advances a (q : queryHandler (T := T)) :
  advances (pendingRequests q) (pendingRequests (perform Marshal a q)).
Proof.
  destruct a; simpl.
  - apply reader_advances.
  - rewrite handleControlRequest_pending. apply advances_refl.
  - apply close_advances.
Qed.

Lemma performAll_advances acts (q : queryHandler (T := T)) :
  advances (pendingRequests q) (pendingRequests (performAll Marshal acts q)).
Proof.
  unfold performAll. revert q.
  induction acts as [|a acts IH]; intros q; [apply advances_refl|].
  simpl. eapply advances_trans; [apply perform_advances|apply IH].
Qed.
End Pending.

Section Send.
Import Handler.
Context {T : Type} `{!Transport T}.
Variable Marshal : value → string.

Lemma writeLine_pending v (q : queryHandler (T := T)) :
  pendingRequests (writeLine Marshal v q).1 = pendingRequests q.
Proof. done. Qed.

(** A request that blocks has its fresh record in the map. *)
Lemma sendControlRequest_begin_registers randHex request timeout
    (q q1 : queryHandler (T := T)) wt :
  sendControlRequest_begin Marshal randHex request timeout q = (q1, inr wt) →
  w_requestID wt = requestID (requestCounter q + 1) randHex ∧
  w_request wt = request ∧
  pendingRequests q1 !! w_requestID wt
    = Some {| done := false; result := None; err := None |}.
Proof.
  unfold sendControlRequest_begin. destruct (err_ q); [discriminate|].
  destruct (writeLine _ _ _).2; [discriminate|].
  intros [= <- <-]. simpl. by rewrite lookup_insert_eq.
Qed.

Lemma sendControlRequest_end_absent w wt (q q' : queryHandler (T := T)) r :
  sendControlRequest_end w wt q = Some (q', r) →
  pendingRequests q' !! w_requestID wt = None.
Proof.
  unfold sendControlRequest_end. destruct w; simpl.
  - destruct (pendingRequests q !! _) as [p|]; [|discriminate]. simpl.
    destruct (done p); [|discriminate]. intros [= <- _]. apply lookup_delete_eq.
  - intros [= <- _]. apply lookup_delete_eq.
  - intros [= <- _]. apply lookup_delete_eq.
Qed.
End Send.

(** C1, as stated, fails: a request issued after [close] (which stores no
    terminal error) gets past the pre-check, and its write fails on the
    closed transport; the call returns that write error, which is none of
    the five outcomes. *)
Lemma control_request_write_failure :
  interruptAfterClose =
    Some (closedHandlerAfterInterrupt,
          Handler.RetWrite
            (ErrCLIConnection "Transport is not ready for writing" None)) ∧
  ¬ outcome_as_specified interruptAfterClose
      (Handler.requestID 1 "0a1b2c3d").
Proof.
  assert (Hrun : interruptAfterClose =
    Some (closedHandlerAfterInterrupt,
          Handler.RetWrite
            (ErrCLIConnection "Transport is not ready for writing" None)))
    by (by vm_compute).
  split; [exact Hrun|].
  intros (q' & r & Hr & Ho & _). rewrite Hrun in Hr. injection Hr as <- <-.
  simpl in Ho. unfold specified_outcomes in Ho.
  repeat (apply elem_of_cons in Ho as [Ho|Ho]; [discriminate Ho|]).
  by apply elem_of_nil in Ho.
Qed.

(** C1, amended: a call of [sendControlRequest] returns in exactly one of
    six ways: the stored terminal error (pre-check), the error of the
    failed write of the request, the record's error (the agent's error
    string, or the terminal error the handler failed the record with), the
    success body, a timeout naming the subtype, or the caller's
    cancellation; it returns under every schedule except one that makes its
    select take [pending.done] while that channel is still open; and once
    it has got past the pre-check, the pending map has no entry under the
    request's id when it returns. *)
Theorem control_request_outcome
    {T : Type} `{!Transport T} (Marshal : value → string)
    (randHex : string) (acts : list Handler.action) (w : Handler.wake)
    (request : gmap string value) (timeout : float)
    (q : Handler.queryHandler (T := T)) :
  let rid := Handler.requestID (Handler.requestCounter q + 1) randHex in
  let begun := Handler.sendControlRequest_begin Marshal randHex request timeout q in
  match Handler.sendControlRequest Marshal randHex acts w request timeout q with
  | Some (q', r) =>
      match r with
      | Handler.RetTerminal e => Handler.readErr q = Some e ∧ q' = q
      | Handler.RetWrite e =>
          Handler.readErr q = None ∧ begun.2 = inl (Handler.RetWrite e)
      | Handler.RetPending e =>
          Handler.readErr q = None ∧ w = Handler.WakeDone ∧
          ∃ p, Handler.pendingRequests (Handler.performAll Marshal acts begun.1) !! rid
                 = Some p ∧ Handler.done p = true ∧ Handler.err p = Some e
      | Handler.RetResponse resp =>
          Handler.readErr q = None ∧ w = Handler.WakeDone ∧
          ∃ p, Handler.pendingRequests (Handler.performAll Marshal acts begun.1) !! rid
                 = Some p ∧ Handler.done p = true ∧ Handler.err p = None
      | Handler.RetTimeout e =>
          Handler.readErr q = None ∧ w = Handler.WakeTimer ∧
          e = ErrTimeout (assertString (index request "subtype"))
      | Handler.RetCtx e =>
          Handler.readErr q = None ∧ ∃ c, w = Handler.WakeCtx c ∧ e = ErrContext c
      end ∧
      (Handler.readErr q = None → Handler.pendingRequests q' !! rid = None)
  | None =>
      w = Handler.WakeDone ∧
      ∃ p, Handler.pendingRequests (Handler.performAll Marshal acts begun.1) !! rid
             = Some p ∧ Handler.done p = false
  end.
Proof.
  intros rid begun. unfold Handler.sendControlRequest. fold begun.
  destruct begun as [q1 [r|wt]] eqn:Hb.
  - (* returned before the select *)
    revert Hb. unfold begun, Handler.sendControlRequest_begin, Handler.err_.
    destruct (Handler.readErr q) as [e|] eqn:Hr.
    + intros [= <- <-]. split; [done|]. intros; discriminate.
    + destruct (Handler.writeLine _ _ _).2 as [e|] eqn:Hw; [|discriminate].
      intros [= <- <-]. split; [done|].
      intros _. apply lookup_delete_eq.
  - (* blocked in the select *)
    destruct (sendControlRequest_begin_registers Marshal _ _ _ _ _ _ Hb)
      as (Hid & Hreq & Hreg).
    assert (Hr : Handler.readErr q = None).
    { revert Hb. unfold begun, Handler.sendControlRequest_begin, Handler.err_.
      by destruct (Handler.readErr q). }
    fold rid in Hid.
    destruct (performAll_advances Marshal acts q1 _ _ Hreg) as (p & Hp & _).
    rewrite Hid in Hp. simpl.
    destruct (Handler.sendControlRequest_end w wt _) as [[q' r]|] eqn:He.
    + pose proof (sendControlRequest_end_absent _ _ _ _ _ He) as Habs.
      rewrite Hid in Habs. split; [|done].
      revert He. unfold Handler.sendControlRequest_end. rewrite Hid, Hreq.
      destruct w as [| |c]; simpl.
      * rewrite Hp. simpl. destruct (Handler.done p) eqn:Hd; [|discriminate].
        destruct (Handler.err p) as [e|] eqn:Herr; intros [= <- <-]; eauto 10.
      * intros [= <- <-]. done.
      * intros [= <- <-]. eauto.
    + revert He. unfold Handler.sendControlRequest_end. rewrite Hid.
      destruct w as [| |c]; simpl; try discriminate.
      rewrite Hp. simpl. destruct (Handler.done p) eqn:Hd; [discriminate|].
      eauto.
Qed.

(** ** End of input (query_handler.go, streamInput) *)


(** The latch is fired by the reader: a [result] message that arrives at an
    open handler closes [firstResultChan]. *)
Example first_result_fires_latch :
  Handler.firstResult (handler0 withHook) = false ∧
  Handler.firstResult
    (Handler.reader [Handler.EvMsg resultMsg Handler.SendDelivered]
       (handler0 withHook)) = true.
Proof. by vm_compute. Qed.

(** ** The facades (client.go, claude.go) *)

(** C10, as stated, fails for the one-shot facade: [Query] (a string
    prompt) with a callback is turned down by the earlier check, with the
    "requires streaming input" error, whatever [PermissionPromptToolName]
    is. *)
Lemma one_shot_prompt_rejected_earlier :
  Facade.s_result
    (Facade.runQuery marshalType parseFloatTable (inr goodPipe) "0a1b2c3d" ∅
       (Some "What is 2+2?") withCallbackAndPromptTool)
  = inl (ErrSDK
      "can_use_tool callback requires streaming input; use QueryStream instead of Query") ∧
  ¬ one_shot_rejects
      (Facade.runQuery marshalType parseFloatTable (inr goodPipe) "0a1b2c3d" ∅
         (Some "What is 2+2?") withCallbackAndPromptTool).
Proof.
  split; [reflexivity|]. intros [H _]. discriminate H.
Qed.

(** C10, amended: with a permission callback and a non-empty
    [PermissionPromptToolName], [Connect] returns, and [runQuery] on a
    streamed input sends, the "cannot be used with
    permission_prompt_tool_name" error without calling the transport's
    [Connect]; with the callback alone they call it with
    [PermissionPromptToolName] set to ["stdio"] and the other options
    unchanged; [runQuery] on a string prompt with a callback sends the
    "requires streaming input" error instead, in both cases, and launches
    nothing. *)
Theorem permission_callback_configuration
    (Marshal : value → string) (ParseFloat : string → option float)
    (spawn : error + pipe) (randHex : string) (env : gmap string string)
    (prompt : option string) (options : Facade.AgentOptions)
    (callback : Permission.CanUseToolFunc) :
  Facade.o_CanUseTool options = Some callback →
  let connect := Facade.Connect Marshal ParseFloat spawn randHex env options in
  let query := Facade.runQuery Marshal ParseFloat spawn randHex env prompt options in
  let rejected :=
    inl (ErrSDK "can_use_tool callback cannot be used with permission_prompt_tool_name") in
  let stdio := Some (Facade.set_PermissionPromptToolName "stdio" options) in
  (if decide (Facade.o_PermissionPromptToolName options = "") then
     Facade.s_connect connect = stdio
   else
     Facade.s_result connect = rejected ∧ Facade.s_connect connect = None) ∧
  match prompt with
  | Some _ =>
      Facade.s_result query = inl (ErrSDK
        "can_use_tool callback requires streaming input; use QueryStream instead of Query") ∧
      Facade.s_connect query = None
  | None =>
      if decide (Facade.o_PermissionPromptToolName options = "") then
        Facade.s_connect query = stdio
      else
        Facade.s_result query = rejected ∧ Facade.s_connect query = None
  end.
Proof.
  intros Hcb connect query rejected stdio.
  unfold connect, query, Facade.Connect, Facade.runQuery. rewrite Hcb.
  assert (Hl : ∀ env' o t,
    Facade.s_connect (Facade.launch Marshal ParseFloat spawn randHex env' o t) = Some o).
  { intros env' o t. unfold Facade.launch. by destruct spawn. }
  split.
  - case_decide; [apply Hl|done].
  - destruct prompt; [done|]. case_decide; [apply Hl|done].
Qed.

Lemma permission_callback_configuration_witness :
  Facade.o_CanUseTool withCallbackOnly = Some denyBash ∧
  Facade.s_connect
    (Facade.Connect marshalType parseFloatTable (inr goodPipe) "0a1b2c3d" ∅
       withCallbackOnly)
  = Some (Facade.set_PermissionPromptToolName "stdio" withCallbackOnly).
Proof.
  split; [reflexivity|].
  exact (proj1 (permission_callback_configuration marshalType parseFloatTable
                  (inr goodPipe) "0a1b2c3d" ∅ None withCallbackOnly denyBash eq_refl)).
Defined.

(** ** Close (query_handler.go, close; the transport's Close and EndInput) *)

Section Close.
Import Handler.
Context {T : Type} `{!Transport T}.
Hypothesis Close_idempotent : ∀ t : T, (Close (Close t).1).1 = (Close t).1.

Lemma readMessages_preserve (P : queryHandler (T := T) → Prop) evs q :
  (∀ ev q, P q → P (it_handler (readerIteration ev q))) →
  (∀ q, P q → P (readerExit q)) →
  P q → P (readMessages evs q).1.
Proof.
  intros Hit Hex. revert q. induction evs as [|ev evs IH]; intros q Hq; [done|].
  simpl. destruct (it_status _); simpl; auto.
Qed.

Lemma all_failed_failPending e (m : gmap string pendingRequest) :
  all_failed (failPending e <$> m).
Proof.
  intros rid p. rewrite lookup_fmap. destruct (m !! rid) as [p0|]; [|done].
  intros [= <-]. simpl. split; [done|]. destruct (err p0); eauto.
Qed.

Lemma failPending_all_failed e (m : gmap string pendingRequest) :
  all_failed m → failPending e <$> m = m.
Proof.
  intros Hm. apply map_eq. intros rid. rewrite lookup_fmap.
  destruct (m !! rid) as [p|] eqn:Hp; [|done]. simpl. f_equal.
  destruct (Hm rid p Hp) as [Hd [e0 He]]. destruct p as [d r o].
  simpl in *. subst. done.
Qed.

Lemma terminal_closed_state s e (q : queryHandler (T := T)) :
  closed (terminal s e q) = closed q ∧
  cancel (terminal s e q) = cancel q ∧
  transport (terminal s e q) = transport q.
Proof.
  destruct e as [e|]; [|done]. unfold terminal, setReadError.
  destruct (readErr q), s; done.
Qed.

Lemma terminal_all_failed s e (q : queryHandler (T := T)) :
  all_failed (pendingRequests q) → all_failed (pendingRequests (terminal s e q)).
Proof.
  intros Hq. destruct e as [e|]; [|done].
  assert (pendingRequests (terminal s (Some e) q)
          = failPending e <$> pendingRequests q) as ->.
  { unfold terminal, setReadError. destruct (readErr q), s; reflexivity. }
  apply all_failed_failPending.
Qed.

Lemma readerIteration_shut ev (q : queryHandler (T := T)) :
  shut q →
  shut (it_handler (readerIteration ev q)) ∧
  cancel (it_handler (readerIteration ev q)) = cancel q ∧
  transport (it_handler (readerIteration ev q)) = transport q.
Proof.
  intros [Hc Hf]. unfold readerIteration.
  destruct ev as [c| |[e|] s|s|msg s]; rewrite ?Hc; try done.
  - cbn [it_handler].
    destruct (terminal_closed_state s (Some e) q) as (H1 & H2 & H3).
    unfold shut. rewrite H1, H2, H3.
    split; [split; [done|by apply terminal_all_failed]|done].
  - cbn [it_handler]. destruct (LastError (transport q)) as [e|]; [|done].
    destruct (terminal_closed_state s (Some e) q) as (H1 & H2 & H3).
    unfold shut. rewrite H1, H2, H3.
    split; [split; [done|by apply terminal_all_failed]|done].
Qed.

Lemma readMessages_shut evs (q : queryHandler (T := T)) :
  shut q →
  shut (readMessages evs q).1 ∧
  cancel (readMessages evs q).1 = cancel q ∧
  transport (readMessages evs q).1 = transport q.
Proof.
  intros Hq.
  apply (readMessages_preserve
           (fun q' => shut q' ∧ cancel q' = cancel q ∧ transport q' = transport q));
    [| |done].
  - intros ev q' (Hs & Hc & Ht).
    destruct (readerIteration_shut ev q' Hs) as (Hs' & -> & ->). done.
  - intros q' (Hs & Hc & Ht). done.
Qed.

(** The reader returns once its select takes [<-ctx.Done()]. *)
Lemma readMessages_returns evs c (q : queryHandler (T := T)) :
  readerRunning (readMessages (evs ++ [EvCtxDone c]) q).1 = false ∧
  msgChanClosed (readMessages (evs ++ [EvCtxDone c]) q).1 = true.
Proof.
  revert q. induction evs as [|ev evs IH]; intros q; simpl.
  - by destruct (closed q).
  - destruct (it_status _); [apply IH|done].
Qed.
Lemma close_state evs (q : queryHandler (T := T)) :
  shut (close evs q) ∧
  readerRunning (close evs q) = false ∧
  cancel (close evs q) = (fun _ => true) <$> cancel q ∧
  transport (close evs q) = (Close (transport q)).1.
Proof.
  unfold close.
  set (qc := set_cancel _ (failPendingRequests _ (set_closed true q))).
  assert (Hs : shut qc) by (split; [done|apply all_failed_failPending]).
  assert (Hr : readerRunning qc = readerRunning q) by done.
  unfold reader. rewrite Hr. destruct (readerRunning q) eqn:Hrun.
  - destruct (readMessages_shut (evs ++ [EvCtxDone (Some Canceled)]) qc Hs)
      as (Hs' & Hc' & Ht').
    destruct (readMessages_returns evs (Some Canceled) qc) as [Hrr _].
    split; [exact Hs'|]. split; [exact Hrr|]. split.
    + cbn [cancel set_transport]. by rewrite Hc'.
    + cbn [transport set_transport]. by rewrite Ht'.
  - split; [exact Hs|]. split; [by rewrite <- Hr in Hrun|]. done.
Qed.

Lemma option_always_idempotent (c : option bool) :
  (fun _ => true) <$> ((fun _ : bool => true) <$> c) = (fun _ => true) <$> c.
Proof. by destruct c. Qed.

(** [close] changes nothing in a handler that was closed. *)
Lemma close_fixed evs (q : queryHandler (T := T)) c t :
  shut q → readerRunning q = false →
  cancel q = (fun _ : bool => true) <$> c → transport q = (Close t).1 →
  close evs q = q.
Proof.
  intros [Hc Hf] Hr Hcan Htr. unfold close, reader.
  cbn [readerRunning set_cancel failPendingRequests set_pendingRequests set_closed].
  rewrite Hr. destruct q as [tr cu ho sd ag pe hc nc rc mc mcc ca rr cl fr sct it ir re].
  simpl in *. subst. unfold set_transport. simpl.
  rewrite failPending_all_failed by done.
  by rewrite option_always_idempotent, Close_idempotent.
Qed.

Lemma close_twice evs1 evs2 (q : queryHandler (T := T)) :
  close evs2 (close evs1 q) = close evs1 q.
Proof.
  destruct (close_state evs1 q) as (Hs & Hr & Hc & Ht).
  by eapply close_fixed.
Qed.
End Close.

Lemma sp_Close_idempotent (t : subprocessTransport) :
  (Close (Close t).1).1 = (Close t).1.
Proof.
  destruct t as [i r c p e ci n]. simpl. unfold sp_Close. simpl.
  by destruct c, p.
Qed.

(** C8: a second [close] of the handler leaves the handler and its
    subprocess transport exactly as the first one left them, whatever the
    reader did while each [close] waited for it; and [EndInput] after
    [Close] or after an earlier [EndInput] returns nil and changes no field
    of the transport, so the child's stdin is closed by the first call
    only. *)
Theorem close_and_end_input_idempotent
    (evs1 evs2 : list Handler.readerEvent)
    (q : Handler.queryHandler (T := subprocessTransport))
    (t : subprocessTransport) :
  Handler.close evs2 (Handler.close evs1 q) = Handler.close evs1 q ∧
  EndInput (Close t).1 = ((Close t).1, None) ∧
  EndInput (EndInput t).1 = ((EndInput t).1, None) ∧
  stdinCloses (EndInput (EndInput t).1).1 =
    match stdin t with
    | Some _ => S (stdinCloses t)
    | None => stdinCloses t
    end.
Proof.
  split; [apply close_twice, sp_Close_idempotent|].
  destruct t as [[i|] r c p e ci n]; done.
Qed.

(** The two closes on a handler with a request in flight. *)
Example close_twice_example :
  Handler.pendingRequests (Handler.close [] busyHandler)
    = {[ "req_1_0a1b2c3d" :=
           {| Handler.done := true; Handler.result := None;
              Handler.err := Some ErrHandlerClosed |} ]} ∧
  stdinCloses (Handler.transport (Handler.close [] (Handler.close [] busyHandler))) = 1.
Proof. by vm_compute. Qed.


(** * Further properties of the code *)

Import Extra.

(** ** The terminal error cell and the pending map *)

Section ExtraHandler.
Import Handler.
Context {T : Type} `{!Transport T}.
Variable Marshal : value → string.

Lemma reader_readErr evs e (q : queryHandler (T := T)) :
  readErr q = Some e → readErr (reader evs q) = Some e.
Proof.
  intros Hq. unfold reader. destruct (readerRunning q); [|done].
  by apply readMessages_readErr.
Qed.

Lemma handleControlRequest_readErr msg (q : queryHandler (T := T)) :
  readErr (handleControlRequest Marshal msg q) = readErr q.
Proof.
  unfold handleControlRequest. destruct (assertMap _); [|done]. by case_decide.
Qed.

Lemma close_readErr evs e (q : queryHandler (T := T)) :
  readErr q = Some e → readErr (close evs q) = Some e.
Proof.
  intros Hq. unfold close.
  change (readErr (set_transport ?t ?x)) with (readErr x).
  by apply reader_readErr.
Qed.

Lemma perform_readErr a e (q : queryHandler (T := T)) :
  readErr q = Some e → readErr (perform Marshal a q) = Some e.
Proof.
  intros Hq. destruct a; simpl.
  - by apply reader_readErr.
  - by rewrite handleControlRequest_readErr.
  - by apply close_readErr.
Qed.
End ExtraHandler.

(** X1: the terminal error is write-once.  Once a terminal error is stored,
    no step of the reader, no dispatcher and no [close] replaces or clears
    it. *)
Theorem terminal_error_write_once
    {T : Type} `{!Transport T} (Marshal : value → string)
    (acts : list Handler.action) (e : error)
    (q : Handler.queryHandler (T := T)) :
  Handler.readErr q = Some e →
  Handler.readErr (Handler.performAll Marshal acts q) = Some e.
Proof.
  unfold Handler.performAll. revert q.
  induction acts as [|a acts IH]; intros q Hq; [done|].
  simpl. apply IH. by apply perform_readErr.
Qed.

Lemma terminal_error_write_once_witness :
  Handler.readErr erroredHandler = Some boom ∧
  Handler.readErr (Handler.performAll marshalType laterActions erroredHandler)
    = Some boom.
Proof.
  split; [reflexivity|].
  exact (terminal_error_write_once marshalType laterActions boom
           erroredHandler eq_refl).
Defined.

(** X2: a pending record is removed by nobody but its own sender: whatever
    the reader, the dispatchers and [close] do, a registered record is still
    in the map, and if its [done] channel was closed it still is. *)
Theorem pending_record_kept
    {T : Type} `{!Transport T} (Marshal : value → string)
    (acts : list Handler.action) (rid : string) (p : Handler.pendingRequest)
    (q : Handler.queryHandler (T := T)) :
  Handler.pendingRequests q !! rid = Some p →
  ∃ p', Handler.pendingRequests (Handler.performAll Marshal acts q) !! rid = Some p' ∧
        (Handler.done p = true → Handler.done p' = true).
Proof. intros Hp. by apply performAll_advances. Qed.

Lemma pending_record_kept_witness :
  Handler.pendingRequests busyHandler !! "req_1_0a1b2c3d"
    = Some {| Handler.done := false; Handler.result := None; Handler.err := None |} ∧
  ∃ p', Handler.pendingRequests
          (Handler.performAll marshalType
             [Handler.ARead [Handler.EvMsg strayResponse Handler.SendDelivered];
              Handler.AClose []] busyHandler) !! "req_1_0a1b2c3d" = Some p' ∧
        (false = true → Handler.done p' = true).
Proof.
  assert (H : Handler.pendingRequests busyHandler !! "req_1_0a1b2c3d"
    = Some {| Handler.done := false; Handler.result := None; Handler.err := None |})
    by (by vm_compute).
  split; [exact H|].
  exact (pending_record_kept marshalType _ _ _ _ H).
Defined.

(** ** Matching control responses to pending requests *)

Section ExtraResponses.
Import Handler.
Context {T : Type} `{!Transport T}.
Variable Marshal : value → string.

Lemma responseFor_type rid response :
  assertString (index (responseFor rid response) "type") = "control_response".
Proof. unfold responseFor, index. by rewrite lookup_insert_eq. Qed.

Lemma responseFor_response rid response :
  assertMap (index (responseFor rid response) "response")
    = Some (<["request_id" := VStr rid]> response).
Proof.
  unfold responseFor, index.
  rewrite lookup_insert_ne by done. by rewrite lookup_singleton_eq.
Qed.

Lemma requestID_nonempty counter randHex : requestID counter randHex ≠ "".
Proof. unfold requestID. simpl. discriminate. Qed.

(** What the reader does with the response for a pending request. *)
Lemma onControlResponse_completes rid response p (q : queryHandler (T := T)) :
  rid ≠ "" → pendingRequests q !! rid = Some p →
  onControlResponse (responseFor rid response) q =
    set_pendingRequests
      (<[rid := completePending (<["request_id" := VStr rid]> response) p]>
         (pendingRequests q)) q.
Proof.
  intros Hne Hp. unfold onControlResponse.
  rewrite responseFor_response.
  assert (Hidx : index (<["request_id" := VStr rid]> response) "request_id"
                 = VStr rid).
  { unfold index. by rewrite (lookup_insert_eq response "request_id"). }
  rewrite Hidx. simpl. case_decide; [done|]. by rewrite Hp.
Qed.

Lemma readerIteration_response rid response s (q : queryHandler (T := T)) :
  closed q = false →
  readerIteration (EvMsg (responseFor rid response) s) q =
    {| it_handler := onControlResponse (responseFor rid response) q;
       it_status := Continue; it_spawn := None |}.
Proof.
  intros Hc. unfold readerIteration. rewrite Hc, responseFor_type.
  by case_decide.
Qed.

Lemma sendControlRequest_begin_stream randHex request timeout
    (q q1 : queryHandler (T := T)) wt :
  sendControlRequest_begin Marshal randHex request timeout q = (q1, inr wt) →
  closed q1 = closed q ∧ readerRunning q1 = readerRunning q ∧
  readErr q1 = None ∧ readErr q = None.
Proof.
  unfold sendControlRequest_begin, err_.
  destruct (readErr q) eqn:Hr; [discriminate|].
  destruct (writeLine _ _ _).2; [discriminate|].
  intros [= <- <-]. done.
Qed.

End ExtraResponses.



(** X4: a [control_response] that matches no pending request (a late reply
    to a request that timed out or was cancelled, an unknown id, a missing
    id or response object) is dropped: the reader goes on with the handler
    unchanged, delivers nothing and starts no dispatcher. *)
Theorem unmatched_control_response_dropped
    {T : Type} `{!Transport T} (msg : gmap string value)
    (s : Handler.selectSend) (q : Handler.queryHandler (T := T)) :
  Handler.closed q = false →
  msg !! "type" = Some (VStr "control_response") →
  unmatched q msg →
  Handler.readerIteration (Handler.EvMsg msg s) q =
    {| Handler.it_handler := q; Handler.it_status := Handler.Continue;
       Handler.it_spawn := None |}.
Proof.
  intros Hc Ht Hu. unfold Handler.readerIteration. rewrite Hc.
  assert (Hty : assertString (index msg "type") = "control_response")
    by (unfold index; by rewrite Ht).
  rewrite Hty. case_decide; [|done].
  f_equal. unfold Handler.onControlResponse, unmatched, index in *.
  destruct (msg !! "response") as [[| | | | | |response]|]; try done. simpl.
  destruct (response !! "request_id") as [[| | | |rid| |]|]; try done. simpl.
  case_decide; [done|]. destruct Hu as [Hu|Hu]; [done|]. by rewrite Hu.
Qed.

Lemma unmatched_control_response_dropped_witness :
  Handler.closed (handler0 emptyOptions) = false ∧
  strayResponse !! "type" = Some (VStr "control_response") ∧
  unmatched (handler0 emptyOptions) strayResponse ∧
  Handler.readerIteration (Handler.EvMsg strayResponse Handler.SendDelivered)
    (handler0 emptyOptions) =
    {| Handler.it_handler := handler0 emptyOptions;
       Handler.it_status := Handler.Continue; Handler.it_spawn := None |}.
Proof.
  assert (Ht : strayResponse !! "type" = Some (VStr "control_response"))
    by (by vm_compute).
  assert (Hu : unmatched (handler0 emptyOptions) strayResponse)
    by (vm_compute; by right).
  split; [reflexivity|]. split; [exact Ht|]. split; [exact Hu|].
  exact (unmatched_control_response_dropped strayResponse Handler.SendDelivered
           (handler0 emptyOptions) eq_refl Ht Hu).
Defined.

(** X5: a success response that the sender has not picked up yet does not
    protect the request: if the reader observes a transport error right
    after the response, the record is failed as well, and the sender, woken
    by [done], returns the transport error instead of the response. *)
Theorem terminal_error_overrides_unread_success
    {T : Type} `{!Transport T} (Marshal : value → string)
    (randHex : string) (request response : gmap string value) (timeout : float)
    (s1 s2 : Handler.selectSend) (e : error)
    (q q1 : Handler.queryHandler (T := T)) (wt : Handler.waiter) :
  Handler.closed q = false → Handler.readerRunning q = true →
  Handler.sendControlRequest_begin Marshal randHex request timeout q = (q1, inr wt) →
  assertString (index response "subtype") ≠ "error" →
  ∃ q',
    Handler.sendControlRequest Marshal randHex
      [Handler.ARead
         [Handler.EvMsg (responseFor (Handler.w_requestID wt) response) s1;
          Handler.EvErr (Some e) s2]]
      Handler.WakeDone request timeout q
    = Some (q', Handler.RetPending e).
Proof.
  intros Hc Hrun Hb Hsub. unfold Handler.sendControlRequest. rewrite Hb.
  destruct (sendControlRequest_begin_registers Marshal _ _ _ _ _ _ Hb)
    as (Hid & _ & Hreg).
  destruct (sendControlRequest_begin_stream Marshal _ _ _ _ _ _ Hb)
    as (Hc1 & Hr1 & He1 & _).
  rewrite Hc in Hc1. rewrite Hrun in Hr1.
  assert (Hne : Handler.w_requestID wt ≠ "")
    by (rewrite Hid; apply requestID_nonempty).
  unfold Handler.performAll. simpl. unfold Handler.reader. rewrite Hr1.
  cbn [Handler.readMessages]. rewrite readerIteration_response by done.
  cbn [Handler.it_status Handler.it_handler fst].
  rewrite (onControlResponse_completes _ _ _ _ Hne Hreg).
  cbn [Handler.readerIteration Handler.it_status Handler.it_handler fst].
  unfold Handler.sendControlRequest_end, Handler.terminal, Handler.setReadError.
  cbn [Handler.readErr Handler.set_pendingRequests]. rewrite He1.
  destruct s2; simpl; rewrite lookup_fmap, lookup_insert_eq; simpl;
    unfold Handler.completePending; rewrite !decide_False;
    try (unfold index; by rewrite lookup_insert_ne); simpl; eauto.
Qed.

Lemma terminal_error_overrides_unread_success_witness :
  ∃ q',
    Handler.sendControlRequest marshalType "0a1b2c3d"
      [Handler.ARead
         [Handler.EvMsg (responseFor "req_1_0a1b2c3d" successBody)
            Handler.SendDelivered;
          Handler.EvErr (Some boom) Handler.SendDelivered]]
      Handler.WakeDone Handler.interruptRequest.1 Handler.interruptRequest.2
      (handler0 emptyOptions)
    = Some (q', Handler.RetPending boom).
Proof.
  destruct (Handler.sendControlRequest_begin marshalType "0a1b2c3d"
              Handler.interruptRequest.1 Handler.interruptRequest.2
              (handler0 emptyOptions)) as [q1 [r|wt]] eqn:Hb;
    [by vm_compute in Hb|].
  assert (Hid : Handler.w_requestID wt = "req_1_0a1b2c3d").
  { vm_compute in Hb. by injection Hb as <- <-. }
  assert (Hsub : assertString (index successBody "subtype") ≠ "error")
    by (by vm_compute).
  destruct (terminal_error_overrides_unread_success marshalType "0a1b2c3d"
              Handler.interruptRequest.1 successBody Handler.interruptRequest.2
              Handler.SendDelivered Handler.SendDelivered boom
              (handler0 emptyOptions) q1 wt eq_refl eq_refl Hb Hsub) as [q' Hq'].
  rewrite Hid in Hq'. exists q'. exact Hq'.
Defined.

(** ** The message channel *)

Section ExtraChannel.
Import Handler.
Context {T : Type} `{!Transport T}.
Variable Marshal : value → string.

Lemma terminal_channel s e (q : queryHandler (T := T)) :
  msgChanClosed (terminal s e q) = msgChanClosed q ∧
  readerRunning (terminal s e q) = readerRunning q.
Proof.
  destruct e as [e|]; [|done]. unfold terminal, setReadError.
  destruct (readErr q), s; done.
Qed.

Lemma onControlResponse_channel msg (q : queryHandler (T := T)) :
  msgChanClosed (onControlResponse msg q) = msgChanClosed q ∧
  readerRunning (onControlResponse msg q) = readerRunning q.
Proof.
  unfold onControlResponse. destruct (assertMap _); [|done].
  case_decide; [done|]. by destruct (pendingRequests q !! _).
Qed.

Local Opaque terminal onControlResponse.

Lemma readerIteration_channel ev (q : queryHandler (T := T)) :
  msgChanClosed (it_handler (readerIteration ev q)) = msgChanClosed q ∧
  readerRunning (it_handler (readerIteration ev q)) = readerRunning q.
Proof.
  destruct ev as [c| |[e|] s|s|msg s]; simpl; try done.
  - destruct (closed q); [done|]. apply (terminal_channel SendDelivered (Some _)).
  - apply (terminal_channel s (Some e)).
  - destruct (LastError _); [apply (terminal_channel s (Some _))|done].
  - destruct (closed q); [done|].
    repeat case_decide; simpl; try done; try apply onControlResponse_channel;
      by destruct s.
Qed.

(** While it runs the reader keeps the channel open; when it returns it has
    closed it. *)
Lemma readMessages_channel evs (q : queryHandler (T := T)) :
  readerRunning q = true → msgChanClosed q = false →
  (readerRunning (readMessages evs q).1 = true ∧
   msgChanClosed (readMessages evs q).1 = false) ∨
  (readerRunning (readMessages evs q).1 = false ∧
   msgChanClosed (readMessages evs q).1 = true).
Proof.
  revert q. induction evs as [|ev evs IH]; intros q Hr Hc; [by left|].
  simpl. destruct (readerIteration_channel ev q) as [Hc' Hr'].
  destruct (it_status _); simpl.
  - apply IH; congruence.
  - by right.
Qed.

Lemma reader_discipline evs (q : queryHandler (T := T)) :
  channel_discipline q → channel_discipline (reader evs q).
Proof.
  intros Hd. unfold reader. destruct (readerRunning q) eqn:Hr; [|done].
  destruct (msgChanClosed q) eqn:Hc; [by rewrite Hd in Hr|].
  intros Hcl.
  destruct (readMessages_channel evs q Hr Hc) as [[_ H1]|[H1 _]]; congruence.
Qed.

Lemma handleControlRequest_channel msg (q : queryHandler (T := T)) :
  msgChan (handleControlRequest Marshal msg q) = msgChan q ∧
  msgChanClosed (handleControlRequest Marshal msg q) = msgChanClosed q ∧
  readerRunning (handleControlRequest Marshal msg q) = readerRunning q.
Proof.
  unfold handleControlRequest. destruct (assertMap _); [|done]. by case_decide.
Qed.

Lemma perform_discipline a (q : queryHandler (T := T)) :
  channel_discipline q → channel_discipline (perform Marshal a q).
Proof.
  intros Hd. destruct a as [evs|msg|evs]; simpl.
  - by apply reader_discipline.
  - destruct (handleControlRequest_channel msg q) as (_ & Hc & Hr).
    unfold channel_discipline. rewrite Hc, Hr. exact Hd.
  - unfold close.
    set (qc := set_cancel _ (failPendingRequests _ (set_closed true q))).
    assert (Hqc : channel_discipline qc) by exact Hd.
    apply (reader_discipline (evs ++ [EvCtxDone (Some Canceled)])) in Hqc.
    exact Hqc.
Qed.

(** With the reader gone, nothing touches the channel. *)
Lemma perform_stopped a (q : queryHandler (T := T)) :
  readerRunning q = false →
  msgChan (perform Marshal a q) = msgChan q ∧
  msgChanClosed (perform Marshal a q) = msgChanClosed q ∧
  readerRunning (perform Marshal a q) = false.
Proof.
  intros Hr. destruct a as [evs|msg|evs]; simpl.
  - unfold reader. by rewrite Hr.
  - destruct (handleControlRequest_channel msg q) as (-> & -> & ->). done.
  - unfold close, reader.
    cbn [readerRunning set_cancel failPendingRequests set_pendingRequests set_closed].
    by rewrite Hr.
Qed.
End ExtraChannel.

(** X6: nothing is ever sent on the closed message channel.  The reader is
    the only sender and closes the channel as it returns: for a handler in
    which a closed channel means a returned reader (as in every handler
    made by [newQueryHandler] and [start]), this stays so under all actions,
    and once the channel is closed its content never changes again. *)
Theorem no_send_on_closed_channel
    {T : Type} `{!Transport T} (Marshal : value → string)
    (acts : list Handler.action) (q : Handler.queryHandler (T := T)) :
  channel_discipline q →
  channel_discipline (Handler.performAll Marshal acts q) ∧
  (Handler.msgChanClosed q = true →
   Handler.msgChan (Handler.performAll Marshal acts q) = Handler.msgChan q ∧
   Handler.msgChanClosed (Handler.performAll Marshal acts q) = true).
Proof.
  intros Hd. split.
  - unfold Handler.performAll. revert q Hd.
    induction acts as [|a acts IH]; intros q Hd; [done|].
    simpl. apply IH. by apply perform_discipline.
  - intros Hc. pose proof (Hd Hc) as Hr. clear Hd.
    unfold Handler.performAll. revert q Hc Hr.
    induction acts as [|a acts IH]; intros q Hc Hr; [done|].
    simpl. destruct (perform_stopped Marshal a q Hr) as (Hm & Hcl & Hr').
    rewrite <- Hm. apply IH; congruence.
Qed.

Lemma no_send_on_closed_channel_witness :
  channel_discipline erroredHandler ∧
  Handler.msgChanClosed erroredHandler = true ∧
  Handler.msgChan (Handler.performAll marshalType
                     (Handler.ARead arrivals :: laterActions) erroredHandler)
    = [Handler.errorMessage boom].
Proof.
  assert (Hd : channel_discipline erroredHandler) by (intros _; reflexivity).
  split; [exact Hd|]. split; [reflexivity|].
  destruct (proj2 (no_send_on_closed_channel marshalType
                     (Handler.ARead arrivals :: laterActions) erroredHandler Hd)
              eq_refl) as [-> _].
  reflexivity.
Defined.

(** ** What the reader hands on *)

Section ExtraReaderOutputs.
Import Handler.
Context {T : Type} `{!Transport T}.

Lemma is_control_request_type (msg : gmap string value) :
  is_control_request msg
    = bool_decide (assertString (index msg "type") = "control_request").
Proof.
  unfold is_control_request, index.
  destruct (msg !! "type") as [[]|]; simpl; try done.
Qed.

Lemma is_result_type (msg : gmap string value) :
  is_result msg = bool_decide (assertString (index msg "type") = "result").
Proof.
  unfold is_result, index.
  destruct (msg !! "type") as [[]|]; simpl; try done.
Qed.

Lemma onControlResponse_latch msg (q : queryHandler (T := T)) :
  firstResult (onControlResponse msg q) = firstResult q.
Proof.
  unfold onControlResponse. destruct (assertMap _); [|done].
  case_decide; [done|]. by destruct (pendingRequests q !! _).
Qed.

Lemma readerIteration_outputs ev (q : queryHandler (T := T)) :
  undisturbed ev → closed q = false →
  option_list (it_spawn (readerIteration ev q))
    = List.filter is_control_request (option_list (arrival ev)) ∧
  firstResult (it_handler (readerIteration ev q))
    = firstResult q || existsb is_result (option_list (arrival ev)).
Proof.
  intros Hev Hc. destruct ev as [c| |[e|] s|s|msg [|]]; try done.
  - simpl. by rewrite orb_false_r.
  - simpl. by rewrite orb_false_r.
  - unfold readerIteration. rewrite Hc.
    cbn [arrival]. change (option_list (Some msg)) with [msg].
    cbn [List.filter existsb].
    rewrite is_control_request_type, is_result_type, orb_false_r.
    pose proof (onControlResponse_latch msg q) as Hl.
    generalize (assertString (index msg "type")). intros t.
    repeat case_decide; subst; simpl; rewrite ?Hl, ?orb_false_r, ?orb_true_r;
      try done;
      repeat match goal with
             | |- context [bool_decide ?P] =>
                 first [rewrite (bool_decide_eq_true_2 P) by done
                       |rewrite (bool_decide_eq_false_2 P) by done]
             end; rewrite ?orb_false_r, ?orb_true_r; done.
Qed.
End ExtraReaderOutputs.

(** X7: while nothing terminal happens, the reader starts one dispatcher
    for every arriving [control_request], in arrival order, and for nothing
    else. *)
Theorem dispatchers_in_arrival_order
    {T : Type} `{!Transport T} (evs : list Handler.readerEvent)
    (q : Handler.queryHandler (T := T)) :
  Forall undisturbed evs → Handler.closed q = false →
  (Handler.readMessages evs q).2
    = List.filter is_control_request (omap arrival evs).
Proof.
  intros Hevs. revert q. induction Hevs as [|ev evs Hev _ IH]; intros q Hc; [done|].
  simpl. destruct (readerIteration_undisturbed ev q Hev Hc) as (-> & Hc' & _).
  destruct (readerIteration_outputs ev q Hev Hc) as [-> _].
  simpl. rewrite (IH _ Hc').
  destruct ev as [| | | |msg s]; simpl; try done.
  by destruct (is_control_request msg).
Qed.

Lemma dispatchers_in_arrival_order_witness :
  Forall undisturbed arrivals ∧
  Handler.closed (handler0 emptyOptions) = false ∧
  (Handler.readMessages arrivals (handler0 emptyOptions)).2 = [requestWithoutBody].
Proof.
  assert (H1 : Forall undisturbed arrivals) by (repeat constructor).
  split; [exact H1|]. split; [reflexivity|].
  rewrite (dispatchers_in_arrival_order arrivals (handler0 emptyOptions) H1 eq_refl).
  by vm_compute.
Defined.

(** X8: the first-result latch.  While nothing terminal happens the latch
    is fired after the reader's iterations exactly when it was fired before
    or an envelope of type [result] arrived; it is never reset. *)
Theorem first_result_latch
    {T : Type} `{!Transport T} (evs : list Handler.readerEvent)
    (q : Handler.queryHandler (T := T)) :
  Forall undisturbed evs → Handler.closed q = false →
  Handler.firstResult (Handler.readMessages evs q).1
    = Handler.firstResult q || existsb is_result (omap arrival evs).
Proof.
  intros Hevs. revert q.
  induction Hevs as [|ev evs Hev _ IH]; intros q Hc; [by rewrite orb_false_r|].
  simpl. destruct (readerIteration_undisturbed ev q Hev Hc) as (-> & Hc' & _).
  destruct (readerIteration_outputs ev q Hev Hc) as [_ Hf].
  simpl. rewrite (IH _ Hc'), Hf, <- orb_assoc. f_equal.
  destruct ev as [| | | |msg s]; simpl; try done.
  by rewrite orb_false_r.
Qed.

Lemma first_result_latch_witness :
  Forall undisturbed arrivals ∧
  Handler.closed (handler0 emptyOptions) = false ∧
  Handler.firstResult (Handler.readMessages arrivals (handler0 emptyOptions)).1
    = true.
Proof.
  assert (H1 : Forall undisturbed arrivals) by (repeat constructor).
  split; [exact H1|]. split; [reflexivity|].
  rewrite (first_result_latch arrivals (handler0 emptyOptions) H1 eq_refl).
  by vm_compute.
Defined.

(** ** Requests on a closed handler; answers to inbound requests *)

Lemma sp_Write_not_ready data (t : subprocessTransport) :
  ready t = false →
  Write data t = (t, Some (ErrCLIConnection "Transport is not ready for writing" None)).
Proof. intros Hr. simpl. unfold sp_Write. by rewrite Hr. Qed.

(** X9: a closed handler rejects every new request, and writes nothing to
    the child.  On the subprocess transport a control request issued after
    [close] returns at once: the stored terminal error if the reader had
    stored one, and otherwise the transport's "not ready" write error
    ([close] itself stores no terminal error). *)
Theorem closed_handler_rejects_requests
    (Marshal : value → string) (evs : list Handler.readerEvent)
    (randHex : string) (acts : list Handler.action) (w : Handler.wake)
    (request : gmap string value) (timeout : float)
    (q : Handler.queryHandler (T := subprocessTransport)) :
  ∃ q' r,
    Handler.sendControlRequest Marshal randHex acts w request timeout
      (Handler.close evs q) = Some (q', r) ∧
    childInput (Handler.transport q') = childInput (Handler.transport q) ∧
    match Handler.readErr (Handler.close evs q) with
    | Some e => r = Handler.RetTerminal e
    | None =>
        r = Handler.RetWrite
              (ErrCLIConnection "Transport is not ready for writing" None)
    end.
Proof.
  destruct (close_state evs q) as (_ & _ & _ & Ht).
  unfold Handler.sendControlRequest, Handler.sendControlRequest_begin, Handler.err_.
  destruct (Handler.readErr (Handler.close evs q)) as [e|] eqn:Hr.
  - eexists _, _. split; [done|]. rewrite Ht. by destruct (Handler.transport q).
  - unfold Handler.writeLine.
    cbn [Handler.transport Handler.set_pendingRequests Handler.set_requestCounter].
    rewrite Ht, sp_Write_not_ready by done.
    cbn [fst snd]. eexists _, _. split; [done|]. split; [|done].
    simpl. by destruct (Handler.transport q).
Qed.

Section ExtraAnswers.
Import Handler.
Context {T : Type} `{!Transport T}.
Variable Marshal : value → string.

Lemma controlResponse_shape id (r : gmap string value + error) :
  ∃ body, controlResponse id r
          = {[ "type" := VStr "control_response"; "response" := VMap body ]} ∧
    body !! "request_id" = Some (VStr id) ∧
    match r with
    | inl data =>
        body !! "subtype" = Some (VStr "success") ∧
        body !! "response" = Some (VMap data) ∧ body !! "error" = None
    | inr e =>
        body !! "subtype" = Some (VStr "error") ∧
        body !! "error" = Some (VStr (Error e)) ∧ body !! "response" = None
    end.
Proof.
  destruct r as [data|e]; simpl; eexists; (split; [done|]); by simplify_map_eq.
Qed.
End ExtraAnswers.

(** X10: every well-formed inbound control request is answered exactly
    once.  The dispatcher makes one [Write] and no other call: the line is
    a [control_response] envelope that carries the request's id, with
    subtype [success] and the dispatcher's output under ["response"], or
    subtype [error] and the text of its error under ["error"]. *)
Theorem control_request_answered_once
    {T : Type} `{!Transport T} (Marshal : value → string)
    (msg request : gmap string value) (id : string)
    (q : Handler.queryHandler (T := logged T)) :
  msg !! "request" = Some (VMap request) →
  msg !! "request_id" = Some (VStr id) → id ≠ "" →
  ∃ body,
    calls (Handler.transport (Handler.handleControlRequest Marshal msg q)) =
      calls (Handler.transport q) ++
        [CallWrite (Marshal (VMap {[ "type" := VStr "control_response";
                                     "response" := VMap body ]}) +:+ newline)] ∧
    body !! "request_id" = Some (VStr id) ∧
    match Handler.dispatch (assertString (index request "subtype")) request q with
    | inl data =>
        body !! "subtype" = Some (VStr "success") ∧
        body !! "response" = Some (VMap data) ∧ body !! "error" = None
    | inr e =>
        body !! "subtype" = Some (VStr "error") ∧
        body !! "error" = Some (VStr (Error e)) ∧ body !! "response" = None
    end.
Proof.
  intros Hr Hi Hne.
  destruct (controlResponse_shape id
              (Handler.dispatch (assertString (index request "subtype")) request q))
    as (body & Hb & Hid & Hs).
  exists body. split; [|done].
  rewrite (handleControlRequest_answers Marshal msg request id) by done.
  by rewrite Hb.
Qed.

Lemma control_request_answered_once_witness :
  requestUnknownSubtype !! "request" = Some (VMap {[ "subtype" := VStr "frobnicate" ]}) ∧
  ∃ body,
    calls (Handler.transport
             (Handler.handleControlRequest marshalType requestUnknownSubtype
                (handler0 emptyOptions))) =
      [CallWrite (marshalType (VMap {[ "type" := VStr "control_response";
                                       "response" := VMap body ]}) +:+ newline)] ∧
    body !! "request_id" = Some (VStr "p1").
Proof.
  assert (Hr : requestUnknownSubtype !! "request"
               = Some (VMap {[ "subtype" := VStr "frobnicate" ]})) by (by vm_compute).
  assert (Hi : requestUnknownSubtype !! "request_id" = Some (VStr "p1"))
    by (by vm_compute).
  split; [exact Hr|].
  destruct (control_request_answered_once marshalType requestUnknownSubtype
              _ "p1" (handler0 emptyOptions) Hr Hi ltac:(done))
    as (body & Hc & Hid & _).
  exists body. split; [exact Hc|exact Hid].
Defined.

(** ** The tool server and its routing *)

Section ExtraMcp.
Import Mcp.

Lemma HandleRequest_envelope s message : envelope (HandleRequest s message).
Proof.
  unfold HandleRequest.
  generalize (assertString (index message "method")). intros method.
  repeat case_decide.
  - unfold HandleInitialize. eapply envelope_result; by simplify_map_eq.
  - unfold HandleListTools. eapply envelope_result; by simplify_map_eq.
  - apply HandleCallTool_shape.
  - eapply envelope_result; by simplify_map_eq.
  - eapply envelope_error; by simplify_map_eq.
Qed.

Lemma toolMap_foldl (n : string) (tools : list SdkMcpTool) (m : gmap string SdkMcpTool) :
  foldl (fun m t => <[tool_Name t := t]> m) m tools !! n =
    match last (filter (λ t, tool_Name t = n) tools) with
    | Some t => Some t
    | None => m !! n
    end.
Proof.
  induction tools as [|t tools IH] using rev_ind; [done|].
  rewrite foldl_app, filter_app. cbn [foldl].
  destruct (decide (tool_Name t = n)) as [Hn|Hn].
  - rewrite (filter_cons_True _ t []) by done.
    rewrite filter_nil, last_snoc. by rewrite Hn, lookup_insert_eq.
  - rewrite (filter_cons_False _ t []) by done.
    rewrite filter_nil, app_nil_r, lookup_insert_ne by done. apply IH.
Qed.
End ExtraMcp.

(** X11: routing of an [mcp_message] control request.  With a non-empty
    server name and a message object the dispatcher never fails: it
    answers with one JSON-RPC envelope under ["mcp_response"].  For a name
    no in-process server is registered under, that is the error -32601
    "Server '<name>' not found" with the message's id echoed; otherwise it
    is what the named server's [HandleRequest] returns. *)
Theorem mcp_message_routing
    {T : Type} `{!Transport T} (request message : gmap string value)
    (name : string) (q : Handler.queryHandler (T := T)) :
  request !! "server_name" = Some (VStr name) → name ≠ "" →
  request !! "message" = Some (VMap message) →
  ∃ r, Handler.handleMcpMessage request q = inl {[ "mcp_response" := VMap r ]} ∧
       Mcp.envelope r ∧
       match Handler.sdkMcpServers q !! name with
       | Some server => r = Mcp.HandleRequest server message
       | None =>
           r !! "id" = Some (index message "id") ∧
           r !! "error" = Some (VMap {[
              "code" := VInt (-32601);
              "message" := VStr ("Server '" +:+ name +:+ "' not found") ]})
       end.
Proof.
  intros Hs Hne Hm. unfold Handler.handleMcpMessage.
  assert (index request "server_name" = VStr name) as ->
    by (unfold index; by rewrite Hs).
  assert (index request "message" = VMap message) as ->
    by (unfold index; by rewrite Hm).
  cbn [assertString assertMap].
  destruct (decide (name = "")) as [|_]; [done|].
  destruct (Handler.sdkMcpServers q !! name) as [server|].
  - eexists. split; [done|]. split; [apply HandleRequest_envelope|done].
  - eexists. split; [done|].
    split; [eapply envelope_error|]; by simplify_map_eq.
Qed.

Lemma mcp_message_routing_witness :
  ∃ r, Handler.handleMcpMessage mcpRequest (handler0 emptyOptions)
       = inl {[ "mcp_response" := VMap r ]} ∧
       Mcp.envelope r.
Proof.
  assert (Hs : mcpRequest !! "server_name" = Some (VStr "calc"))
    by (by vm_compute).
  assert (Hm : mcpRequest !! "message" = Some (VMap initializedWithId))
    by (by vm_compute).
  destruct (mcp_message_routing mcpRequest initializedWithId "calc"
              (handler0 emptyOptions) Hs ltac:(done) Hm) as (r & Hr & He & _).
  exists r. split; [exact Hr|exact He].
Defined.

(** X12: [tools/list] describes every registered tool once, in
    registration order.  Each entry carries the tool's name and
    description and a schema object that is never nil (the empty object
    schema stands in for a nil [InputSchema]); it has an ["annotations"]
    key exactly when the tool has annotations. *)
Theorem tools_list_one_entry_per_tool (s : Mcp.McpServer) (id : value) :
  ∃ items,
    Mcp.HandleListTools s id !! "result" = Some (VMap {[ "tools" := VList items ]}) ∧
    Mcp.HandleListTools s id !! "id" = Some id ∧
    length items = length (Mcp.Tools s) ∧
    ∀ i t, Mcp.Tools s !! i = Some t →
      ∃ d, items !! i = Some (VMap d) ∧
           d !! "name" = Some (VStr (Mcp.tool_Name t)) ∧
           d !! "description" = Some (VStr (Mcp.tool_Description t)) ∧
           d !! "inputSchema" =
             Some (VMap (default {[ "type" := VStr "object";
                                    "properties" := VMap ∅ ]}
                                 (Mcp.tool_InputSchema t))) ∧
           d !! "annotations" = Mcp.tool_Annotations t.
Proof.
  eexists. split; [|split; [|split]].
  - unfold Mcp.HandleListTools. by simplify_map_eq.
  - unfold Mcp.HandleListTools. by simplify_map_eq.
  - by rewrite length_fmap.
  - intros i t Hi. rewrite list_lookup_fmap, Hi. eexists. split; [done|].
    unfold Mcp.toolData.
    destruct (Mcp.tool_InputSchema t), (Mcp.tool_Annotations t);
      by simplify_map_eq.
Qed.

(** X13: a tool call resolves the name to the last registration.  On a
    server built by [CreateSdkMcpServer], [tools/call] for a name no tool
    was registered under is answered with the error -32601
    "Tool '<name>' not found"; when several tools share the name, the call
    is answered exactly as by a server that holds only the last of them. *)
Theorem call_tool_last_registration_wins
    (name version : string) (tools : list Mcp.SdkMcpTool)
    (id : value) (n : string) (args : gmap string value) :
  Mcp.HandleCallTool (Mcp.CreateSdkMcpServer name version tools) id n args =
    match last (filter (λ t, Mcp.tool_Name t = n) tools) with
    | Some t =>
        Mcp.HandleCallTool (Mcp.CreateSdkMcpServer name version [t]) id n args
    | None =>
        {[ "jsonrpc" := VStr "2.0";
           "id" := id;
           "error" := VMap {[
              "code" := VInt (-32601);
              "message" := VStr ("Tool '" +:+ n +:+ "' not found") ]} ]}
    end.
Proof.
  unfold Mcp.HandleCallTool, Mcp.CreateSdkMcpServer. cbn [Mcp.toolMap].
  rewrite toolMap_foldl.
  destruct (last (filter (λ t, Mcp.tool_Name t = n) tools)) as [t|] eqn:Hl.
  - apply last_Some_elem_of, list_elem_of_filter in Hl as [Hn _].
    cbn [foldl]. by rewrite <- Hn, lookup_insert_eq.
  - by rewrite lookup_empty.
Qed.

(** ** Hook registration at [initialize] *)

Section ExtraInit.
Import Handler Hooks.
Context {T : Type} `{!Transport T}.
Implicit Types q : queryHandler (T := T).

Lemma registers_refl q : registers 0 q q.
Proof.
  split; [lia|]. split; [intros k ?; lia|done].
Qed.

Lemma registers_trans n m q1 q2 q3 :
  registers n q1 q2 → registers m q2 q3 → registers (n + m) q1 q3.
Proof.
  intros (Hn1 & Hr1 & Hk1) (Hn2 & Hr2 & Hk2). split; [lia|]. split.
  - intros k Hk. destruct (decide (k < nextCallbackID q2)%Z).
    + apply Hk2, Hr1. lia.
    + apply Hr2. lia.
  - auto.
Qed.

Lemma registerCallback_registers (st : queryHandler (T := T) * list string) cb :
  registers 1 st.1 (registerCallback st cb).1.
Proof.
  unfold registerCallback, registers. simpl. split; [lia|]. split.
  - intros k Hk. assert (k = nextCallbackID st.1) as -> by lia.
    unfold hookID. rewrite lookup_insert_eq. eauto.
  - intros id Hid. destruct (decide ("hook_" +:+ pretty (nextCallbackID st.1) = id)) as [<-|].
    + rewrite lookup_insert_eq. eauto.
    + by rewrite lookup_insert_ne.
Qed.

Lemma callbacks_registers cbs (st : queryHandler (T := T) * list string) :
  registers (length cbs) st.1 (foldl registerCallback st cbs).1.
Proof.
  revert st. induction cbs as [|cb cbs IH]; intros st; [apply registers_refl|].
  cbn [foldl length]. change (S (length cbs)) with (1 + length cbs).
  eapply registers_trans; [apply registerCallback_registers|apply IH].
Qed.

Lemma matcherConfig_registers (st : queryHandler (T := T) * list value) m :
  registers (length (Hooks m)) st.1 (matcherConfig st m).1.
Proof. unfold matcherConfig. cbn [fst]. apply (callbacks_registers _ (st.1, [])). Qed.

Lemma matchers_registers ms (st : queryHandler (T := T) * list value) :
  registers (sum_list_with (λ m, length (Hooks m)) ms) st.1
    (foldl matcherConfig st ms).1.
Proof.
  revert st. induction ms as [|m ms IH]; intros st; [apply registers_refl|].
  cbn [foldl sum_list_with].
  eapply registers_trans; [apply matcherConfig_registers|apply IH].
Qed.

Lemma events_registers (evs : list (string * list hookMatcherConfig))
    (st : queryHandler (T := T) * gmap string value) :
  registers
    (sum_list_with (λ ev : string * list hookMatcherConfig,
                      sum_list_with (λ m, length (Hooks m)) ev.2) evs)
    st.1
    (foldl (fun (st : queryHandler * gmap string value)
                (ev : string * list hookMatcherConfig) =>
              match ev.2 with
              | [] => st
              | matchers =>
                  let r := foldl matcherConfig (st.1, []) matchers in
                  (r.1, <[ev.1 := VList r.2]> st.2)
              end) st evs).1.
Proof.
  revert st. induction evs as [|[ev ms] evs IH]; intros st; [apply registers_refl|].
  cbn [foldl sum_list_with].
  eapply registers_trans; [|apply IH].
  cbn [fst snd]. destruct ms as [|m ms]; [apply registers_refl|].
  cbn [fst]. apply (matchers_registers (m :: ms) (st.1, [])).
Qed.
End ExtraInit.

(** X14: building the [initialize] request registers every configured hook
    callback.  The callback counter advances by the number of callbacks in
    the hook configuration, each number it passes has its id ["hook_<n>"]
    in the callback registry afterwards, and no id registered before is
    removed. *)
Theorem initialize_registers_hooks
    {T : Type} `{!Transport T} (q : Handler.queryHandler (T := T)) :
  let q' := (Handler.initializeRequest q).1 in
  Handler.nextCallbackID q' =
    (Handler.nextCallbackID q + Z.of_nat (callbackCount (Handler.hooks q)))%Z ∧
  (∀ k, (Handler.nextCallbackID q ≤ k < Handler.nextCallbackID q')%Z →
        is_Some (Handler.hookCallbacks q' !! ("hook_" +:+ pretty k))) ∧
  (∀ id, is_Some (Handler.hookCallbacks q !! id) →
         is_Some (Handler.hookCallbacks q' !! id)).
Proof.
  unfold Handler.initializeRequest. cbn [fst].
  apply (events_registers (map_to_list (Handler.hooks q)) (q, ∅)).
Qed.

(** ** The initialize timeout of the two facades *)



(** X16: a one-shot query never reads the variable.  Whenever [runQuery]
    gets as far as its [initialize] request, the handler's
    [initializeTimeout] and the request's timer are exactly 60 seconds,
    whatever the environment holds. *)
Theorem one_shot_timeout_fixed
    (Marshal : value → string) (ParseFloat : string → option float)
    (spawn : error + Transport.pipe) (randHex : string)
    (env : gmap string string) (prompt : option string)
    (options : Facade.AgentOptions) q st :
  Facade.s_result (Facade.runQuery Marshal ParseFloat spawn randHex env prompt options)
    = inr (q, st) →
  Handler.initializeTimeout q = 60%float ∧
  ∃ wt, st = inr wt ∧ Handler.w_timeout wt = 60%float.
Proof.
  assert (H60 : (60 <=? 0)%float = false) by (by vm_compute).
  unfold Facade.runQuery. intros Hc.
  destruct (Facade.o_CanUseTool options).
  - destruct prompt; [discriminate|].
    case_decide; [|discriminate].
    by apply launch_timeout in Hc.
  - by apply launch_timeout in Hc.
Qed.

Lemma one_shot_timeout_fixed_witness :
  match Facade.s_result
          (Facade.runQuery marshalType parseFloatTable (inr goodPipe) "0a1b2c3d"
             env120s (Some "hello") noOptions) with
  | inr (q, st) =>
      Handler.initializeTimeout q = 60%float ∧
      ∃ wt, st = inr wt ∧ Handler.w_timeout wt = 60%float
  | inl _ => False
  end.
Proof.
  destruct (Facade.s_result _) as [e|[q st]] eqn:H.
  - vm_compute in H. discriminate H.
  - exact (one_shot_timeout_fixed marshalType parseFloatTable (inr goodPipe)
             "0a1b2c3d" env120s (Some "hello") noOptions q st H).
Defined.

(** ** Forwarding of the input stream *)

Section ExtraStream.
Import Handler.
Context {T : Type} `{!Transport T}.
Variable Marshal : value → string.
Implicit Types q : queryHandler (T := logged T).

Lemma streamInput_loop_inputs (msgs : list (gmap string value)) q :
  closed q = false →
  (streamInput_loop Marshal (SEvInput <$> msgs) q).2 = Forwarding ∧
  calls (transport (streamInput_loop Marshal (SEvInput <$> msgs) q).1)
  = calls (transport q) ++ (inputLine Marshal <$> msgs).
Proof.
  revert q. induction msgs as [|msg msgs IH]; intros q Hq.
  - simpl. by rewrite app_nil_r.
  - cbn [fmap list_fmap streamInput_loop streamInput_iteration].
    rewrite Hq. cbn [fst snd].
    destruct (IH (writeLine Marshal msg q).1 Hq) as (Hs & Hc).
    split; [exact Hs|]. rewrite Hc. simpl.
    by rewrite <- app_assoc.
Qed.

Lemma streamInput_loop_writes evs q :
  SEvInputClosed ∉ evs →
  ∃ msgs, calls (transport (streamInput_loop Marshal evs q).1)
          = calls (transport q) ++ (inputLine Marshal <$> msgs) ∧
          (SEvInput <$> msgs) `prefix_of` evs.
Proof.
  revert q. induction evs as [|ev evs IH]; intros q Hn.
  - exists []. simpl. by rewrite app_nil_r.
  - apply not_elem_of_cons in Hn as [Hev Hn].
    cbn [streamInput_loop]. destruct ev as [|msg|]; [| |done].
    + exists []. simpl. split; [by rewrite app_nil_r|apply prefix_nil].
    + cbn [streamInput_iteration]. destruct (closed q).
      * exists []. simpl. split; [by rewrite app_nil_r|apply prefix_nil].
      * cbn [fst snd].
        destruct (IH (writeLine Marshal msg q).1 Hn) as (msgs & Hc & Hp).
        exists (msg :: msgs). split; [|by apply prefix_cons].
        rewrite Hc. simpl. by rewrite <- app_assoc.
Qed.
End ExtraStream.

(** X17: [streamInput] forwards the input in order, one line each.  On a
    handler that is not closed, after the messages [msgs] have arrived the
    goroutine is still in its loop and the transport has received exactly
    one [Write] per message, in order of arrival, each the message's JSON
    text and a newline; this holds on every transport, so a failed write
    stops nothing. *)
Theorem stream_forwards_in_order
    {T : Type} `{!Transport T} (Marshal : value → string)
    (msgs : list (gmap string value))
    (q : Handler.queryHandler (T := logged T)) :
  Handler.closed q = false →
  let r := Handler.streamInput_loop Marshal (Handler.SEvInput <$> msgs) q in
  r.2 = Handler.Forwarding ∧
  calls (Handler.transport r.1) =
    calls (Handler.transport q) ++
      ((λ msg, CallWrite (Marshal (VMap msg) +:+ newline)) <$> msgs).
Proof.
  intros Hq r.
  destruct (streamInput_loop_inputs Marshal msgs q Hq) as (Hs & Hc).
  split; [exact Hs|exact Hc].
Qed.

Lemma stream_forwards_in_order_witness :
  calls (Handler.transport
           (Handler.streamInput_loop marshalType
              (Handler.SEvInput <$> [assistantMsg; resultMsg])
              (handler0 emptyOptions)).1) =
    [CallWrite (marshalType (VMap assistantMsg) +:+ newline);
     CallWrite (marshalType (VMap resultMsg) +:+ newline)].
Proof.
  exact (proj2 (stream_forwards_in_order marshalType [assistantMsg; resultMsg]
                  (handler0 emptyOptions) eq_refl)).
Defined.

(** X18: [streamInput] closes stdin only at the end of the input.  As long
    as the input channel has not been closed, whatever the loop has done
    (forwarded, returned on cancellation, returned on a closed handler),
    the transport has received only the lines of a prefix of the input
    messages: no [EndInput], no [Close]. *)
Theorem stream_keeps_stdin_open
    {T : Type} `{!Transport T} (Marshal : value → string)
    (evs : list Handler.streamEvent)
    (q : Handler.queryHandler (T := logged T)) :
  Handler.SEvInputClosed ∉ evs →
  ∃ msgs,
    calls (Handler.transport (Handler.streamInput_loop Marshal evs q).1) =
      calls (Handler.transport q) ++
        ((λ msg, CallWrite (Marshal (VMap msg) +:+ newline)) <$> msgs) ∧
    (Handler.SEvInput <$> msgs) `prefix_of` evs.
Proof. apply streamInput_loop_writes. Qed.

Lemma stream_keeps_stdin_open_witness :
  ∃ msgs,
    calls (Handler.transport
             (Handler.streamInput_loop marshalType
                [Handler.SEvInput assistantMsg; Handler.SEvCtxDone;
                 Handler.SEvInput resultMsg]
                (handler0 emptyOptions)).1) =
      (λ msg, CallWrite (marshalType (VMap msg) +:+ newline)) <$> msgs.
Proof.
  destruct (stream_keeps_stdin_open marshalType
              [Handler.SEvInput assistantMsg; Handler.SEvCtxDone;
               Handler.SEvInput resultMsg]
              (handler0 emptyOptions)) as (msgs & Hc & _).
  - rewrite !not_elem_of_cons. repeat split; try discriminate.
    apply not_elem_of_nil.
  - exists msgs. exact Hc.
Defined.

(** ** Request ids *)

Section ExtraIds.
Import Handler.
Context {T : Type} `{!Transport T}.
Variable Marshal : value → string.
Implicit Types q : queryHandler (T := T).

Lemma length_append (s t : string) :
  String.length (s +:+ t) = String.length s + String.length t.
Proof. induction s as [|a s IH]; simpl; [done|by rewrite IH]. Qed.

Lemma append_inj_length (s1 s2 t1 t2 : string) :
  String.length t1 = String.length t2 → s1 +:+ t1 = s2 +:+ t2 → s1 = s2.
Proof.
  intros Hl. revert s2. induction s1 as [|a s1 IH]; intros [|b s2] Heq; simpl in Heq.
  - done.
  - apply (f_equal String.length) in Heq.
    rewrite ?length_append in Heq. simpl in Heq.
    rewrite ?length_append in Heq. lia.
  - apply (f_equal String.length) in Heq.
    rewrite ?length_append in Heq. simpl in Heq.
    rewrite ?length_append in Heq. lia.
  - injection Heq as -> Heq. f_equal. by apply IH.
Qed.

Lemma append_inj_prefix (s t1 t2 : string) : s +:+ t1 = s +:+ t2 → t1 = t2.
Proof.
  induction s as [|a s IH]; simpl; [done|]. intros Heq. injection Heq as Heq. auto.
Qed.

Lemma requestID_inj c1 c2 r1 r2 :
  String.length r1 = String.length r2 →
  requestID c1 r1 = requestID c2 r2 → c1 = c2.
Proof.
  intros Hl Heq. unfold requestID in Heq.
  apply append_inj_prefix, append_inj_length in Heq.
  - by apply (inj pretty) in Heq.
  - rewrite !length_append. by f_equal.
Qed.

Lemma terminal_requestCounter s e q :
  requestCounter (terminal s e q) = requestCounter q.
Proof.
  destruct e as [e|]; [|done]. unfold terminal, setReadError.
  destruct (readErr q), s; done.
Qed.

Lemma onControlResponse_requestCounter msg q :
  requestCounter (onControlResponse msg q) = requestCounter q.
Proof.
  unfold onControlResponse. destruct (assertMap _); [|done].
  case_decide; [done|]. by destruct (pendingRequests q !! _).
Qed.

Lemma readerIteration_requestCounter ev q :
  requestCounter (it_handler (readerIteration ev q)) = requestCounter q.
Proof.
  unfold readerIteration. destruct ev as [c| |[e|] s|s|msg s]; try done.
  - destruct (closed q); [done|]. apply terminal_requestCounter.
  - apply terminal_requestCounter.
  - cbn [it_handler]. destruct (LastError (transport q)); [|done].
    apply terminal_requestCounter.
  - destruct (closed q); [done|].
    repeat case_decide; try done;
      [apply onControlResponse_requestCounter|by destruct s..].
Qed.

Lemma reader_requestCounter evs q :
  requestCounter (reader evs q) = requestCounter q.
Proof.
  unfold reader. destruct (readerRunning q); [|done].
  apply (readMessages_preserve (fun q' => requestCounter q' = requestCounter q));
    [|done|done].
  intros ev q' Hq'. by rewrite readerIteration_requestCounter.
Qed.

Lemma perform_requestCounter a q :
  requestCounter (perform Marshal a q) = requestCounter q.
Proof.
  destruct a as [evs|msg|evs]; simpl.
  - apply reader_requestCounter.
  - unfold handleControlRequest. destruct (assertMap _); [|done]. by case_decide.
  - unfold close.
    change (requestCounter (set_transport ?t ?x)) with (requestCounter x).
    by rewrite reader_requestCounter.
Qed.

Lemma sendControlRequest_begin_requestCounter randHex request timeout q :
  (requestCounter q ≤
   requestCounter (sendControlRequest_begin Marshal randHex request timeout q).1)%Z.
Proof.
  unfold sendControlRequest_begin. destruct (err_ q); [done|].
  destruct (writeLine _ _ _).2; simpl; lia.
Qed.

Lemma sendControlRequest_begin_id randHex request timeout q q' wt :
  sendControlRequest_begin Marshal randHex request timeout q = (q', inr wt) →
  w_requestID wt = requestID (requestCounter q') randHex ∧
  requestCounter q' = (requestCounter q + 1)%Z.
Proof.
  unfold sendControlRequest_begin. destruct (err_ q); [discriminate|].
  destruct (writeLine _ _ _).2; [discriminate|].
  intros [= <- <-]. done.
Qed.

Lemma runSteps_requestCounter steps q :
  (requestCounter q ≤ requestCounter (runSteps Marshal steps q))%Z.
Proof.
  unfold runSteps. revert q. induction steps as [|s steps IH]; intros q; [done|].
  simpl. etrans; [|apply IH].
  destruct s as [a|randHex request timeout]; simpl.
  - by rewrite perform_requestCounter.
  - apply sendControlRequest_begin_requestCounter.
Qed.
End ExtraIds.

(** X19: no two control requests of a handler get the same request id.
    Whatever happens at the handler between two requests (steps of the
    reader, dispatchers, [close], other requests), the id of the later
    request differs from the id of the earlier one; the random parts are
    hex texts of the same length (four bytes each in the code). *)
Theorem request_ids_distinct
    {T : Type} `{!Transport T} (Marshal : value → string)
    (randHex1 randHex2 : string) (request1 request2 : gmap string value)
    (timeout1 timeout2 : float) (steps : list step)
    (q q1 q2 : Handler.queryHandler (T := T)) (wt1 wt2 : Handler.waiter) :
  String.length randHex1 = String.length randHex2 →
  Handler.sendControlRequest_begin Marshal randHex1 request1 timeout1 q
    = (q1, inr wt1) →
  Handler.sendControlRequest_begin Marshal randHex2 request2 timeout2
    (runSteps Marshal steps q1) = (q2, inr wt2) →
  Handler.w_requestID wt1 ≠ Handler.w_requestID wt2.
Proof.
  intros Hl H1 H2 Heq.
  apply sendControlRequest_begin_id in H1 as [Hid1 _].
  apply sendControlRequest_begin_id in H2 as [Hid2 Hc2].
  rewrite Hid1, Hid2 in Heq. apply requestID_inj in Heq; [|done].
  pose proof (runSteps_requestCounter Marshal steps q1). lia.
Qed.

Lemma request_ids_distinct_witness :
  match firstSend.2, secondSend.2 with
  | inr wt1, inr wt2 => Handler.w_requestID wt1 ≠ Handler.w_requestID wt2
  | _, _ => False
  end.
Proof.
  destruct (firstSend.2) as [r|wt1] eqn:E1; [vm_compute in E1; discriminate E1|].
  destruct (secondSend.2) as [r|wt2] eqn:E2; [vm_compute in E2; discriminate E2|].
  apply (request_ids_distinct marshalType "0a1b2c3d" "0a1b2c3d"
           Handler.interruptRequest.1 Handler.interruptRequest.1
           Handler.interruptRequest.2 Handler.interruptRequest.2
           between (handler0 emptyOptions) firstSend.1 secondSend.1 wt1 wt2 eq_refl).
  - rewrite <- E1. apply surjective_pairing.
  - rewrite <- E2. apply surjective_pairing.
Defined.

(** ** The subprocess transport *)

Section ExtraTransport.
Implicit Types t : subprocessTransport.


Lemma callOn_childInput c t :
  childInput (callOn c t).1 =
    childInput t ++ match c, (callOn c t).2 with
                    | CallWrite data, None => [data]
                    | _, _ => []
                    end.
Proof.
  destruct c as [data| |]; simpl.
  - unfold sp_Write. destruct (ready t), (stdin t) as [p|]; simpl;
      rewrite ?app_nil_r; try done.
    destruct (sp_LastError t); simpl; rewrite ?app_nil_r; [done|].
    destruct (writeErr p); simpl; by rewrite ?app_nil_r.
  - unfold sp_EndInput. destruct (stdin t); simpl; by rewrite app_nil_r.
  - by rewrite app_nil_r.
Qed.

Lemma callOn_sealed c t :
  sealed t →
  sealed (callOn c t).1 ∧
  match c with
  | CallWrite _ =>
      (callOn c t).2 = Some (ErrCLIConnection "Transport is not ready for writing" None)
  | _ => True
  end.
Proof.
  unfold sealed. intros Hs. destruct c as [data| |]; simpl.
  - unfold sp_Write. destruct Hs as [Hs|Hs]; rewrite Hs.
    + destruct (ready t); simpl; rewrite ?Hs; split; auto.
    + simpl. rewrite ?Hs. split; auto.
  - split; [|done]. unfold sp_EndInput. destruct (stdin t) eqn:E; simpl; auto.
  - auto.
Qed.
End ExtraTransport.


(** X21: after [EndInput], after [Close], and after a failed write to the
    pipe, nothing more reaches the child.  Once stdin is closed or the
    transport is no longer ready, every later call leaves the child's input
    as it is, and a later [Write] (here after any further calls) fails with
    "Transport is not ready for writing". *)
Theorem sealed_transport_accepts_nothing
    (cs : list call) (data : string) (t : subprocessTransport) :
  stdin t = None ∨ ready t = false →
  childInput (callsOn cs t) = childInput t ∧
  (Write data (callsOn cs t)).2
    = Some (ErrCLIConnection "Transport is not ready for writing" None).
Proof.
  unfold callsOn. revert t. induction cs as [|c cs IH]; intros t Ht.
  - split; [done|]. exact (proj2 (callOn_sealed (CallWrite data) t Ht)).
  - cbn [foldl]. destruct (callOn_sealed c t Ht) as [Hs Hw].
    destruct (IH _ Hs) as [Hc Hd]. split; [|exact Hd].
    rewrite Hc, callOn_childInput.
    destruct c; [rewrite Hw|..]; by rewrite app_nil_r.
Qed.

Lemma sealed_transport_accepts_nothing_witness :
  childInput (callsOn [CallWrite "b"; CallClose; CallWrite "c"]
                (EndInput (Write "a" (connected goodPipe)).1).1) = ["a"].
Proof.
  exact (proj1 (sealed_transport_accepts_nothing
                  [CallWrite "b"; CallClose; CallWrite "c"] "d"
                  (EndInput (Write "a" (connected goodPipe)).1).1
                  (or_introl eq_refl))).
Defined.

(** ** The callback ids announced by [initialize] *)

Section ExtraHookIds.
Import Handler Hooks.
Context {T : Type} `{!Transport T}.
Implicit Types q : queryHandler (T := T).

Lemma hookID_inj k1 k2 : hookID k1 = hookID k2 → k1 = k2.
Proof.
  unfold hookID. intros Heq. apply append_inj_prefix in Heq.
  by apply (inj pretty) in Heq.
Qed.

Lemma grows_refl q : grows q q.
Proof. split; [lia|done]. Qed.

Lemma grows_trans q1 q2 q3 : grows q1 q2 → grows q2 q3 → grows q1 q3.
Proof.
  intros [Hn1 Hk1] [Hn2 Hk2]. split; [lia|].
  intros k Hk. rewrite Hk2 by lia. by apply Hk1.
Qed.

Lemma bound_grows q q' ids cbs : grows q q' → bound q ids cbs → bound q' ids cbs.
Proof.
  intros [Hn Hk] Hb. eapply Forall2_impl; [exact Hb|].
  intros id cb (k & -> & Hlt & Hid). exists k.
  split; [done|]. split; [lia|]. by rewrite Hk.
Qed.

Lemma announced_grows q q' m v : grows q q' → announced q m v → announced q' m v.
Proof.
  intros Hg (mc & ids & -> & Hm & Hi & Ht & Hb).
  exists mc, ids. eauto 10 using bound_grows.
Qed.

Lemma registerCallback_grows (st : queryHandler (T := T) * list string) cb :
  grows st.1 (registerCallback st cb).1 ∧
  (registerCallback st cb).2 = st.2 ++ [hookID (nextCallbackID st.1)] ∧
  nextCallbackID (registerCallback st cb).1 = (nextCallbackID st.1 + 1)%Z ∧
  hookCallbacks (registerCallback st cb).1 !! hookID (nextCallbackID st.1) = Some cb.
Proof.
  unfold registerCallback, grows. simpl. split; [|split; [done|split; [done|]]].
  - split; [lia|]. intros k Hk. apply lookup_insert_ne.
    intros Heq. apply hookID_inj in Heq. lia.
  - apply lookup_insert_eq.
Qed.

Lemma callbacks_bound cbs (st : queryHandler (T := T) * list string) :
  ∃ ids, (foldl registerCallback st cbs).2 = st.2 ++ ids ∧
         bound (foldl registerCallback st cbs).1 ids cbs ∧
         grows st.1 (foldl registerCallback st cbs).1.
Proof.
  revert st. induction cbs as [|cb cbs IH]; intros st.
  - exists []. simpl. rewrite app_nil_r.
    split; [done|]. split; [constructor|apply grows_refl].
  - cbn [foldl].
    destruct (registerCallback_grows st cb) as (Hg & H2 & Hn & Hcb).
    destruct (IH (registerCallback st cb)) as (ids & Hids & Hb & Hg').
    exists (hookID (nextCallbackID st.1) :: ids).
    split; [by rewrite Hids, H2, <- app_assoc|].
    split; [|by eapply grows_trans].
    constructor; [|exact Hb].
    exists (nextCallbackID st.1). split; [done|].
    destruct Hg' as [Hn' Hk']. split; [lia|].
    rewrite Hk' by lia. exact Hcb.
Qed.

Lemma matcherConfig_announced (st : queryHandler (T := T) * list value) m :
  ∃ v, (matcherConfig st m).2 = st.2 ++ [v] ∧
       announced (matcherConfig st m).1 m v ∧
       grows st.1 (matcherConfig st m).1.
Proof.
  unfold matcherConfig.
  destruct (callbacks_bound (Hooks m) (st.1, [])) as (ids & Hids & Hb & Hg).
  cbn [fst snd] in *. rewrite Hids. cbn [app].
  eexists. split; [done|]. split; [|exact Hg].
  eexists _, ids. split; [done|].
  destruct (Timeout m); (repeat split; [by simplify_map_eq..|exact Hb]).
Qed.

Lemma matchers_announced ms (st : queryHandler (T := T) * list value) :
  ∃ vs, (foldl matcherConfig st ms).2 = st.2 ++ vs ∧
        Forall2 (announced (foldl matcherConfig st ms).1) ms vs ∧
        grows st.1 (foldl matcherConfig st ms).1.
Proof.
  revert st. induction ms as [|m ms IH]; intros st.
  - exists []. simpl. rewrite app_nil_r.
    split; [done|]. split; [constructor|apply grows_refl].
  - cbn [foldl].
    destruct (matcherConfig_announced st m) as (v & Hv & Ha & Hg).
    destruct (IH (matcherConfig st m)) as (vs & Hvs & Has & Hg').
    exists (v :: vs). split; [by rewrite Hvs, Hv, <- app_assoc|].
    split; [|by eapply grows_trans].
    constructor; [by eapply announced_grows|exact Has].
Qed.

Lemma eventConfig_announced (st : queryHandler (T := T) * gmap string value)
    ev ms :
  grows st.1 (eventConfig st (ev, ms)).1 ∧
  (∀ ev', ev' ≠ ev → (eventConfig st (ev, ms)).2 !! ev' = st.2 !! ev') ∧
  match ms with
  | [] => (eventConfig st (ev, ms)).2 !! ev = st.2 !! ev
  | _ => ∃ vs, (eventConfig st (ev, ms)).2 !! ev = Some (VList vs) ∧
               Forall2 (announced (eventConfig st (ev, ms)).1) ms vs
  end.
Proof.
  unfold eventConfig. cbn [fst snd].
  destruct ms as [|m ms]; [by split; [apply grows_refl|]|].
  destruct (matchers_announced (m :: ms) (st.1, [])) as (vs & Hvs & Ha & Hg).
  cbn [fst snd] in *. split; [exact Hg|]. split.
  - intros ev' Hne. by rewrite lookup_insert_ne.
  - exists vs. rewrite lookup_insert_eq, Hvs. done.
Qed.

Lemma events_announced (evs : list (string * list hookMatcherConfig))
    (st : queryHandler (T := T) * gmap string value) :
  NoDup evs.*1 →
  grows st.1 (foldl eventConfig st evs).1 ∧
  (∀ ev, ev ∉ evs.*1 → (foldl eventConfig st evs).2 !! ev = st.2 !! ev) ∧
  ∀ ev ms, (ev, ms) ∈ evs →
    match ms with
    | [] => (foldl eventConfig st evs).2 !! ev = st.2 !! ev
    | _ => ∃ vs, (foldl eventConfig st evs).2 !! ev = Some (VList vs) ∧
                 Forall2 (announced (foldl eventConfig st evs).1) ms vs
    end.
Proof.
  revert st. induction evs as [|[ev ms] evs IH]; intros st Hnd.
  - simpl. split; [apply grows_refl|]. split; [done|].
    intros ev ms Hin. by apply elem_of_nil in Hin.
  - apply NoDup_cons in Hnd as [Hev Hnd]. cbn [foldl].
    destruct (eventConfig_announced st ev ms) as (Hg1 & Hother & Hhead).
    destruct (IH (eventConfig st (ev, ms)) Hnd) as (Hg & Hout & Hin).
    split; [by eapply grows_trans|]. split.
    + intros ev' Hn. cbn [fmap list_fmap fst] in Hn.
      apply not_elem_of_cons in Hn as [Hne Hn].
      rewrite Hout by done. by apply Hother.
    + intros ev' ms' Hel. apply elem_of_cons in Hel as [[= -> ->]|Hel].
      * rewrite Hout by done. destruct ms as [|m ms]; [done|].
        destruct Hhead as (vs & Hvs & Ha). exists vs. split; [done|].
        eapply Forall2_impl; [exact Ha|]. intros. by eapply announced_grows.
      * specialize (Hin ev' ms' Hel). destruct ms' as [|m' ms']; [|done].
        rewrite Hin. apply Hother. intros ->.
        apply Hev. apply list_elem_of_fmap. by exists (ev, []).
Qed.

Lemma hooksConfig_eventConfig q :
  hooksConfig q = foldl eventConfig (q, ∅) (map_to_list (hooks q)).
Proof. reflexivity. Qed.
End ExtraHookIds.

(** X22: the callback ids that [initialize] announces are the ids it
    registered the callbacks under.  For every hook event with at least
    one matcher, the request's ["hooks"] object has one entry per matcher,
    in order, with the matcher's pattern, its timeout when it has one, and
    one callback id per callback; looking such an id up in the callback
    registry afterwards gives the callback at the same position.  An event
    with no matcher has no entry. *)
Theorem initialize_announces_registered_ids
    {T : Type} `{!Transport T} (q : Handler.queryHandler (T := T))
    (ev : string) (matchers : list Hooks.hookMatcherConfig) :
  Handler.hooks q !! ev = Some matchers →
  let q' := (Handler.initializeRequest q).1 in
  ∃ cfg, (Handler.initializeRequest q).2 !! "hooks" = Some (VMap cfg) ∧
    match matchers with
    | [] => cfg !! ev = None
    | _ =>
        ∃ entries, cfg !! ev = Some (VList entries) ∧
          Forall2 (λ matcher entry,
            ∃ mc ids, entry = VMap mc ∧
              mc !! "matcher" = Some (VStr (Hooks.Matcher matcher)) ∧
              mc !! "hookCallbackIds" = Some (VList (VStr <$> ids)) ∧
              mc !! "timeout" = VFloat <$> Hooks.Timeout matcher ∧
              Forall2 (λ id cb, Handler.hookCallbacks q' !! id = Some cb)
                ids (Hooks.Hooks matcher))
            matchers entries
    end.
Proof.
  intros Hev q'. unfold Handler.initializeRequest in *. cbn [fst snd] in *.
  exists (Handler.hooksConfig q).2. split.
  { case_decide; by simplify_map_eq. }
  rewrite hooksConfig_eventConfig.
  destruct (events_announced (map_to_list (Handler.hooks q)) (q, ∅)
              (NoDup_fst_map_to_list _)) as (_ & _ & Hin).
  specialize (Hin ev matchers).
  rewrite elem_of_map_to_list in Hin. specialize (Hin Hev).
  destruct matchers as [|m ms]; [by rewrite Hin|].
  destruct Hin as (vs & Hvs & Ha). exists vs. split; [exact Hvs|].
  eapply Forall2_impl; [exact Ha|].
  intros matcher entry (mc & ids & -> & Hm & Hi & Ht & Hb).
  exists mc, ids. repeat split; try done.
  eapply Forall2_impl; [exact Hb|]. by intros id cb (k & _ & _ & Hid).
Qed.

Lemma initialize_announces_registered_ids_witness :
  ∃ cfg entries,
    (Handler.initializeRequest (handler0 withHook)).2 !! "hooks" = Some (VMap cfg) ∧
    cfg !! "PreToolUse" = Some (VList entries) ∧ length entries = 1.
Proof.
  assert (Hev : Handler.hooks (handler0 withHook) !! "PreToolUse"
                = Some [bashMatcher]) by (by vm_compute).
  destruct (initialize_announces_registered_ids (handler0 withHook)
              "PreToolUse" [bashMatcher] Hev) as (cfg & Hc & entries & He & Hf).
  exists cfg, entries. split; [exact Hc|]. split; [exact He|].
  symmetry. exact (Forall2_length _ _ _ Hf).
Defined.

(** ** Typed messages and the receive loops *)

Section ExtraParser.
Import Parser.
Variable floatToInt : float → Z.

Lemma parseUserMessage_kind data :
  match parseUserMessage data with
  | inl m => messageType m = "user"
  | inr e => pe_Data e = data
  end.
Proof.
  unfold parseUserMessage. destruct (assertMap _) as [msg|]; [|done].
  destruct (msg !! "content") as [content|]; [|done].
  by destruct (assertList content).
Qed.

Lemma parseAssistantMessage_kind data :
  match parseAssistantMessage data with
  | inl m => messageType m = "assistant"
  | inr e => pe_Data e = data
  end.
Proof.
  unfold parseAssistantMessage. destruct (assertMap _) as [msg|]; [|done].
  destruct (assertList _); [|done]. by case_decide.
Qed.

Lemma parseSystemMessage_kind data :
  match parseSystemMessage data with
  | inl m => messageType m = "system"
  | inr e => pe_Data e = data
  end.
Proof. unfold parseSystemMessage. by destruct (assertStringOk _). Qed.

Lemma parseResultMessage_kind data :
  match parseResultMessage floatToInt data with
  | inl m => Receive.isResult m = true
  | inr e => pe_Data e = data
  end.
Proof.
  unfold parseResultMessage. case_decide; [done|].
  destruct (data !! "duration_ms"); [|done].
  destruct (data !! "duration_api_ms"); [|done].
  destruct (assertBool _); [|done].
  destruct (data !! "num_turns"); [|done]. by case_decide.
Qed.

Lemma parseStreamEvent_kind data :
  match parseStreamEvent data with
  | inl m => messageType m = "stream_event"
  | inr e => pe_Data e = data
  end.
Proof.
  unfold parseStreamEvent. destruct (assertMap _); [|done].
  by repeat case_decide.
Qed.

Lemma isResult_messageType m :
  Receive.isResult m = bool_decide (messageType m = "result").
Proof. by destruct m. Qed.
End ExtraParser.

(** X23: a message parses to the kind its envelope names.  When
    [parseMessage] succeeds, the typed message is of the kind given by the
    envelope's ["type"]; when it fails, the error carries the whole raw
    message, its text is "Message missing 'type' field" for a type that is
    absent, not a string or empty, and "Unknown message type: <type>" for a
    type outside the six known ones; a [rate_limit_event] never fails. *)
Theorem parse_message_kind (floatToInt : float → Z) (data : gmap string value) :
  let ty := assertString (index data "type") in
  match Parser.parseMessage floatToInt data with
  | inl m => Parser.messageType m = ty
  | inr e =>
      Parser.pe_Data e = data ∧ ty ≠ "rate_limit_event" ∧
      (ty = "" → Parser.pe_Message e = "Message missing 'type' field") ∧
      (ty ∉ ["user"; "assistant"; "system"; "result"; "stream_event"] →
       ty ≠ "" → Parser.pe_Message e = "Unknown message type: " +:+ ty)
  end.
Proof.
  intros ty. unfold Parser.parseMessage. fold ty.
  generalize ty. clear ty. intros ty.
  destruct (decide (ty = "")) as [->|Hne]; [done|].
  destruct (decide (ty = "user")) as [->|Hu].
  { pose proof (parseUserMessage_kind data) as Hk.
    destruct (Parser.parseUserMessage data); [done|].
    repeat split; try done. intros Hn. contradict Hn. set_solver. }
  destruct (decide (ty = "assistant")) as [->|Ha].
  { pose proof (parseAssistantMessage_kind data) as Hk.
    destruct (Parser.parseAssistantMessage data); [done|].
    repeat split; try done. intros Hn. contradict Hn. set_solver. }
  destruct (decide (ty = "system")) as [->|Hs].
  { pose proof (parseSystemMessage_kind data) as Hk.
    destruct (Parser.parseSystemMessage data); [done|].
    repeat split; try done. intros Hn. contradict Hn. set_solver. }
  destruct (decide (ty = "result")) as [->|Hr].
  { pose proof (parseResultMessage_kind floatToInt data) as Hk.
    destruct (Parser.parseResultMessage floatToInt data) as [m|e].
    - rewrite isResult_messageType in Hk. by apply bool_decide_eq_true in Hk.
    - repeat split; try done. intros Hn. contradict Hn. set_solver. }
  destruct (decide (ty = "stream_event")) as [->|He].
  { pose proof (parseStreamEvent_kind data) as Hk.
    destruct (Parser.parseStreamEvent data); [done|].
    repeat split; try done. intros Hn. contradict Hn. set_solver. }
  destruct (decide (ty = "rate_limit_event")) as [->|Hl]; [done|].
  done.
Qed.

Section ExtraReceive.
Import Parser Receive.
Variable floatToInt : float → Z.
Implicit Types arrivals : list (gmap string value * delivery).

Lemma forward_prefix k arrivals :
  ∃ n : nat, (n ≤ length arrivals)%nat ∧
    Forall2 (λ a m, parseMessage floatToInt a.1 = inl m ∧ a.2 = Delivered)
      (take n arrivals) (forward floatToInt k arrivals).1.1 ∧
    ((forward floatToInt k arrivals).2 = false →
     n = length arrivals ∧ (forward floatToInt k arrivals).1.2 = None).
Proof.
  induction arrivals as [|[rawMsg d] rest IH].
  - exists 0. simpl. split; [lia|]. split; [constructor|done].
  - cbn [forward]. case_decide.
    { exists 0. simpl. split; [lia|]. split; [constructor|done]. }
    destruct (parseMessage floatToInt rawMsg) as [msg|e] eqn:Hp.
    2:{ exists 0. simpl. split; [lia|]. split; [constructor|done]. }
    destruct d as [|cause].
    2:{ exists 0. simpl. split; [lia|]. split; [constructor|done]. }
    destruct (untilResult k && isResult msg).
    + exists 1. simpl. split; [lia|]. rewrite take_0.
      split; [by repeat constructor|done].
    + destruct IH as (n & Hn & Hf & Hb). exists (S n). simpl.
      split; [lia|]. split; [by constructor|].
      intros Hs. destruct (Hb Hs) as [-> ?]. done.
Qed.

Lemma forward_until_result k arrivals i m :
  untilResult k = true →
  (forward floatToInt k arrivals).1.1 !! i = Some m → isResult m = true →
  S i = length (forward floatToInt k arrivals).1.1 ∧
  (forward floatToInt k arrivals).1.2 = None ∧
  (forward floatToInt k arrivals).2 = true.
Proof.
  intros Hk. revert i. induction arrivals as [|[rawMsg d] rest IH]; intros i; [done|].
  cbn [forward]. case_decide; [done|].
  destruct (parseMessage floatToInt rawMsg) as [msg|e]; [|done].
  destruct d as [|cause]; [|done]. rewrite Hk. cbn [andb].
  destruct (isResult msg) eqn:Hr.
  - destruct i as [|i]; [done|]. by intros Hi.
  - cbn [fst snd]. destruct i as [|i].
    + intros [= ->]. congruence.
    + intros Hi Hm. destruct (IH i Hi Hm) as (Hl & Hf & Hs).
      simpl. by rewrite <- Hl.
Qed.

Lemma forward_app k arrivals1 arrivals2 :
  (forward floatToInt k arrivals1).2 = false →
  forward floatToInt k (arrivals1 ++ arrivals2) =
    ((forward floatToInt k arrivals1).1.1 ++ (forward floatToInt k arrivals2).1.1,
     (forward floatToInt k arrivals2).1.2,
     (forward floatToInt k arrivals2).2).
Proof.
  induction arrivals1 as [|[rawMsg d] rest IH].
  - intros _. simpl. by destruct (forward floatToInt k arrivals2) as [[? ?] ?].
  - cbn [forward app]. case_decide; [done|].
    destruct (parseMessage floatToInt rawMsg) as [msg|e]; [|done].
    destruct d as [|cause]; [|done].
    destruct (untilResult k && isResult msg); [done|].
    cbn [fst snd]. intros Hs. by rewrite (IH Hs).
Qed.
End ExtraReceive.

(** X24: the receive loops forward typed messages in the order of arrival
    and skip nothing.  For each of the three loops, the messages handed to
    the caller are the parses of a prefix of the raw messages the channel
    yielded, each forwarded by a send that went through; and a loop that
    is still waiting for the next message has forwarded all of them and
    reported no error. *)
Theorem forwarded_messages_are_parsed_prefix
    (floatToInt : float → Z) (k : Receive.loopKind)
    (arrivals : list (gmap string value * Receive.delivery))
    (chanClosed : bool) (qerr : option error) :
  let r := Receive.receiveLoop floatToInt k arrivals chanClosed qerr in
  ∃ n : nat, (n ≤ length arrivals)%nat ∧
    Forall2 (λ a m, Parser.parseMessage floatToInt a.1 = inl m ∧
                    a.2 = Receive.Delivered)
      (take n arrivals) (Receive.messages r) ∧
    (Receive.end_ r = Receive.Blocked →
     n = length arrivals ∧ Receive.failure r = None ∧ chanClosed = false).
Proof.
  intros r. subst r. unfold Receive.receiveLoop.
  destruct (forward_prefix floatToInt k arrivals) as (n & Hn & Hf & Hb).
  exists n. split; [exact Hn|].
  destruct (Receive.forward floatToInt k arrivals).2; [by split|].
  destruct chanClosed; cbn [Receive.messages Receive.end_ Receive.failure].
  - by split.
  - split; [exact Hf|]. intros _. destruct (Hb eq_refl). done.
Qed.

(** X25: [ReceiveResponse] ends with the first result message.  Among the
    messages it hands to the caller only the last one can be a
    [ResultMessage]; when it is, the loop has returned and has reported no
    error. *)
Theorem response_ends_at_first_result
    (floatToInt : float → Z)
    (query : option (list (gmap string value * Receive.delivery)
                     * bool * option error))
    (i : nat) (m : Parser.Message) :
  let r := Receive.ReceiveResponseWithErrors floatToInt query in
  Receive.messages r !! i = Some m → Receive.isResult m = true →
  S i = length (Receive.messages r) ∧
  Receive.failure r = None ∧ Receive.end_ r = Receive.Returned.
Proof.
  intros r. subst r. unfold Receive.ReceiveResponseWithErrors.
  destruct query as [[[arrivals chanClosed] qerr]|]; [|done].
  unfold Receive.receiveLoop.
  set (k := {| Receive.envelopeError := Receive.clientEnvelopeError;
               Receive.untilResult := true |}).
  intros Hi Hm.
  assert (Hi' : (Receive.forward floatToInt k arrivals).1.1 !! i = Some m).
  { by destruct (Receive.forward floatToInt k arrivals).2, chanClosed. }
  destruct (forward_until_result floatToInt k arrivals i m eq_refl Hi' Hm)
    as (Hl & Hf & Hs).
  rewrite Hs. done.
Qed.

Lemma response_ends_at_first_result_witness :
  length (Receive.messages responseRun) = 2 ∧
  Receive.failure responseRun = None ∧
  Receive.end_ responseRun = Receive.Returned.
Proof.
  destruct (Receive.messages responseRun !! 1) as [m|] eqn:Hi;
    [|vm_compute in Hi; discriminate Hi].
  assert (Hm : Receive.isResult m = true).
  { vm_compute in Hi. injection Hi as <-. reflexivity. }
  destruct (response_ends_at_first_result toZero _ 1 m Hi Hm) as (Hl & Hf & He).
  split; [symmetry; exact Hl|]. split; [exact Hf|exact He].
Defined.

Section ExtraSurface.
Import Parser Receive Handler.
Context {T : Type} `{!Transport T}.
Variable floatToInt : float → Z.

Lemma forward_parses k (msgs : list (gmap string value)) :
  untilResult k = false →
  Forall (parses floatToInt) msgs →
  (forward floatToInt k ((fun msg => (msg, Delivered)) <$> msgs)).2 = false ∧
  (forward floatToInt k ((fun msg => (msg, Delivered)) <$> msgs)).1.2 = None ∧
  Forall2 (λ msg m, parseMessage floatToInt msg = inl m) msgs
    (forward floatToInt k ((fun msg => (msg, Delivered)) <$> msgs)).1.1.
Proof.
  intros Hk. induction 1 as [|msg msgs [Hty [m Hm]] _ IH]; [by repeat constructor|].
  cbn [fmap list_fmap forward]. rewrite decide_False by done.
  rewrite Hm, Hk. cbn [andb fst snd].
  destruct IH as (Hs & Hf & Hp). split; [exact Hs|]. split; [exact Hf|].
  by constructor.
Qed.

Lemma forward_errorMessage k e d :
  forward floatToInt k [(errorMessage e, d)]
  = ([], Some (Failed (envelopeError k (Error e))), true).
Proof.
  cbn [forward].
  assert (index (errorMessage e) "type" = VStr "error") as ->
    by (unfold errorMessage, index; by simplify_map_eq).
  assert (index (errorMessage e) "error" = VStr (Error e)) as ->
    by (unfold errorMessage, index; by simplify_map_eq).
  cbn [assertString]. by rewrite decide_True.
Qed.

Lemma reader_transport_error e s (q : queryHandler (T := T)) :
  readErr q = None → readerRunning q = true →
  msgChan (reader [EvErr (Some e) s] q) =
    msgChan q ++ match s with
                 | SendDelivered => [errorMessage e]
                 | SendCtxDone => []
                 end ∧
  msgChanClosed (reader [EvErr (Some e) s] q) = true ∧
  err_ (reader [EvErr (Some e) s] q) = Some e.
Proof.
  intros He Hr. unfold reader. rewrite Hr.
  cbn [readMessages readerIteration it_status it_handler fst].
  destruct (terminal_spec s e q He) as (H1 & _ & H3).
  unfold err_, readerExit.
  cbn [msgChan msgChanClosed readErr set_readerRunning set_msgChanClosed].
  by rewrite H1, H3.
Qed.
End ExtraSurface.

(** X26: a transport error always reaches the caller of the client's
    receive loop.  When the reader of a handler without a terminal error
    gets a transport error, and the messages already in the channel are
    all forwardable, [ReceiveMessagesWithErrors] reading that channel
    hands over those messages, returns, and reports one error: an
    [SDKError] with the error's text ("unknown stream error" for an empty
    text) when the reader's synthetic error message got into the channel,
    and the terminal error itself when that message was lost to the
    cancellation of the reader's context. *)
Theorem transport_error_reaches_caller
    {T : Type} `{!Transport T} (floatToInt : float → Z)
    (e : error) (s : Handler.selectSend)
    (q : Handler.queryHandler (T := T)) :
  Handler.readErr q = None → Handler.readerRunning q = true →
  Forall (parses floatToInt) (Handler.msgChan q) →
  let q' := Handler.reader [Handler.EvErr (Some e) s] q in
  let r := Receive.ReceiveMessagesWithErrors floatToInt (Some (Receive.offered q')) in
  Receive.end_ r = Receive.Returned ∧
  Forall2 (λ msg m, Parser.parseMessage floatToInt msg = inl m)
    (Handler.msgChan q) (Receive.messages r) ∧
  Receive.failure r = Some (surfaced s e).
Proof.
  intros He Hr Hp q' r. subst r q'.
  destruct (reader_transport_error e s q He Hr) as (Hc & Hcl & Herr).
  unfold Receive.ReceiveMessagesWithErrors, Receive.offered, Receive.receiveLoop.
  rewrite Hc, Hcl, Herr, fmap_app.
  set (k := {| Receive.envelopeError := Receive.clientEnvelopeError;
               Receive.untilResult := false |}).
  destruct (forward_parses floatToInt k (Handler.msgChan q) eq_refl Hp)
    as (Hs & Hf & Hm).
  rewrite (forward_app floatToInt k _ _ Hs).
  destruct s; cbn [fmap list_fmap fst snd].
  - rewrite forward_errorMessage. cbn [fst snd Receive.end_ Receive.messages
      Receive.failure]. rewrite app_nil_r. done.
  - cbn [Receive.forward fst snd Receive.end_ Receive.messages Receive.failure].
    rewrite app_nil_r. done.
Qed.

Lemma transport_error_reaches_caller_witness :
  Receive.failure
    (Receive.ReceiveMessagesWithErrors toZero
       (Some (Receive.offered
                (Handler.reader [Handler.EvErr (Some boom) Handler.SendDelivered]
                   handlerWithMessage))))
  = Some (surfaced Handler.SendDelivered boom).
Proof.
  assert (Hp : Forall (parses toZero) (Handler.msgChan handlerWithMessage)).
  { assert (Handler.msgChan handlerWithMessage = [systemRaw]) as ->
      by (by vm_compute).
    repeat constructor; [by vm_compute|]. eexists. by vm_compute. }
  exact (proj2 (proj2 (transport_error_reaches_caller toZero boom
                         Handler.SendDelivered handlerWithMessage
                         eq_refl eq_refl Hp))).
Defined.
